(** * Block operations core of KBFS (package libkbfs): a shallow embedding

    The development follows the Go sources:
    - [block_retrieval_queue.go]: the on-demand block retrieval queue;
    - [folder_block_manager.go]: quota reclamation;
    - [folder_block_ops.go]: read, write, truncate and the three-phase sync.

    Go pointers to mutable objects are modelled by locations in explicit
    stores, so that aliasing is visible; machine integers are [Z] or [N]
    with the wrap-around written where the code does arithmetic on them. *)

From stdpp Require Import gmap list strings sorting.
From Stdlib Require Import ZArith Lia.

#[local] Open Scope Z_scope.

(** ** Block pointers (data model, section 3 of the specification) *)

(** Modelled from the spec: the declaration of [BlockPointer] is not among
    the sources; the fields are those the specification lists,
    [{ID, KeyGen, DataVer, Creator, RefNonce}]. *)
Record BlockPointer := mkBlockPointer {
  ID : N;
  KeyGen : Z;
  DataVer : Z;
  Creator : N;
  RefNonce : N
}.

#[global] Instance BlockPointer_eq_dec : EqDecision BlockPointer.
Proof. solve_decision. Defined.

#[global] Instance BlockPointer_countable : Countable BlockPointer.
Proof.
  refine (inj_countable'
    (fun p => (ID p, KeyGen p, DataVer p, Creator p, RefNonce p))
    (fun t => match t with (a, b, c, d, e) => mkBlockPointer a b c d e end) _).
  by intros [].
Defined.

(** 64-bit unsigned wrap-around, as for Go's [uint64]. *)
Definition wrap64 (n : N) : N := (n mod 2 ^ 64)%N.

(** 64-bit signed wrap-around, as for Go's [int64]. *)
Definition wrapS64 (z : Z) : Z := (z + 2 ^ 63) mod 2 ^ 64 - 2 ^ 63.

(** Errors.  The named ones are those the modelled code makes or tests
    for; [OtherError] stands for the errors of the external collaborators
    (servers, crypto, codec). *)
Inductive error :=
| DeadlineExceeded
| InvalidBlockRefError
| InvalidPathError
| InvalidParentPathError
| NotFileBlockError
| NotDirBlockError
| NoSuchNameError
| FileTooBigError
| WriteAccessError
| BadSplitError
| InconsistentEncodedSizeError
| NoSyncOpError
| NoSuchBlockError
| SyncStateError
| SkippingWhileUnstaged
| NoTruncateLock
| OtherError (code : nat).

#[global] Instance error_eq_dec : EqDecision error.
Proof. solve_decision. Defined.

(** ** The block retrieval queue ([block_retrieval_queue.go]) *)

Module Brq.

(** The order of the heap on the pairs (priority, insertionOrder): larger
    priorities first, then smaller insertion orders. *)
Definition keyLess (a b : Z * N) : bool :=
  if a.1 =? b.1 then (a.2 <? b.2)%N else b.1 <? a.1.

Section Queue.
(** The queue only stores these; it never inspects them. *)
Context {Ctx KeyMetadata Block : Type}.

(** [blockRetrievalRequest]; [doneCh] names the channel made for the
    request. *)
Record blockRetrievalRequest := mkRequest {
  ctx : Ctx;
  block : Block;
  doneCh : nat
}.

Record blockRetrieval := mkRetrieval {
  blockPtr : BlockPointer;
  kmd : KeyMetadata;
  requests : list blockRetrievalRequest;
  index : Z;
  priority : Z;
  insertionOrder : N
}.

Definition setIndex (i : Z) (br : blockRetrieval) : blockRetrieval :=
  mkRetrieval (blockPtr br) (kmd br) (requests br) i (priority br)
    (insertionOrder br).

Definition setPriority (p : Z) (br : blockRetrieval) : blockRetrieval :=
  mkRetrieval (blockPtr br) (kmd br) (requests br) (index br) p
    (insertionOrder br).

Definition appendRequest (r : blockRetrievalRequest) (br : blockRetrieval)
  : blockRetrieval :=
  mkRetrieval (blockPtr br) (kmd br) (requests br ++ [r]) (index br)
    (priority br) (insertionOrder br).

(** [*blockRetrieval] values are shared between [ptrs], the heap and the
    worker that took one: [objs] is the store of these objects, and the
    other fields hold locations.  [notifying] counts the goroutines
    started by [notifyWorker] that have not run yet, [sent] records what
    was sent on which worker channel, [nextCh] is the next channel that
    [make] returns. *)
Record blockRetrievalQueue := mkQueue {
  objs : gmap nat blockRetrieval;
  ptrs : gmap BlockPointer nat;
  insertionCount : N;
  heap : list nat;
  workerQueue : list nat;
  numWorkers : nat;
  notifying : nat;
  sent : list (nat * nat);
  nextCh : nat
}.

Definition newBlockRetrievalQueue (n : nat) : blockRetrievalQueue :=
  mkQueue ∅ ∅ 0 [] [] n 0 [] 0.

(** Modelled from the spec: [blockRetrievalHeap] and its methods are not
    among the sources.  The specification fixes the order in which the
    heap hands out retrievals: strict max-priority, ties broken by
    ascending [insertionOrder]; and that a retrieval records its position
    ([heapIndex]), which [Request] reads as [-1] once the retrieval has
    left the heap.  The heap is modelled by the sequence of queued
    retrievals in dispatch order. *)
Definition key (br : blockRetrieval) : Z * N :=
  (priority br, insertionOrder br).

Definition Less (a b : blockRetrieval) : bool := keyLess (key a) (key b).

(** Go has no dangling pointers; the default is never used on a
    well-formed queue. *)
Definition keyAt (o : gmap nat blockRetrieval) (l : nat) : Z * N :=
  from_option key (0, 0%N) (o !! l).

Definition lessAt (o : gmap nat blockRetrieval) (a b : nat) : bool :=
  keyLess (keyAt o a) (keyAt o b).

Fixpoint heapInsert (o : gmap nat blockRetrieval) (l : nat) (h : list nat)
  : list nat :=
  match h with
  | [] => [l]
  | m :: h' => if lessAt o l m then l :: h else m :: heapInsert o l h'
  end.

Fixpoint reindexFrom (i : Z) (h : list nat) (o : gmap nat blockRetrieval)
  : gmap nat blockRetrieval :=
  match h with
  | [] => o
  | l :: h' => reindexFrom (i + 1) h' (alter (setIndex i) l o)
  end.

(** [heap.Push] *)
Definition heapPush (o : gmap nat blockRetrieval) (h : list nat) (l : nat)
  : gmap nat blockRetrieval * list nat :=
  let h' := heapInsert o l h in (reindexFrom 0 h' o, h').

(** [heap.Fix]; indexing outside the heap panics in Go ([None]). *)
Definition heapFix (o : gmap nat blockRetrieval) (h : list nat) (i : Z)
  : option (gmap nat blockRetrieval * list nat) :=
  if i <? 0 then None else
  match h !! Z.to_nat i with
  | Some l =>
      let h' := heapInsert o l (delete (Z.to_nat i) h) in
      Some (reindexFrom 0 h' o, h')
  | None => None
  end.

(** [heap.Pop]; popping an empty heap panics in Go ([None]). *)
Definition heapPop (o : gmap nat blockRetrieval) (h : list nat)
  : option (nat * gmap nat blockRetrieval * list nat) :=
  match h with
  | [] => None
  | l :: h' => Some (l, reindexFrom 0 h' (alter (setIndex (-1)) l o), h')
  end.

(** [Request]: the result is the response channel and the new queue;
    [None] stands for a Go panic. *)
Definition Request (q : blockRetrievalQueue) (c : Ctx) (prio : Z)
    (k : KeyMetadata) (ptr : BlockPointer) (b : Block)
  : option (nat * blockRetrievalQueue) :=
  let '(l, o1, ptrs1, count1, h1, notify) :=
    match ptrs q !! ptr with
    | Some l => (l, objs q, ptrs q, insertionCount q, heap q, false)
    | None =>
        let l := fresh (dom (objs q)) in
        let br := mkRetrieval ptr k [] (-1) prio (insertionCount q) in
        let '(o, h) := heapPush (<[l := br]> (objs q)) (heap q) l in
        (l, o, <[ptr := l]> (ptrs q), wrap64 (insertionCount q + 1), h, true)
    end in
  let ch := nextCh q in
  let o2 := alter (appendRequest (mkRequest c b ch)) l o1 in
  match o2 !! l with
  | None => None
  | Some br =>
      let fixed :=
        if negb (index br =? -1) && (priority br <? prio)
        then heapFix (alter (setPriority prio) l o2) h1 (index br)
        else Some (o2, h1) in
      match fixed with
      | None => None
      | Some (o3, h3) =>
          Some (ch,
                mkQueue o3 ptrs1 count1 h3 (workerQueue q) (numWorkers q)
                  (if notify then S (notifying q) else notifying q)
                  (sent q) (S ch))
      end
  end.

(** [WorkOnRequest]: the send on [workerQueue] blocks when [numWorkers]
    channels are already queued ([None]). *)
Definition WorkOnRequest (q : blockRetrievalQueue)
  : option (nat * blockRetrievalQueue) :=
  if decide (length (workerQueue q) < numWorkers q)%nat
  then
    let ch := nextCh q in
    Some (ch, mkQueue (objs q) (ptrs q) (insertionCount q) (heap q)
                (workerQueue q ++ [ch]) (numWorkers q) (notifying q)
                (sent q) (S ch))
  else None.

(** One goroutine started by [notifyWorker] runs: it takes the next
    queued worker channel and sends it the retrieval popped from the
    heap.  [None] when no such goroutine can run. *)
Definition notifyWorker_run (q : blockRetrievalQueue)
  : option blockRetrievalQueue :=
  match notifying q, workerQueue q with
  | S n, ch :: ws =>
      match heapPop (objs q) (heap q) with
      | Some (l, o, h) =>
          Some (mkQueue o (ptrs q) (insertionCount q) h ws (numWorkers q) n
                  (sent q ++ [(ch, l)]) (nextCh q))
      | None => None
      end
  | _, _ => None
  end.

(** [FinalizeRequest] *)
Definition FinalizeRequest (q : blockRetrievalQueue) (ptr : BlockPointer)
  : blockRetrievalQueue :=
  mkQueue (objs q) (delete ptr (ptrs q)) (insertionCount q) (heap q)
    (workerQueue q) (numWorkers q) (notifying q) (sent q) (nextCh q).

End Queue.

Arguments blockRetrievalRequest : clear implicits.
Arguments blockRetrieval : clear implicits.
Arguments blockRetrievalQueue : clear implicits.

(** *** The order of the heap *)

Definition keyLe (a b : Z * N) : Prop := keyLess b a = false.

Section QueueInvariants.
Context {Ctx KeyMetadata Block : Type}.
Abbreviation retrieval := (blockRetrieval Ctx KeyMetadata Block).
Abbreviation queue := (blockRetrievalQueue Ctx KeyMetadata Block).
Implicit Types (o : gmap nat retrieval) (h : list nat) (q : queue).

(** The heap lists the queued retrievals in dispatch order. *)
Definition sortedAt o h : Prop := StronglySorted keyLe (keyAt o <$> h).

(** *** Well-formed queues *)

(** The heap part: no retrieval is queued twice, [index] is the position
    in the heap and [-1] off the heap, and the heap is in dispatch
    order. *)
Record wfHeap o h : Prop := {
  wf_nodup : NoDup h;
  wf_off : ∀ l br, o !! l = Some br → l ∉ h → index br = -1;
  wf_on : ∀ j l, h !! j = Some l →
            ∃ br, o !! l = Some br ∧ index br = Z.of_nat j;
  wf_sorted : sortedAt o h
}.

Record wf q : Prop := {
  wf_ptrs : ∀ ptr l, ptrs q !! ptr = Some l → is_Some (objs q !! l);
  wf_order : ∀ l br,
    objs q !! l = Some br → (insertionOrder br < insertionCount q)%N;
  wf_heap : wfHeap (objs q) (heap q)
}.

End QueueInvariants.

(** *** Runs of the queue *)

Section Runs.
Context {Ctx KeyMetadata Block : Type}.
Abbreviation queue := (blockRetrievalQueue Ctx KeyMetadata Block).

(** What happens to a queue: the calls of its users, and the turn of one
    goroutine started by [notifyWorker]. *)
Inductive call :=
| CallRequest (c : Ctx) (prio : Z) (k : KeyMetadata) (ptr : BlockPointer)
    (b : Block)
| CallWorkOnRequest
| CallFinalizeRequest (ptr : BlockPointer)
| RunNotifyWorker.

Definition doCall (q : queue) (c : call) : option queue :=
  match c with
  | CallRequest c prio k ptr b => snd <$> Request q c prio k ptr b
  | CallWorkOnRequest => snd <$> WorkOnRequest q
  | CallFinalizeRequest ptr => Some (FinalizeRequest q ptr)
  | RunNotifyWorker => notifyWorker_run q
  end.

Fixpoint doCalls (q : queue) (cs : list call) : option queue :=
  match cs with
  | [] => Some q
  | c :: cs' => q' ← doCall q c; doCalls q' cs'
  end.

(** What every queue that was made by [newBlockRetrievalQueue] and then
    only used through its methods satisfies, after at most [k] calls. *)
Record reached (k : nat) (q : queue) : Prop := {
  reached_wf : wf q;
  reached_notifying : notifying q = length (heap q);
  reached_count : (insertionCount q ≤ N.of_nat k)%N;
  reached_orders : ∀ l1 l2 b1 b2,
    objs q !! l1 = Some b1 → objs q !! l2 = Some b2 →
    insertionOrder b1 = insertionOrder b2 → l1 = l2;
  reached_sent : NoDup (heap q ++ (snd <$> sent q));
  reached_sent_objs : ∀ l, l ∈ (snd <$> sent q) → is_Some (objs q !! l);
  reached_chans : NoDup (workerQueue q ++ (fst <$> sent q));
  reached_chans_lt : ∀ ch,
    ch ∈ workerQueue q ++ (fst <$> sent q) → (ch < nextCh q)%nat
}.
End Runs.

Arguments call : clear implicits.

(** *** A run of the queue: one request, handed to a worker, then a
    second request of higher priority for the same pointer *)

Definition P1 : BlockPointer := mkBlockPointer 1 1 1 1 0.

Definition handedToWorker : option (blockRetrievalQueue unit unit unit) :=
  '(_, q1) ← Request (newBlockRetrievalQueue 2) tt 1 tt P1 tt;
  '(_, q2) ← WorkOnRequest q1;
  notifyWorker_run q2.

(** *** Two requests and a worker; then the first hand-out *)

Definition P2 : BlockPointer := mkBlockPointer 2 1 1 1 0.

Definition twoQueued : list (call unit unit unit) :=
  [CallRequest tt 1 tt P1 tt; CallRequest tt 5 tt P2 tt; CallWorkOnRequest].

Definition afterCalls (cs : list (call unit unit unit))
  : blockRetrievalQueue unit unit unit :=
  default (newBlockRetrievalQueue 1) (doCalls (newBlockRetrievalQueue 1) cs).

End Brq.

(** ** Quota reclamation ([folder_block_manager.go]) *)

Module Fbm.

Definition numPointersPerGCThreshold : Z := 100.
Definition numMaxRevisionsPerQR : Z := 100.

(** What the reclamation reads of a metadata operation: whether it is a
    [gcOp], its [Unrefs()], and its [AllUpdates()] as pairs
    [(Unref, Ref)]. *)
Record op := mkOp {
  isGCOp : bool;
  Unrefs : list BlockPointer;
  AllUpdates : list (BlockPointer * BlockPointer)
}.

(** What the reclamation reads of a [RootMetadata]. *)
Record RootMetadata := mkRMD {
  Revision : Z;
  Ops : list op;
  readable : option error;
  merged : bool;
  isWriter : bool;
  oldEnough : bool
}.

(** The fields of [folderBlockManager] that remember the last run. *)
Record folderBlockManager := mkFbm {
  lastQRHeadRev : Z;
  lastQROldEnoughRev : Z;
  wasLastQRComplete : bool
}.

Section Reclamation.

(** Declared in files that are not among the sources: the two
    distinguished revisions and the batch size of the metadata walk. *)
Variables (MetadataRevisionUninitialized MetadataRevisionInitial : Z).
Variable maxMDsAtATime : Z.

(** The external collaborators: [getMDRange] over the merged branch (start
    and end revision, both included), the helper's current head, the
    current user (reduced to whether it could be fetched), the truncate
    lock of the metadata server, and the calls that delete and finalize. *)
Variable getMDRange : Z → Z → error + list RootMetadata.
Variable getMDForFBM : error + RootMetadata.
Variable GetCurrentUserInfo : option error.
Variable TruncateLock : error + bool.
Variable getMostRecentOldEnoughAndGCRevisions : RootMetadata → error + Z * Z.
Variable deleteBlockRefs :
  RootMetadata → list BlockPointer → error + list N.
Variable finalizeReclamation :
  list BlockPointer → list N → Z → option error.

(** The body of the loop over [rmd.data.Changes.Ops]. *)
Definition gatherOp (ptrs : list BlockPointer) (o : op) : list BlockPointer :=
  if isGCOp o then ptrs
  else
    fold_left
      (fun acc (u : BlockPointer * BlockPointer) =>
         if decide (u.2 ≠ u.1) then acc ++ [u.1] else acc)
      (AllUpdates o) (ptrs ++ Unrefs o).

(** The loop [for i := len(rmds) - 1; i >= 0; i--], given the batch in
    reverse; the first component tells whether it left by [break outer]. *)
Fixpoint gatherBatch (rmds : list RootMetadata) (earliestRev : Z)
    (ptrs : list BlockPointer) (revStartPositions : gmap Z nat)
  : bool * list BlockPointer * gmap Z nat :=
  match rmds with
  | [] => (false, ptrs, revStartPositions)
  | rmd :: rest =>
      if Revision rmd <=? earliestRev then (true, ptrs, revStartPositions)
      else
        gatherBatch rest earliestRev (fold_left gatherOp (Ops rmd) ptrs)
          (<[Revision rmd := length ptrs]> revStartPositions)
  end.

(** The walk backward from [latestRev]; [None] when the fuel runs out. *)
Fixpoint gatherLoop (fuel : nat) (currHead earliestRev : Z)
    (ptrs : list BlockPointer) (revStartPositions : gmap Z nat)
  : option (error + list BlockPointer * gmap Z nat) :=
  match fuel with
  | O => None
  | S fuel' =>
      let startRev := wrapS64 (wrapS64 (currHead - maxMDsAtATime) + 1) in
      let startRev :=
        if startRev <? MetadataRevisionInitial
        then MetadataRevisionInitial else startRev in
      match getMDRange startRev currHead with
      | inl e => Some (inl e)
      | inr rmds =>
          let numNew := Z.of_nat (length rmds) in
          let '(brk, ptrs', pos') :=
            gatherBatch (reverse rmds) earliestRev ptrs revStartPositions in
          if brk then Some (inr (ptrs', pos'))
          else
            let currHead' :=
              match rmds with
              | rmd0 :: _ => wrapS64 (Revision rmd0 - 1)
              | [] => currHead
              end in
            if (numNew <? maxMDsAtATime)
               || (currHead' <? MetadataRevisionInitial)
            then Some (inr (ptrs', pos'))
            else gatherLoop fuel' currHead' earliestRev ptrs' pos'
      end
  end.

(** The loop [for rev, i := range revStartPositions], over the entries in
    the order in which the map hands them out. *)
Definition earliestAbove (threshStart : Z) (entries : list (Z * nat))
    (latestRev : Z) : Z :=
  fold_left
    (fun latest (e : Z * nat) =>
       if (Z.of_nat e.2 <? threshStart) && (e.1 <? latest) then e.1
       else latest)
    entries latestRev.

(** The part of [getUnreferencedBlocks] after the walk.  A Go map is
    ranged over in an unspecified order: [entries] is that order. *)
Definition shortenRange (entries : list (Z * nat))
    (ptrs : list BlockPointer) (revStartPositions : gmap Z nat)
    (latestRev : Z) : list BlockPointer * Z * bool :=
  if numPointersPerGCThreshold <? Z.of_nat (length ptrs) then
    let threshStart := Z.of_nat (length ptrs) - numPointersPerGCThreshold in
    let latestRev' := earliestAbove threshStart entries latestRev in
    if latestRev' <? latestRev
    then (drop (default 0%nat (revStartPositions !! latestRev')) ptrs,
          latestRev', false)
    else (ptrs, latestRev, true)
  else (ptrs, latestRev, true).

(** [getUnreferencedBlocks]: [(ptrs, lastRevConsidered, complete, err)]. *)
Definition getUnreferencedBlocks (fuel : nat) (latestRev earliestRev : Z)
  : option (list BlockPointer * Z * bool * option error) :=
  if latestRev <=? earliestRev
  then Some ([], MetadataRevisionUninitialized, true, None)
  else
    match gatherLoop fuel latestRev earliestRev [] ∅ with
    | None => None
    | Some (inl e) => Some ([], MetadataRevisionUninitialized, false, Some e)
    | Some (inr (ptrs, pos)) =>
        let '(ptrs', latestRev', complete) :=
          shortenRange (map_to_list pos) ptrs pos latestRev in
        Some (ptrs', latestRev', complete, None)
    end.

(** [isQRNecessary], for a head that is not [nil]. *)
Definition isQRNecessary (fbm : folderBlockManager) (head : RootMetadata)
  : bool :=
  if negb (Revision head =? lastQRHeadRev fbm)
     || negb (wasLastQRComplete fbm)
  then true
  else (lastQROldEnoughRev fbm <? lastQRHeadRev fbm) && oldEnough head.

(** "Don't try to do too many at a time": the new
    [mostRecentOldEnoughRev] and [shortened]. *)
Definition capRevisions (mostRecentOldEnoughRev lastGCRev : Z) : Z * bool :=
  if numMaxRevisionsPerQR <? wrapS64 (mostRecentOldEnoughRev - lastGCRev)
  then (wrapS64 (lastGCRev + numMaxRevisionsPerQR), true)
  else (mostRecentOldEnoughRev, false).

(** The deferred function of [doReclamation] that remembers the run. *)
Definition rememberQR (fbm : folderBlockManager) (head : RootMetadata)
    (mostRecentOldEnoughRev : Z) (complete : bool) (err : option error)
  : folderBlockManager :=
  match err with
  | None => mkFbm (Revision head) mostRecentOldEnoughRev complete
  | Some _ => fbm
  end.

(** What one run did: its error, the manager afterwards, and the
    arguments of [finalizeReclamation] when it got that far. *)
Record runResult := mkRun {
  runErr : option error;
  runFbm : folderBlockManager;
  runFinalized : option (list BlockPointer * Z)
}.

(** [doReclamation]; [None] when the walk runs out of fuel. *)
Definition doReclamation (fuel : nat) (fbm : folderBlockManager)
  : option runResult :=
  match getMDForFBM with
  | inl e => Some (mkRun (Some e) fbm None)
  | inr head =>
  match readable head with
  | Some e => Some (mkRun (Some e) fbm None)
  | None =>
  if negb (merged head)
  then Some (mkRun (Some SkippingWhileUnstaged) fbm None) else
  match GetCurrentUserInfo with
  | Some e => Some (mkRun (Some e) fbm None)
  | None =>
  if negb (isWriter head)
  then Some (mkRun (Some WriteAccessError) fbm None) else
  if negb (isQRNecessary fbm head) then Some (mkRun None fbm None) else
  (* from here on the deferred function remembers the run *)
  let done := fun (rev : Z) (complete : bool) (err : option error)
                  (fin : option (list BlockPointer * Z)) =>
    Some (mkRun err (rememberQR fbm head rev complete err) fin) in
  match TruncateLock with
  | inl e => done 0 false (Some e) None
  | inr false => done 0 false (Some NoTruncateLock) None
  | inr true =>
  match getMostRecentOldEnoughAndGCRevisions head with
  | inl e => done MetadataRevisionUninitialized false (Some e) None
  | inr (mostRecentOldEnoughRev, lastGCRev) =>
  if (mostRecentOldEnoughRev =? MetadataRevisionUninitialized)
     || (mostRecentOldEnoughRev <=? lastGCRev)
  then done mostRecentOldEnoughRev true None None else
  let '(mostRecentOldEnoughRev, shortened) :=
    capRevisions mostRecentOldEnoughRev lastGCRev in
  match getUnreferencedBlocks fuel mostRecentOldEnoughRev lastGCRev with
  | None => None
  | Some (ptrs, latestRev, complete, Some e) =>
      done mostRecentOldEnoughRev complete (Some e) None
  | Some (ptrs, latestRev, complete, None) =>
  if (Z.of_nat (length ptrs) =? 0) && negb shortened
  then done mostRecentOldEnoughRev true None None else
  match deleteBlockRefs head ptrs with
  | inl e => done mostRecentOldEnoughRev complete (Some e) None
  | inr zeroRefCounts =>
      done mostRecentOldEnoughRev complete
        (finalizeReclamation ptrs zeroRefCounts latestRev)
        (Some (ptrs, latestRev))
  end end end end end end end.

End Reclamation.

(** *** What the reclamation takes for unreferenced *)

(** [p] is unreferenced by [o], as the reclamation reads it: [o] is not a
    [gcOp], and [p] is among its [Unrefs()] or is the [Unref] of one of
    its updates whose [Ref] is another pointer. *)
Definition unrefdBy (o : op) (p : BlockPointer) : Prop :=
  isGCOp o = false ∧
  (p ∈ Unrefs o ∨ ∃ r, (p, r) ∈ AllUpdates o ∧ r ≠ p).

(** *** The chunks of [doChunkedDowngrades] *)

Definition numPointersToDowngradePerChunk : Z := 20.

(** [doChunkedDowngrades]: "round up to find the number of chunks", with
    [n] for [len(ptrs)]. *)
Definition numChunks (n : Z) : Z :=
  wrapS64 (wrapS64 (n + numPointersToDowngradePerChunk) - 1)
    ÷ numPointersToDowngradePerChunk.

(** How a loop ended. *)
Inductive ended (A : Type) :=
| Done (a : A)
| Panicked
| NoFuel.
Arguments Done {A} a.
Arguments Panicked {A}.
Arguments NoFuel {A}.

(** [doChunkedDowngrades]: the loop that sends [ptrs[start:end]] on
    [chunks], which has room for [numChunks] slices; [sent] is what was
    sent so far.  A slice expression out of range panics. *)
Fixpoint sendChunks (fuel : nat) (ptrs : list BlockPointer) (start : Z)
    (sent : list (list BlockPointer)) : ended (list (list BlockPointer)) :=
  match fuel with
  | O => NoFuel
  | S fuel' =>
      let n := Z.of_nat (length ptrs) in
      if start <? n then
        let end_ := wrapS64 (start + numPointersToDowngradePerChunk) in
        let end_ := if n <? end_ then n else end_ in
        if (0 <=? start) && (start <=? end_) && (end_ <=? n) then
          sendChunks fuel' ptrs
            (wrapS64 (start + numPointersToDowngradePerChunk))
            (sent ++ [take (Z.to_nat (end_ - start))
                        (drop (Z.to_nat start) ptrs)])
        else Panicked
      else Done sent
  end.

(** *** A folder whose single revision unreferences 101 blocks *)

Definition ptrN (n : nat) : BlockPointer := mkBlockPointer (N.of_nat n) 1 1 1 0.

Definition rev1 : RootMetadata :=
  mkRMD 1 [mkOp false (ptrN <$> seq 1 101) []] None true true true.

Definition oneRevision (startRev endRev : Z) : error + list RootMetadata :=
  inr (if (startRev <=? 1) && (1 <=? endRev) then [rev1] else []).

(** One run over it: the head is revision 1, nothing was reclaimed
    before, every external call succeeds. *)
Definition oneRevisionRun : option runResult :=
  doReclamation 0 1 10 oneRevision (inr rev1) None (inr true)
    (fun _ => inr (1, 0)) (fun _ _ => inr []) (fun _ _ _ => None)
    5 (mkFbm 0 0 true).

(** *** A folder of three revisions that unreference 60, 60 and 10 blocks *)

Definition revOf (r : Z) (first n : nat) : RootMetadata :=
  mkRMD r [mkOp false (ptrN <$> seq first n) []] None true true true.

Definition threeRevisions (startRev endRev : Z)
  : error + list RootMetadata :=
  inr (filter (fun m => startRev ≤ Revision m ≤ endRev)
         [revOf 1 1 60; revOf 2 61 60; revOf 3 121 10]).

Definition threeRevisionsRun : option runResult :=
  doReclamation 0 1 10 threeRevisions (inr (revOf 3 121 10)) None
    (inr true) (fun _ => inr (3, 0)) (fun _ _ => inr [])
    (fun _ _ _ => None) 5 (mkFbm 0 0 true).

End Fbm.

(** ** Folder block operations ([folder_block_ops.go]): the data model *)

Module Fbo.

Abbreviation byte := Byte.byte.
Abbreviation loc := nat.

(** Modelled from the spec: the declarations of the block types are not
    among the sources.  [BlockRef] is [{ID, RefNonce}], [BlockInfo] adds
    [EncodedSize], an indirect file block holds [{BlockInfo, Off, Holes}],
    a directory block maps names to entries. *)
Record BlockRef := mkBlockRef {
  refID : N;
  refNonce : N
}.

#[global] Instance BlockRef_eq_dec : EqDecision BlockRef.
Proof. solve_decision. Defined.

#[global] Instance BlockRef_countable : Countable BlockRef.
Proof.
  refine (inj_countable' (fun r => (refID r, refNonce r))
            (fun t => mkBlockRef t.1 t.2) _).
  by intros [].
Defined.

Definition ref (p : BlockPointer) : BlockRef := mkBlockRef (ID p) (RefNonce p).

Record BlockInfo := mkBlockInfo {
  infoPtr : BlockPointer;
  EncodedSize : Z
}.

Record IndirectFilePtr := mkIndirectFilePtr {
  ptrInfo : BlockInfo;
  Off : Z;
  Holes : bool
}.

Record FileBlock := mkFileBlock {
  IsInd : bool;
  IPtrs : list IndirectFilePtr;
  Contents : list byte
}.

Inductive EntryType := File | Exec | Dir | Sym.

Record DirEntry := mkDirEntry {
  entryInfo : BlockInfo;
  entryType : EntryType;
  Size : Z;
  Mtime : Z;
  Ctime : Z
}.

Record DirBlock := mkDirBlock {
  Children : gmap string DirEntry
}.

Inductive Block :=
| BlockFile (b : FileBlock)
| BlockDir (b : DirBlock)
| BlockCommon.

(** Modelled from the spec: a path is the sequence of [{BlockPointer,
    Name}] from the root to the tail, in a folder branch; it is valid iff
    it is not empty and all its pointers are initialised;
    [HasValidParent] iff its length is at least 2.  A pointer is taken as
    initialised when its ID is not the zero ID. *)
Record pathNode := mkPathNode {
  nodePtr : BlockPointer;
  Name : string
}.

Record Path := mkPath {
  Tlf : N;
  Branch : string;
  path : list pathNode
}.

Definition IsInitialized (p : BlockPointer) : bool := negb (ID p =? 0)%N.

Definition ptrIsValid (p : BlockPointer) : bool := IsInitialized p.

Definition pathIsValid (p : Path) : bool :=
  match path p with
  | [] => false
  | nodes => forallb (fun n => ptrIsValid (nodePtr n)) nodes
  end.

(** [TailPointer], [TailName] and [ParentPath] index the last node: on an
    empty path they panic in Go ([None]). *)
Definition TailPointer (p : Path) : option BlockPointer :=
  nodePtr <$> last (path p).

Definition TailName (p : Path) : option string := Name <$> last (path p).

Definition ParentPath (p : Path) : option Path :=
  match path p with
  | [] => None
  | nodes => Some (mkPath (Tlf p) (Branch p) (removelast nodes))
  end.

Definition HasValidParent (p : Path) : bool :=
  bool_decide (2 ≤ length (path p))%nat.

(** A context, reduced to its deadline (in nanoseconds). *)
Record Context := mkContext {
  deadline : option Z
}.

(** What the block operations read of the folder's metadata. *)
Record RootMetadata := mkRootMetadata {
  IsWriter : N → bool;
  LatestKeyGeneration : Z
}.

Record WriteRange := mkWriteRange {
  wrOff : Z;
  wrLen : Z
}.

(** Modelled from the spec: [syncOp] is declared in a file that is not
    among the sources; it records the write and truncate ranges
    accumulated since the last sync, and the blocks the sync referenced. *)
Record syncOp := mkSyncOp {
  opFile : BlockPointer;
  Writes : list WriteRange;
  opRefs : list BlockPointer
}.

Definition newSyncOp (p : BlockPointer) : syncOp := mkSyncOp p [] [].

Definition resetUpdateState (o : syncOp) : syncOp :=
  mkSyncOp (opFile o) (Writes o) [].

(** [blockPutState]: the blocks to upload, with the object each holds. *)
Record blockState := mkBlockState {
  blockPtr : BlockPointer;
  bsBlock : loc
}.

Record blockPutState := mkBlockPutState {
  blockStates : list blockState
}.

(** [syncInfo]; [bps] is a Go pointer ([None] for [nil]). *)
Record syncInfo := mkSyncInfo {
  oldInfo : BlockInfo;
  op : syncOp;
  unrefs : list BlockInfo;
  bps : option loc;
  refBytes : Z;
  unrefBytes : Z
}.

(** Modelled from the spec: the dirty-file tracker ([dirtyFile]) is not
    among the sources.  Per file it keeps the state of each block
    (dirty, syncing, synced, and whether orphaned), the byte ledger and
    the channels of the error listeners; [notified] records what
    [notifyErrListeners] sent. *)
Inductive syncState := Dirty | Syncing | Synced.

#[global] Instance syncState_eq_dec : EqDecision syncState.
Proof. solve_decision. Defined.

Record blockTrack := mkBlockTrack {
  sync : syncState;
  orphaned : bool
}.

Record dirtyFile := mkDirtyFile {
  fileBlockStates : gmap BlockPointer blockTrack;
  notYetSyncingBytes : Z;
  deferredNewBytes : Z;
  errListeners : list nat;
  notified : list (nat * error)
}.

Definition newDirtyFile : dirtyFile := mkDirtyFile ∅ 0 0 [] [].

(** A deferred write or truncate.  The Go code stores a closure; the
    closure captures the path at the time of the write, the data (or the
    size) and [newlyDirtiedChildBytes]. *)
Inductive DeferredOp :=
| DeferredWrite (filePath : Path) (dataCopy : list byte) (off : Z)
    (newlyDirtiedChildBytes : Z)
| DeferredTruncate (filePath : Path) (size : Z)
    (newlyDirtiedChildBytes : Z).

(** The external collaborators, as far as the block operations consult
    them: the current user, the temporary block IDs (the result of the
    n-th call), the block server, and constants of the configuration. *)
Record Config := mkConfig {
  GetCurrentUserInfo : error + string * N;
  MakeTemporaryBlockID : nat → error + N;
  bopsGet : Context → BlockPointer → error + Block;
  MaxFileBytes : Z;
  DefaultNewBlockDataVersion : bool → Z;
  syncHighWaterMark : Z;
  isRecoverableBlockError : error → bool;
  timeNow : Z;
  fboBranch : string
}.

(** The state: the Go heap of blocks, sync infos and block-put states
    (objects that the code shares through pointers), the dirty-block
    cache with its byte counters, the clean block cache (with whether an
    entry is permanent), and the fields of [folderBlockOps].
    [tempIDCalls] counts the calls of [MakeTemporaryBlockID],
    [forceSyncSent] tells whether a signal sits in [forceSyncChan]. *)
Record World := mkWorld {
  blocks : gmap loc Block;
  syncInfos : gmap loc syncInfo;
  bpss : gmap loc blockPutState;
  dirtyBcache : gmap (BlockPointer * string) loc;
  unsyncedBytes : Z;
  totalBytes : Z;
  bcache : gmap BlockPointer (loc * bool);
  dirtyFiles : gmap BlockPointer dirtyFile;
  unrefCache : gmap BlockRef loc;
  deCache : gmap BlockRef DirEntry;
  deferredWrites : list DeferredOp;
  deferredDirtyDeletes : list BlockPointer;
  doDeferWrite : bool;
  tempIDCalls : nat;
  forceSyncSent : bool
}.

Definition setBlocks (f : gmap loc Block → gmap loc Block) (w : World) :=
  mkWorld (f (blocks w)) (syncInfos w) (bpss w) (dirtyBcache w)
    (unsyncedBytes w) (totalBytes w) (bcache w) (dirtyFiles w)
    (unrefCache w) (deCache w) (deferredWrites w) (deferredDirtyDeletes w)
    (doDeferWrite w) (tempIDCalls w) (forceSyncSent w).

Definition setSyncInfos (f : gmap loc syncInfo → gmap loc syncInfo)
    (w : World) :=
  mkWorld (blocks w) (f (syncInfos w)) (bpss w) (dirtyBcache w)
    (unsyncedBytes w) (totalBytes w) (bcache w) (dirtyFiles w)
    (unrefCache w) (deCache w) (deferredWrites w) (deferredDirtyDeletes w)
    (doDeferWrite w) (tempIDCalls w) (forceSyncSent w).

Definition setBpss (f : gmap loc blockPutState → gmap loc blockPutState)
    (w : World) :=
  mkWorld (blocks w) (syncInfos w) (f (bpss w)) (dirtyBcache w)
    (unsyncedBytes w) (totalBytes w) (bcache w) (dirtyFiles w)
    (unrefCache w) (deCache w) (deferredWrites w) (deferredDirtyDeletes w)
    (doDeferWrite w) (tempIDCalls w) (forceSyncSent w).

Definition setDirtyBcache
    (f : gmap (BlockPointer * string) loc → gmap (BlockPointer * string) loc)
    (w : World) :=
  mkWorld (blocks w) (syncInfos w) (bpss w) (f (dirtyBcache w))
    (unsyncedBytes w) (totalBytes w) (bcache w) (dirtyFiles w)
    (unrefCache w) (deCache w) (deferredWrites w) (deferredDirtyDeletes w)
    (doDeferWrite w) (tempIDCalls w) (forceSyncSent w).

Definition setUnsyncedBytes (f : Z → Z) (w : World) :=
  mkWorld (blocks w) (syncInfos w) (bpss w) (dirtyBcache w)
    (f (unsyncedBytes w)) (totalBytes w) (bcache w) (dirtyFiles w)
    (unrefCache w) (deCache w) (deferredWrites w) (deferredDirtyDeletes w)
    (doDeferWrite w) (tempIDCalls w) (forceSyncSent w).

Definition setBcache
    (f : gmap BlockPointer (loc * bool) → gmap BlockPointer (loc * bool))
    (w : World) :=
  mkWorld (blocks w) (syncInfos w) (bpss w) (dirtyBcache w)
    (unsyncedBytes w) (totalBytes w) (f (bcache w)) (dirtyFiles w)
    (unrefCache w) (deCache w) (deferredWrites w) (deferredDirtyDeletes w)
    (doDeferWrite w) (tempIDCalls w) (forceSyncSent w).

Definition setDirtyFiles
    (f : gmap BlockPointer dirtyFile → gmap BlockPointer dirtyFile)
    (w : World) :=
  mkWorld (blocks w) (syncInfos w) (bpss w) (dirtyBcache w)
    (unsyncedBytes w) (totalBytes w) (bcache w) (f (dirtyFiles w))
    (unrefCache w) (deCache w) (deferredWrites w) (deferredDirtyDeletes w)
    (doDeferWrite w) (tempIDCalls w) (forceSyncSent w).

Definition setUnrefCache (f : gmap BlockRef loc → gmap BlockRef loc)
    (w : World) :=
  mkWorld (blocks w) (syncInfos w) (bpss w) (dirtyBcache w)
    (unsyncedBytes w) (totalBytes w) (bcache w) (dirtyFiles w)
    (f (unrefCache w)) (deCache w) (deferredWrites w)
    (deferredDirtyDeletes w) (doDeferWrite w) (tempIDCalls w)
    (forceSyncSent w).

Definition setDeCache (f : gmap BlockRef DirEntry → gmap BlockRef DirEntry)
    (w : World) :=
  mkWorld (blocks w) (syncInfos w) (bpss w) (dirtyBcache w)
    (unsyncedBytes w) (totalBytes w) (bcache w) (dirtyFiles w)
    (unrefCache w) (f (deCache w)) (deferredWrites w)
    (deferredDirtyDeletes w) (doDeferWrite w) (tempIDCalls w)
    (forceSyncSent w).

Definition setDeferredWrites (f : list DeferredOp → list DeferredOp)
    (w : World) :=
  mkWorld (blocks w) (syncInfos w) (bpss w) (dirtyBcache w)
    (unsyncedBytes w) (totalBytes w) (bcache w) (dirtyFiles w)
    (unrefCache w) (deCache w) (f (deferredWrites w))
    (deferredDirtyDeletes w) (doDeferWrite w) (tempIDCalls w)
    (forceSyncSent w).

Definition setDeferredDirtyDeletes
    (f : list BlockPointer → list BlockPointer) (w : World) :=
  mkWorld (blocks w) (syncInfos w) (bpss w) (dirtyBcache w)
    (unsyncedBytes w) (totalBytes w) (bcache w) (dirtyFiles w)
    (unrefCache w) (deCache w) (deferredWrites w)
    (f (deferredDirtyDeletes w)) (doDeferWrite w) (tempIDCalls w)
    (forceSyncSent w).

Definition setDoDeferWrite (b : bool) (w : World) :=
  mkWorld (blocks w) (syncInfos w) (bpss w) (dirtyBcache w)
    (unsyncedBytes w) (totalBytes w) (bcache w) (dirtyFiles w)
    (unrefCache w) (deCache w) (deferredWrites w) (deferredDirtyDeletes w)
    b (tempIDCalls w) (forceSyncSent w).

Definition setTempIDCalls (n : nat) (w : World) :=
  mkWorld (blocks w) (syncInfos w) (bpss w) (dirtyBcache w)
    (unsyncedBytes w) (totalBytes w) (bcache w) (dirtyFiles w)
    (unrefCache w) (deCache w) (deferredWrites w) (deferredDirtyDeletes w)
    (doDeferWrite w) n (forceSyncSent w).

Definition setForceSyncSent (b : bool) (w : World) :=
  mkWorld (blocks w) (syncInfos w) (bpss w) (dirtyBcache w)
    (unsyncedBytes w) (totalBytes w) (bcache w) (dirtyFiles w)
    (unrefCache w) (deCache w) (deferredWrites w) (deferredDirtyDeletes w)
    (doDeferWrite w) (tempIDCalls w) b.

Definition emptyWorld : World :=
  mkWorld ∅ ∅ ∅ ∅ 0 0 ∅ ∅ ∅ ∅ [] [] false 0 false.

(** *** The monad of the operations: state, errors, panics, fuel *)

Inductive result (A : Type) :=
| Ok (a : A)
| Err (e : error)
| Panic
| OutOfFuel.

Arguments Ok {A} a.
Arguments Err {A} e.
Arguments Panic {A}.
Arguments OutOfFuel {A}.

Definition M (A : Type) : Type := World → result A * World.

Definition ret {A} (a : A) : M A := fun w => (Ok a, w).

Definition fail {A} (e : error) : M A := fun w => (Err e, w).

Definition panic {A} : M A := fun w => (Panic, w).

Definition outOfFuel {A} : M A := fun w => (OutOfFuel, w).

Definition bind {A B} (m : M A) (k : A → M B) : M B :=
  fun w =>
    match m w with
    | (Ok a, w') => k a w'
    | (Err e, w') => (Err e, w')
    | (Panic, w') => (Panic, w')
    | (OutOfFuel, w') => (OutOfFuel, w')
    end.

Notation "'let*' x ':=' m 'in' k" := (bind m (fun x => k))
  (at level 10, x pattern, m at level 100, k at level 200, only parsing).

Definition gets {A} (f : World → A) : M A := fun w => (Ok (f w), w).

Definition modify (f : World → World) : M unit := fun w => (Ok tt, f w).

(** [(x, err) := f()] where the code goes on after an error. *)
Definition try {A} (m : M A) : M (error + A) :=
  fun w =>
    match m w with
    | (Ok a, w') => (Ok (inr a), w')
    | (Err e, w') => (Ok (inl e), w')
    | (Panic, w') => (Panic, w')
    | (OutOfFuel, w') => (OutOfFuel, w')
    end.

(** [defer f()]: [f] runs when the body returns, whatever it returns, and
    also when it panics. *)
Definition withDefer {A} (deferred : M unit) (body : M A) : M A :=
  fun w =>
    match body w with
    | (OutOfFuel, w') => (OutOfFuel, w')
    | (r, w') =>
        match deferred w' with
        | (Ok _, w'') => (r, w'')
        | (Err _, w'') => (r, w'')
        | (Panic, w'') => (Panic, w'')
        | (OutOfFuel, w'') => (OutOfFuel, w'')
        end
    end.

Definition liftOpt {A} (o : option A) : M A :=
  match o with Some a => ret a | None => panic end.

Definition liftSum {A} (r : error + A) : M A :=
  match r with inr a => ret a | inl e => fail e end.

(** Allocation of a new object on the Go heap of blocks. *)
Definition newBlockObj (b : Block) : M loc :=
  fun w =>
    let l := fresh (dom (blocks w)) in
    (Ok l, setBlocks <[l := b]> w).

Definition readBlock (l : loc) : M Block :=
  fun w => match blocks w !! l with
           | Some b => (Ok b, w)
           | None => (Panic, w)
           end.

Definition readFileBlock (l : loc) : M FileBlock :=
  let* b := readBlock l in
  match b with BlockFile fb => ret fb | _ => panic end.

Definition writeFileBlock (l : loc) (fb : FileBlock) : M unit :=
  modify (setBlocks <[l := BlockFile fb]>).

(** *** The dirty-file tracker *)

(** Modelled from the spec (section 4.2).  [setBlockDirty] marks the
    pointer dirty and reports whether the pointer is new to the tracker
    and whether any pointer of the file is syncing. *)
Definition anySyncing (df : dirtyFile) : bool :=
  bool_decide (∃ p t, fileBlockStates df !! p = Some t ∧ sync t = Syncing).

Definition setStates (f : gmap BlockPointer blockTrack
                          → gmap BlockPointer blockTrack)
    (df : dirtyFile) : dirtyFile :=
  mkDirtyFile (f (fileBlockStates df)) (notYetSyncingBytes df)
    (deferredNewBytes df) (errListeners df) (notified df).

Definition setBlockDirty (ptr : BlockPointer) (df : dirtyFile)
  : bool * bool * dirtyFile :=
  let needsCaching := bool_decide (fileBlockStates df !! ptr = None) in
  let isSyncing := anySyncing df in
  let orph := from_option orphaned false (fileBlockStates df !! ptr) in
  (needsCaching, isSyncing,
   setStates <[ptr := mkBlockTrack Dirty orph]> df).

Definition setBlockNotDirty (ptr : BlockPointer) (df : dirtyFile)
  : dirtyFile := setStates (delete ptr) df.

Definition blockNeedsCopy (ptr : BlockPointer) (df : dirtyFile) : bool :=
  bool_decide (sync <$> fileBlockStates df !! ptr = Some Syncing).

Definition isBlockSyncing (ptr : BlockPointer) (df : dirtyFile) : bool :=
  bool_decide (sync <$> fileBlockStates df !! ptr = Some Syncing).

(** A syncing block is dirty and being uploaded (glossary). *)
Definition isBlockDirty (ptr : BlockPointer) (df : dirtyFile) : bool :=
  match sync <$> fileBlockStates df !! ptr with
  | Some Dirty | Some Syncing => true
  | _ => false
  end.

Definition setBlockSyncing (ptr : BlockPointer) (df : dirtyFile)
  : error + dirtyFile :=
  match fileBlockStates df !! ptr with
  | Some t => inr (setStates <[ptr := mkBlockTrack Syncing (orphaned t)]> df)
  | None => inl SyncStateError
  end.

Definition setBlockSynced (ptr : BlockPointer) (df : dirtyFile)
  : error + dirtyFile :=
  match fileBlockStates df !! ptr with
  | Some t =>
      if decide (sync t = Syncing)
      then inr (setStates <[ptr := mkBlockTrack Synced (orphaned t)]> df)
      else inl SyncStateError
  | None => inl SyncStateError
  end.

Definition setBlockOrphaned (ptr : BlockPointer) (b : bool) (df : dirtyFile)
  : dirtyFile :=
  setStates (alter (fun t => mkBlockTrack (sync t) b) ptr) df.

Definition resetSyncingBlocksToDirty (df : dirtyFile) : dirtyFile :=
  setStates
    (fmap (fun t => if decide (sync t = Syncing)
                    then mkBlockTrack Dirty (orphaned t) else t)) df.

Definition addDeferredNewBytes (n : Z) (df : dirtyFile) : dirtyFile :=
  mkDirtyFile (fileBlockStates df) (notYetSyncingBytes df)
    (deferredNewBytes df + n) (errListeners df) (notified df).

Definition addErrListener (ch : nat) (df : dirtyFile) : dirtyFile :=
  mkDirtyFile (fileBlockStates df) (notYetSyncingBytes df)
    (deferredNewBytes df) (errListeners df ++ [ch]) (notified df).

Definition dfNotifyErrListeners (e : error) (df : dirtyFile) : dirtyFile :=
  mkDirtyFile (fileBlockStates df) (notYetSyncingBytes df)
    (deferredNewBytes df) (errListeners df)
    (notified df ++ ((fun ch => (ch, e)) <$> errListeners df)).

(** [finishSync] asserts that every block is synced or orphaned. *)
Definition finishSync (df : dirtyFile) : option error :=
  if bool_decide
       (map_Forall (fun _ t => sync t = Synced ∨ orphaned t = true)
          (fileBlockStates df))
  then None else Some SyncStateError.

(** *** The caches *)

(** Modelled from the spec (section 4.1): the dirty-block cache is keyed by
    pointer and branch; with admission control respected [Put] does not
    fail.  [UpdateUnsyncedBytes] adds the delta to the unsynced bytes. *)
Definition IsDirty (ptr : BlockPointer) (branch : string) (w : World) : bool :=
  bool_decide (is_Some (dirtyBcache w !! (ptr, branch))).

Definition dirtyGet (ptr : BlockPointer) (branch : string) : M loc :=
  fun w => match dirtyBcache w !! (ptr, branch) with
           | Some l => (Ok l, w)
           | None => (Err NoSuchBlockError, w)
           end.

Definition dirtyPut (ptr : BlockPointer) (branch : string) (l : loc)
  : M unit := modify (setDirtyBcache <[(ptr, branch) := l]>).

Definition dirtyDelete (ptr : BlockPointer) (branch : string) : M unit :=
  modify (setDirtyBcache (delete (ptr, branch))).

Definition UpdateUnsyncedBytes (delta : Z) (waiting : bool) : M unit :=
  modify (setUnsyncedBytes (fun n => n + delta)).

Definition ShouldForceSync (cfg : Config) (w : World) : bool :=
  syncHighWaterMark cfg <? totalBytes w.

(** Modelled from the spec (section 6): the clean block cache; the flag
    tells a permanent entry from a transient one; [DeletePermanent] hands
    the entries of the ID back to transient retention. *)
Definition bcacheGet (ptr : BlockPointer) : M loc :=
  fun w => match bcache w !! ptr with
           | Some (l, _) => (Ok l, w)
           | None => (Err NoSuchBlockError, w)
           end.

Definition bcachePut (ptr : BlockPointer) (l : loc) (permanent : bool)
  : M unit := modify (setBcache <[ptr := (l, permanent)]>).

Definition DeletePermanent (id : N) : M unit :=
  modify (setBcache
            (map_imap (fun p (e : loc * bool) =>
                         Some (if decide (ID p = id) then (e.1, false)
                               else e)))).

(** The tracker's [updateNotYetSyncingBytes] keeps the cache's unsynced
    bytes in step with its own ledger. *)
Definition updateNotYetSyncingBytes (tail : BlockPointer) (delta : Z)
  : M unit :=
  let* _ := modify (setDirtyFiles
              (alter (fun df =>
                        mkDirtyFile (fileBlockStates df)
                          (notYetSyncingBytes df + delta)
                          (deferredNewBytes df) (errListeners df)
                          (notified df)) tail)) in
  UpdateUnsyncedBytes delta false.

(** *** Fetching blocks *)

Inductive blockReqType := blockRead | blockWrite.

Section Ops.
Variable cfg : Config.

Definition getBlockFromDirtyOrCleanCache (ptr : BlockPointer)
    (branch : string) : M loc :=
  let* r := try (dirtyGet ptr branch) in
  match r with
  | inr l => ret l
  | inl _ => bcacheGet ptr
  end.

(** [getBlockHelperLocked]; the block read from the server is a new
    object, cached as a transient entry when [doCache]. *)
Definition getBlockHelperLocked (ctx : Context) (md : RootMetadata)
    (ptr : BlockPointer) (branch : string) (doCache : bool) : M loc :=
  if negb (ptrIsValid ptr) then fail InvalidBlockRefError else
  let* r := try (getBlockFromDirtyOrCleanCache ptr branch) in
  match r with
  | inr l => ret l
  | inl _ =>
      let* b := liftSum (bopsGet cfg ctx ptr) in
      let* l := newBlockObj b in
      let* _ := (if doCache then bcachePut ptr l false else ret tt) in
      ret l
  end.

Definition getFileBlockHelperLocked (ctx : Context) (md : RootMetadata)
    (ptr : BlockPointer) (branch : string) : M loc :=
  let* l := getBlockHelperLocked ctx md ptr branch true in
  let* b := readBlock l in
  match b with
  | BlockFile _ => ret l
  | _ => fail NotFileBlockError
  end.

Definition getDirBlockHelperLocked (ctx : Context) (md : RootMetadata)
    (ptr : BlockPointer) (branch : string) : M loc :=
  let* l := getBlockHelperLocked ctx md ptr branch true in
  let* b := readBlock l in
  match b with
  | BlockDir _ => ret l
  | _ => fail NotDirBlockError
  end.

(** [DeepCopy] of a block: a new object with the same contents. *)
Definition DeepCopy (l : loc) : M loc :=
  let* b := readBlock l in newBlockObj b.

Definition getFileBlockLocked (ctx : Context) (md : RootMetadata)
    (ptr : BlockPointer) (file : Path) (rtype : blockReqType) : M loc :=
  if negb (pathIsValid file) then fail InvalidPathError else
  let* fblock := getFileBlockHelperLocked ctx md ptr (Branch file) in
  match rtype with
  | blockRead => ret fblock
  | blockWrite =>
      let* tail := liftOpt (TailPointer file) in
      let* df := gets (fun w => dirtyFiles w !! tail) in
      let* dirty := gets (IsDirty ptr (Branch file)) in
      if negb dirty || from_option (blockNeedsCopy ptr) false df
      then DeepCopy fblock
      else ret fblock
  end.

Definition getFileLocked (ctx : Context) (md : RootMetadata) (file : Path)
    (rtype : blockReqType) : M loc :=
  let* tail := liftOpt (TailPointer file) in
  getFileBlockLocked ctx md tail file rtype.

Definition getDirLocked (ctx : Context) (md : RootMetadata) (dir : Path)
    (rtype : blockReqType) : M loc :=
  if negb (pathIsValid dir) then fail InvalidPathError else
  let* tail := liftOpt (TailPointer dir) in
  let* dblock := getDirBlockHelperLocked ctx md tail (Branch dir) in
  let* dirty := gets (IsDirty tail (Branch dir)) in
  match rtype with
  | blockWrite => if negb dirty then DeepCopy dblock else ret dblock
  | blockRead => ret dblock
  end.

(** The search of [getFileBlockAtOffsetLocked] through the indirect
    pointers: [dflt] is [len(block.IPtrs) - 1]. *)
Fixpoint searchIPtrs (iptrs : list IndirectFilePtr) (off : Z) (i : Z)
    (dflt : Z) : Z :=
  match iptrs with
  | [] => dflt
  | p :: rest =>
      if Off p =? off then i
      else if off <? Off p then i - 1
      else searchIPtrs rest off (i + 1) dflt
  end.

(** Indexing a slice; out of range panics in Go ([None]). *)
Definition at_ {A} (l : list A) (i : Z) : option A :=
  if i <? 0 then None else l !! Z.to_nat i.

(** The results of [getFileBlockAtOffsetLocked]. *)
Record blockAtOffset := mkBlockAtOffset {
  foundPtr : BlockPointer;
  parentBlock : option loc;
  indexInParent : Z;
  foundBlock : loc;
  nextBlockStartOff : Z;
  startOff : Z
}.

(** The loop [for block.IsInd]; the fuel bounds the depth of the
    descent. *)
Fixpoint getFileBlockAtOffsetLoop (fuel : nat) (ctx : Context)
    (md : RootMetadata) (file : Path) (off : Z) (rtype : blockReqType)
    (r : blockAtOffset) : M blockAtOffset :=
  let* block := readFileBlock (foundBlock r) in
  if negb (IsInd block) then ret r else
  match fuel with
  | O => outOfFuel
  | S fuel' =>
      let len := Z.of_nat (length (IPtrs block)) in
      let nextIndex := searchIPtrs (IPtrs block) off 0 (len - 1) in
      let* nextPtr := liftOpt (at_ (IPtrs block) nextIndex) in
      let* next :=
        (if nextIndex =? len - 1 then ret (nextBlockStartOff r)
         else let* p := liftOpt (at_ (IPtrs block) (nextIndex + 1)) in
              ret (Off p)) in
      let ptr := infoPtr (ptrInfo nextPtr) in
      let* b := getFileBlockLocked ctx md ptr file rtype in
      getFileBlockAtOffsetLoop fuel' ctx md file off rtype
        (mkBlockAtOffset ptr (Some (foundBlock r)) nextIndex b next
           (Off nextPtr))
  end.

Definition getFileBlockAtOffsetLocked (fuel : nat) (ctx : Context)
    (md : RootMetadata) (file : Path) (topBlock : loc) (off : Z)
    (rtype : blockReqType) : M blockAtOffset :=
  let* tail := liftOpt (TailPointer file) in
  getFileBlockAtOffsetLoop fuel ctx md file off rtype
    (mkBlockAtOffset tail None 0 topBlock (-1) 0).

(** *** Read *)

(** The amount that the read timeout is smaller than the global one
    (nanoseconds). *)
Definition readTimeoutSmallerBy : Z := 2 * 1000000000.

(** The context that [Read] uses for its block fetches:
    [context.WithTimeout(ctx, rem)] ends at [now + rem] or at the
    deadline of [ctx], whichever is first. *)
Definition readContext (ctx : Context) : Context :=
  match deadline ctx with
  | Some d =>
      let rem := d - timeNow cfg - readTimeoutSmallerBy in
      if 0 <? rem then mkContext (Some (Z.min d (timeNow cfg + rem)))
      else ctx
  | None => ctx
  end.

(** [copy(dest[start:], src)] for a source that fits. *)
Definition sliceSet (dest : list byte) (start : Z) (src : list byte)
  : list byte :=
  take (Z.to_nat start) dest ++ src
    ++ drop (Z.to_nat start + length src) dest.

(** [s[from:to]]; out of range panics in Go ([None]). *)
Definition slice (s : list byte) (from to : Z) : option (list byte) :=
  if (from <? 0) || (to <? from) || (Z.of_nat (length s) <? to) then None
  else Some (take (Z.to_nat (to - from)) (drop (Z.to_nat from) s)).

(** One result of [Read]: the count, the error, and the buffer. *)
Definition readResult : Type := Z * option error * list byte.

(** The loop [for nRead < n] of [Read]; [depth] is the fuel of each
    descent. *)
Fixpoint readLoop (fuel depth : nat) (ctx : Context) (md : RootMetadata)
    (file : Path) (fblock : loc) (off n nRead : Z) (dest : list byte)
  : M readResult :=
  if negb (nRead <? n) then ret (n, None, dest) else
  match fuel with
  | O => outOfFuel
  | S fuel' =>
      let nextByte := wrapS64 (nRead + off) in
      let toRead := n - nRead in
      let* r := try (getFileBlockAtOffsetLocked depth ctx md file fblock
                       nextByte blockRead) in
      match r with
      | inl err =>
          if bool_decide (err = DeadlineExceeded) && (0 <? nRead)
          then ret (nRead, None, dest)
          else ret (0, Some err, dest)
      | inr r =>
          let* block := readFileBlock (foundBlock r) in
          let blockLen := Z.of_nat (length (Contents block)) in
          let lastByteInBlock := wrapS64 (startOff r + blockLen) in
          if lastByteInBlock <=? nextByte then
            if 0 <? nextBlockStartOff r then
              let fill := wrapS64 (nextBlockStartOff r - nextByte) in
              let fill := if toRead <? fill then toRead else fill in
              if fill <=? 0 then ret (nRead, Some BadSplitError, dest)
              else
                readLoop fuel' depth ctx md file fblock off n
                  (nRead + fill)
                  (sliceSet dest nRead (replicate (Z.to_nat fill) Byte.x00))
            else ret (nRead, None, dest)
          else
            let toRead :=
              if wrapS64 (lastByteInBlock - nextByte) <? toRead
              then wrapS64 (lastByteInBlock - nextByte) else toRead in
            let firstByteToRead := wrapS64 (nextByte - startOff r) in
            let* src := liftOpt (slice (Contents block) firstByteToRead
                                   (toRead + firstByteToRead)) in
            readLoop fuel' depth ctx md file fblock off n (nRead + toRead)
              (sliceSet dest nRead src)
      end
  end.

(** [Read]: every turn of the loop reads at least one byte, so
    [len(dest)] turns are enough. *)
Definition Read (depth : nat) (ctx : Context) (md : RootMetadata)
    (file : Path) (dest : list byte) (off : Z) : M readResult :=
  let* r := try (getFileLocked ctx md file blockRead) in
  match r with
  | inl err => ret (0, Some err, dest)
  | inr fblock =>
      readLoop (length dest) depth (readContext ctx) md file fblock off
        (Z.of_nat (length dest)) 0 dest
  end.

(** *** Dirty directory entries *)

Definition readDirBlock (l : loc) : M DirBlock :=
  let* b := readBlock l in
  match b with BlockDir db => ret db | _ => panic end.

Definition deRef (de : DirEntry) : BlockRef := ref (infoPtr (entryInfo de)).

Definition updateWithDirtyEntriesLocked (block : loc) : M loc :=
  let* dec := gets deCache in
  if bool_decide (dec = ∅) then ret block else
  let* db := readDirBlock block in
  if bool_decide (map_Forall (fun _ v => dec !! deRef v = None) (Children db))
  then ret block
  else
    newBlockObj
      (BlockDir (mkDirBlock
         ((fun v => default v (dec !! deRef v)) <$> Children db))).

Definition getDirtyDirLocked (ctx : Context) (md : RootMetadata)
    (dir : Path) (rtype : blockReqType) : M loc :=
  let* dblock := getDirLocked ctx md dir rtype in
  updateWithDirtyEntriesLocked dblock.

Definition getDirtyParentAndEntryLocked (ctx : Context) (md : RootMetadata)
    (file : Path) (rtype : blockReqType) : M (loc * DirEntry) :=
  if negb (HasValidParent file) then fail InvalidParentPathError else
  let* parentPath := liftOpt (ParentPath file) in
  let* dblock := getDirtyDirLocked ctx md parentPath rtype in
  let* name := liftOpt (TailName file) in
  let* db := readDirBlock dblock in
  match Children db !! name with
  | Some de => ret (dblock, de)
  | None => fail NoSuchNameError
  end.

Definition getDirtyEntryLocked (ctx : Context) (md : RootMetadata)
    (file : Path) : M DirEntry :=
  let* (_, de) := getDirtyParentAndEntryLocked ctx md file blockRead in
  ret de.

(** *** Dirtying blocks *)

(** [getOrCreateDirtyFileLocked]; the tracker is named by the tail
    pointer under which [dirtyFiles] holds it. *)
Definition getOrCreateDirtyFileLocked (file : Path) : M BlockPointer :=
  let* ptr := liftOpt (TailPointer file) in
  let* df := gets (fun w => dirtyFiles w !! ptr) in
  let* _ := (match df with
             | Some _ => ret tt
             | None => modify (setDirtyFiles <[ptr := newDirtyFile]>)
             end) in
  ret ptr.

Definition cacheBlockIfNotYetDirtyLocked (ptr : BlockPointer) (file : Path)
    (block : loc) : M unit :=
  let* tail := getOrCreateDirtyFileLocked file in
  let* df := gets (fun w => dirtyFiles w !! tail) in
  let* df := liftOpt df in
  let '(needsCaching, isSyncing, df') := setBlockDirty ptr df in
  let* _ := modify (setDirtyFiles <[tail := df']>) in
  let* _ := (if needsCaching then dirtyPut ptr (Branch file) block
             else ret tt) in
  if isSyncing then modify (setDoDeferWrite true) else ret tt.

Definition makeTemporaryBlockID : M N :=
  let* n := gets tempIDCalls in
  let* _ := modify (setTempIDCalls (S n)) in
  liftSum (MakeTemporaryBlockID cfg n).

Definition getCurrentUserInfo : M (string * N) :=
  liftSum (GetCurrentUserInfo cfg).

Definition ZeroBlockRefNonce : N := 0.

Definition newRightBlockLocked (ctx : Context) (ptr : BlockPointer)
    (file : Path) (pblock : loc) (off : Z) (md : RootMetadata) : M unit :=
  let* newRID := makeTemporaryBlockID in
  let* (_, uid) := getCurrentUserInfo in
  let* rblock := newBlockObj (BlockFile (mkFileBlock false [] [])) in
  let newPtr :=
    mkBlockPointer newRID (LatestKeyGeneration md)
      (DefaultNewBlockDataVersion cfg false) uid ZeroBlockRefNonce in
  let* pb := readFileBlock pblock in
  let* _ := writeFileBlock pblock
    (mkFileBlock (IsInd pb)
       (IPtrs pb ++ [mkIndirectFilePtr (mkBlockInfo newPtr 0) off false])
       (Contents pb)) in
  let* _ := cacheBlockIfNotYetDirtyLocked newPtr file rblock in
  cacheBlockIfNotYetDirtyLocked ptr file pblock.

(** [getOrCreateSyncInfoLocked]: the location of the [syncInfo]. *)
Definition getOrCreateSyncInfoLocked (de : DirEntry) : M loc :=
  let r := deRef de in
  let* si := gets (fun w => unrefCache w !! r) in
  match si with
  | Some l => ret l
  | None =>
      let* l := gets (fun w => fresh (dom (syncInfos w))) in
      let* _ := modify (setSyncInfos
        <[l := mkSyncInfo (entryInfo de) (newSyncOp (infoPtr (entryInfo de)))
                 [] None 0 0]>) in
      let* _ := modify (setUnrefCache <[r := l]>) in
      ret l
  end.

Definition readSyncInfo (l : loc) : M syncInfo :=
  let* si := gets (fun w => syncInfos w !! l) in liftOpt si.

Definition addUnrefs (l : loc) (infos : list BlockInfo) : M unit :=
  modify (setSyncInfos
    (alter (fun si => mkSyncInfo (oldInfo si) (op si) (unrefs si ++ infos)
                        (bps si) (refBytes si) (unrefBytes si)) l)).

(** Modelled from the spec: [addWrite] and [addTruncate] record the range
    in the sync operation and return it. *)
Definition addRange (l : loc) (r : WriteRange) : M WriteRange :=
  let* _ := modify (setSyncInfos
    (alter (fun si =>
              mkSyncInfo (oldInfo si)
                (mkSyncOp (opFile (op si)) (Writes (op si) ++ [r])
                   (opRefs (op si)))
                (unrefs si) (bps si) (refBytes si) (unrefBytes si)) l)) in
  ret r.

Definition addTruncate (l : loc) (size : Z) : M WriteRange :=
  addRange l (mkWriteRange size 0).

Definition addWrite (l : loc) (off len : Z) : M WriteRange :=
  addRange l (mkWriteRange off len).

(** The non-blocking send on [forceSyncChan] when the cache asks for a
    sync. *)
Definition maybeForceSync : M unit :=
  let* force := gets (ShouldForceSync cfg) in
  if force then modify (setForceSyncSent true) else ret tt.

Definition writeGetFileLocked (ctx : Context) (md : RootMetadata)
    (file : Path) : M (loc * N) :=
  let* (_, uid) := getCurrentUserInfo in
  if negb (IsWriter md uid) then fail WriteAccessError else
  let* fblock := getFileLocked ctx md file blockWrite in
  ret (fblock, uid).

Definition createIndirectBlockLocked (md : RootMetadata) (file : Path)
    (uid : N) (dver : Z) : M loc :=
  let* newID := makeTemporaryBlockID in
  let* fblock := newBlockObj (BlockFile (mkFileBlock true
    [mkIndirectFilePtr
       (mkBlockInfo
          (mkBlockPointer newID (LatestKeyGeneration md) dver uid
             ZeroBlockRefNonce) 0) 0 false] [])) in
  let* tail := getOrCreateDirtyFileLocked file in
  let* _ := modify (setDirtyFiles (alter (setBlockNotDirty tail) tail)) in
  let* _ := cacheBlockIfNotYetDirtyLocked tail file fblock in
  ret fblock.

(** Conversions between [uint64] and [int64]. *)
Definition toInt64 (u : Z) : Z := wrapS64 u.
Definition toUint64 (i : Z) : Z := i mod 2 ^ 64.

Definition setHoles (p : IndirectFilePtr) : IndirectFilePtr :=
  mkIndirectFilePtr (ptrInfo p) (Off p) true.

Definition setEncodedSize0 (p : IndirectFilePtr) : IndirectFilePtr :=
  mkIndirectFilePtr (mkBlockInfo (infoPtr (ptrInfo p)) 0) (Off p) (Holes p).

Definition setEntry (de : DirEntry) (size : Z) : DirEntry :=
  mkDirEntry (mkBlockInfo (infoPtr (entryInfo de)) 0) (entryType de) size
    (Mtime de) (Ctime de).

(** *** Truncate *)

(** [truncateExtendLocked]: extends the file with a hole. *)
Definition truncateExtendLocked (ctx : Context) (md : RootMetadata)
    (file : Path) (size : Z) : M (WriteRange * list BlockPointer) :=
  if MaxFileBytes cfg <? size then fail FileTooBigError else
  let* (fblock, uid) := writeGetFileLocked ctx md file in
  let* tail := liftOpt (TailPointer file) in
  let* fb := readFileBlock fblock in
  let* (fblock, dirtyPtrs) :=
    (if negb (IsInd fb) then
       let old := fblock in
       let* fblock := createIndirectBlockLocked md file uid
                        (DefaultNewBlockDataVersion cfg true) in
       let* fb := readFileBlock fblock in
       let* p0 := liftOpt (at_ (IPtrs fb) 0) in
       let* _ := writeFileBlock fblock
         (mkFileBlock (IsInd fb) (<[0%nat := setHoles p0]> (IPtrs fb))
            (Contents fb)) in
       let* _ := cacheBlockIfNotYetDirtyLocked (infoPtr (ptrInfo p0)) file
                   old in
       ret (fblock, [infoPtr (ptrInfo p0)])
     else ret (fblock, [])) in
  let* _ := newRightBlockLocked ctx tail file fblock (toInt64 size) md in
  let* fb := readFileBlock fblock in
  let* lastPtr := liftOpt (last (IPtrs fb)) in
  let dirtyPtrs := dirtyPtrs ++ [infoPtr (ptrInfo lastPtr)] in
  let* de := getDirtyEntryLocked ctx md file in
  let* si := getOrCreateSyncInfoLocked de in
  let* _ := modify (setDeCache <[ref tail := setEntry de size]>) in
  let* fb := readFileBlock fblock in
  let* _ := writeFileBlock fblock
    (mkFileBlock (IsInd fb) (setHoles <$> IPtrs fb) (Contents fb)) in
  let* _ := cacheBlockIfNotYetDirtyLocked tail file fblock in
  let dirtyPtrs := dirtyPtrs ++ [tail] in
  let* latestWrite := addTruncate si size in
  let* _ := maybeForceSync in
  ret (latestWrite, dirtyPtrs).

(** The amount of data in an extending truncate that triggers the
    extension with a hole. *)
Definition truncateExtendCutoffPoint : Z := 128 * 1024.

(** [writeDataLocked] is taken as it comes: the statements below hold for
    whatever it does. *)
Variable writeDataLocked :
  Context → RootMetadata → Path → list byte → Z
  → M (WriteRange * list BlockPointer * Z).

(** [truncateLocked]; the error of [getFileBlockAtOffsetLocked] is not
    looked at, and the block it leaves is [nil]: the next line panics. *)
Definition truncateLocked (depth : nat) (ctx : Context) (md : RootMetadata)
    (file : Path) (size : Z)
  : M (option WriteRange * list BlockPointer * Z) :=
  let* (fblock, _) := writeGetFileLocked ctx md file in
  let* tail := liftOpt (TailPointer file) in
  let iSize := toInt64 size in
  let* r := try (getFileBlockAtOffsetLocked depth ctx md file fblock iSize
                   blockWrite) in
  let* r := (match r with inr r => ret r | inl _ => panic end) in
  let* block := readFileBlock (foundBlock r) in
  let currLen := wrapS64 (startOff r + Z.of_nat (length (Contents block))) in
  if wrapS64 (currLen + truncateExtendCutoffPoint) <? iSize then
    let* (latestWrite, dirtyPtrs) :=
      truncateExtendLocked ctx md file (toUint64 iSize) in
    ret (Some latestWrite, dirtyPtrs, 0)
  else if currLen <? iSize then
    let moreNeeded := wrapS64 (iSize - currLen) in
    if moreNeeded <? 0 then panic else
    let* (latestWrite, dirtyPtrs, newlyDirtiedChildBytes) :=
      writeDataLocked ctx md file (replicate (Z.to_nat moreNeeded) Byte.x00)
        currLen in
    ret (Some latestWrite, dirtyPtrs, newlyDirtiedChildBytes)
  else if (currLen =? iSize) && (nextBlockStartOff r <? 0) then
    ret (None, [], 0)
  else
  let* de := getDirtyEntryLocked ctx md file in
  let oldLen := Z.of_nat (length (Contents block)) in
  let* wasDirty := gets (IsDirty (foundPtr r) (Branch file)) in
  let* contents := liftOpt (slice (Contents block) 0
                              (wrapS64 (iSize - startOff r))) in
  let* _ := writeFileBlock (foundBlock r)
              (mkFileBlock (IsInd block) (IPtrs block) contents) in
  let newlyDirtiedChildBytes :=
    Z.of_nat (length contents) - (if wasDirty then oldLen else 0) in
  let* dfTail := getOrCreateDirtyFileLocked file in
  let* _ := updateNotYetSyncingBytes dfTail newlyDirtiedChildBytes in
  let* si := getOrCreateSyncInfoLocked de in
  let* _ :=
    (if 0 <? nextBlockStartOff r then
       let* parent := liftOpt (parentBlock r) in
       let* pb := readFileBlock parent in
       let keep := Z.to_nat (indexInParent r + 1) in
       let* _ := addUnrefs si (ptrInfo <$> drop keep (IPtrs pb)) in
       let* _ := writeFileBlock parent
         (mkFileBlock (IsInd pb) (take keep (IPtrs pb)) (Contents pb)) in
       cacheBlockIfNotYetDirtyLocked tail file parent
     else ret tt) in
  let* fb := readFileBlock fblock in
  let* _ := (if IsInd fb then cacheBlockIfNotYetDirtyLocked tail file fblock
             else ret tt) in
  let* _ :=
    (match parentBlock r with
     | Some parent =>
         let* pb := readFileBlock parent in
         let* p := liftOpt (at_ (IPtrs pb) (indexInParent r)) in
         let* _ := addUnrefs si [ptrInfo p] in
         writeFileBlock parent
           (mkFileBlock (IsInd pb)
              (<[Z.to_nat (indexInParent r) := setEncodedSize0 p]> (IPtrs pb))
              (Contents pb))
     | None => ret tt
     end) in
  let* latestWrite := addTruncate si size in
  let* _ := modify (setDeCache <[ref tail := setEntry de size]>) in
  let* _ := cacheBlockIfNotYetDirtyLocked (foundPtr r) file (foundBlock r) in
  ret (Some latestWrite, [], newlyDirtiedChildBytes).

(** *** Write and Truncate *)

(** Parts of the environment of [Write] and [Truncate]: the admission
    control of the dirty-block cache (it returns the permit channel), the
    wait for the permit or for an error of the file's sync, and the node
    cache. *)
Variable RequestPermissionToDirty : Context → Z → M nat.
Variable maybeWaitOnDeferredWrites : Context → nat → nat → M unit.
Variable PathFromNode : nat → Path.

Definition pathFromNodeForBlockWriteLocked (n : nat) : M Path :=
  let p := PathFromNode n in
  if negb (pathIsValid p) then fail InvalidPathError else ret p.

(** The part of [Write] that runs under the deferred
    [UpdateUnsyncedBytes]; [c] is the permit channel. *)
Definition writeAdmitted (ctx : Context) (md : RootMetadata) (file : nat)
    (data : list byte) (off : Z) (c : nat) : M unit :=
  let* _ := maybeWaitOnDeferredWrites ctx file c in
  let* filePath := pathFromNodeForBlockWriteLocked file in
  withDefer (modify (setDoDeferWrite false)) (
    let* (latestWrite, dirtyPtrs, newlyDirtiedChildBytes) :=
      writeDataLocked ctx md filePath data off in
    let* defer := gets doDeferWrite in
    if defer then
      let* _ := modify (setDeferredDirtyDeletes
                          (fun l => l ++ dirtyPtrs)) in
      modify (setDeferredWrites
                (fun l => l ++ [DeferredWrite filePath data off
                                  newlyDirtiedChildBytes]))
    else ret tt).

Definition Write (ctx : Context) (md : RootMetadata) (file : nat)
    (data : list byte) (off : Z) : M unit :=
  let* c := RequestPermissionToDirty ctx (Z.of_nat (length data)) in
  withDefer (UpdateUnsyncedBytes (- Z.of_nat (length data)) false)
    (writeAdmitted ctx md file data off c).

(** The part of [Truncate] that runs under the deferred
    [UpdateUnsyncedBytes]. *)
Definition truncateAdmitted (depth : nat) (ctx : Context)
    (md : RootMetadata) (file : nat) (size : Z) (c : nat) : M unit :=
  let* _ := maybeWaitOnDeferredWrites ctx file c in
  let* filePath := pathFromNodeForBlockWriteLocked file in
  withDefer (modify (setDoDeferWrite false)) (
    let* (latestWrite, dirtyPtrs, newlyDirtiedChildBytes) :=
      truncateLocked depth ctx md filePath size in
    let* defer := gets doDeferWrite in
    if defer then
      let* _ := modify (setDeferredDirtyDeletes
                          (fun l => l ++ dirtyPtrs)) in
      modify (setDeferredWrites
                (fun l => l ++ [DeferredTruncate filePath size
                                  newlyDirtiedChildBytes]))
    else ret tt).

Definition Truncate (depth : nat) (ctx : Context) (md : RootMetadata)
    (file : nat) (size : Z) : M unit :=
  let* c := RequestPermissionToDirty ctx (toInt64 size) in
  withDefer (UpdateUnsyncedBytes (wrapS64 (- toInt64 size)) false)
    (truncateAdmitted depth ctx md file size c).

(** *** Sync: finishing and cleaning up *)

Definition clearCacheInfoLocked (file : Path) : M unit :=
  let* tail := liftOpt (TailPointer file) in
  let* _ := modify (setDeCache (delete (ref tail))) in
  let* _ := modify (setUnrefCache (delete (ref tail))) in
  let* df := gets (fun w => dirtyFiles w !! tail) in
  match df with
  | Some df =>
      match finishSync df with
      | Some err => fail err
      | None => modify (setDirtyFiles (delete tail))
      end
  | None => ret tt
  end.

(** [fileSyncState]; the pointers are locations, [None] for [nil]. *)
Record fileSyncState := mkFileSyncState {
  ssFblock : option loc;
  savedFblock : option loc;
  redirtyOnRecoverableError : gmap BlockPointer BlockPointer;
  ssSi : option loc;
  savedSi : option loc;
  oldFileBlockPtrs : list BlockPointer;
  newIndirectFileBlockPtrs : list BlockPointer
}.

(** The last statements of [startSyncWriteLocked]: the top block is set
    syncing and its pointer joins [oldFileBlockPtrs]. *)
Definition startSyncFinish (file : Path) (syncState : fileSyncState)
  : M fileSyncState :=
  let* tail := getOrCreateDirtyFileLocked file in
  let* df := gets (fun w => dirtyFiles w !! tail) in
  let* df := liftOpt df in
  let* df' := liftSum (setBlockSyncing tail df) in
  let* _ := modify (setDirtyFiles <[tail := df']>) in
  ret (mkFileSyncState (ssFblock syncState) (savedFblock syncState)
         (redirtyOnRecoverableError syncState) (ssSi syncState)
         (savedSi syncState) (oldFileBlockPtrs syncState ++ [tail])
         (newIndirectFileBlockPtrs syncState)).

(** Running a deferred write or truncate under the new path. *)
Definition replay (depth : nat) (ctx : Context) (rmd : RootMetadata)
    (f : Path) (d : DeferredOp) : M unit :=
  match d with
  | DeferredWrite filePath dataCopy off newlyDirtiedChildBytes =>
      let* df := getOrCreateDirtyFileLocked filePath in
      let* _ := updateNotYetSyncingBytes df (- newlyDirtiedChildBytes) in
      let* _ := writeDataLocked ctx rmd f dataCopy off in
      ret tt
  | DeferredTruncate filePath size newlyDirtiedChildBytes =>
      let* df := getOrCreateDirtyFileLocked filePath in
      let* _ := updateNotYetSyncingBytes df (- newlyDirtiedChildBytes) in
      let* _ := truncateLocked depth ctx rmd f size in
      ret tt
  end.

(** A loop that returns at the first error. *)
Fixpoint forEach {A} (f : A → M unit) (l : list A) : M unit :=
  match l with
  | [] => ret tt
  | a :: l' => let* _ := f a in forEach f l'
  end.

(** The first part of [FinishSync], up to the replay: the old blocks
    leave the dirty cache, the new ones the permanent entries; the
    deferred deletes and writes are taken and both fields cleared; the
    deferred pointers leave the dirty cache.  The result is the snapshot
    of the writes. *)
Definition finishSyncPrepare (syncState : fileSyncState)
  : M (list DeferredOp) :=
  let* _ := forEach (fun ptr => dirtyDelete ptr (fboBranch cfg))
              (oldFileBlockPtrs syncState) in
  let* _ := forEach (fun ptr => DeletePermanent (ID ptr))
              (newIndirectFileBlockPtrs syncState) in
  let* deletes := gets deferredDirtyDeletes in
  let* writes := gets deferredWrites in
  let* _ := modify (setDeferredDirtyDeletes (fun _ => [])) in
  let* _ := modify (setDeferredWrites (fun _ => [])) in
  let* _ := forEach (fun ptr => dirtyDelete ptr (fboBranch cfg))
              deletes in
  ret writes.

(** [FinishSync]: [(stillDirty, err)]. *)
Definition FinishSync (depth : nat) (ctx : Context) (oldPath newPath : Path)
    (md : RootMetadata) (syncState : fileSyncState)
  : M (bool * option error) :=
  let* r := try (
    let* writes := finishSyncPrepare syncState in
    let stillDirty := negb (Z.of_nat (length writes) =? 0) in
    let* _ := forEach (replay depth ctx md newPath) writes in
    let* _ := clearCacheInfoLocked oldPath in
    ret stillDirty) in
  match r with
  | inr stillDirty => ret (stillDirty, None)
  | inl err => ret (true, Some err)
  end.

(** The deferred operations of a list run one after the other, in the
    order of the list, each without error. *)
Inductive replays (depth : nat) (ctx : Context) (md : RootMetadata)
    (newPath : Path) : list DeferredOp → World → World → Prop :=
| replays_nil w : replays depth ctx md newPath [] w w
| replays_cons d ds w w' w'' :
    replay depth ctx md newPath d w = (Ok tt, w') →
    replays depth ctx md newPath ds w' w'' →
    replays depth ctx md newPath (d :: ds) w w''.

(** [notifyErrListeners] *)
Definition notifyErrListeners (ptr : BlockPointer) (err : error) : M unit :=
  if isRecoverableBlockError cfg err then ret tt
  else modify (setDirtyFiles (alter (dfNotifyErrListeners err) ptr)).

(** [revertSyncInfoAfterRecoverableError]; [si] and [savedSi] are the
    locations of the two [syncInfo] objects. *)
Definition revertSyncInfoAfterRecoverableError
    (blocksToRemove : list BlockPointer) (si savedSi : loc) : M unit :=
  (* *si = *savedSi *)
  let* saved := readSyncInfo savedSi in
  let* _ := modify (setSyncInfos <[si := saved]>) in
  let* siNow := readSyncInfo si in
  match bps siNow with
  | None => ret tt
  | Some siBps =>
      (* si.bps.blockStates = nil *)
      let* _ := modify (setBpss <[siBps := mkBlockPutState []]>) in
      (* for _, bs := range savedSi.bps.blockStates *)
      let* savedNow := readSyncInfo savedSi in
      let* savedBps := liftOpt (bps savedNow) in
      let* states := gets (fun w => bpss w !! savedBps) in
      let* states := liftOpt states in
      forEach
        (fun bs =>
           if bool_decide (blockPtr bs ∈ blocksToRemove) then ret tt
           else
             (* si.bps.blockStates = append(si.bps.blockStates, bs) *)
             modify (setBpss
               (alter (fun b => mkBlockPutState (blockStates b ++ [bs]))
                  siBps)))
        (blockStates states)
  end.

(** [fixChildBlocksAfterRecoverableError]; the map is ranged over in the
    order of [map_to_list]. *)
Definition fixChildBlocksAfterRecoverableError (ctx : Context) (file : Path)
    (redirty : gmap BlockPointer BlockPointer) : M unit :=
  let* tail := liftOpt (TailPointer file) in
  let* _ := modify (setDirtyFiles
    (alter (fun df =>
              foldr (fun oldPtr => setBlockOrphaned oldPtr false) df
                (snd <$> map_to_list redirty)) tail)) in
  let* df := gets (fun w => dirtyFiles w !! tail) in
  match df with
  | None => ret tt
  | Some df =>
      if negb (isBlockDirty tail df) || negb (isBlockSyncing tail df)
      then ret tt else
      let* top := try (dirtyGet tail (fboBranch cfg)) in
      match top with
      | inl _ => ret tt
      | inr fblock =>
          let* b := readBlock fblock in
          match b with
          | BlockFile _ =>
              forEach
                (fun '(newPtr, oldPtr) =>
                   let* fb := readFileBlock fblock in
                   let found :=
                     existsb (fun p => bool_decide (infoPtr (ptrInfo p) = newPtr))
                       (IPtrs fb) in
                   let* _ := writeFileBlock fblock
                     (mkFileBlock (IsInd fb)
                        ((fun p =>
                            if bool_decide (infoPtr (ptrInfo p) = newPtr)
                            then setEncodedSize0 p else p) <$> IPtrs fb)
                        (Contents fb)) in
                   if negb found then ret tt else
                   let* nb := try (bcacheGet newPtr) in
                   match nb with
                   | inl _ => ret tt
                   | inr nb =>
                       let* _ := try (cacheBlockIfNotYetDirtyLocked newPtr
                                        file nb) in
                       dirtyDelete oldPtr (fboBranch cfg)
                   end)
                (map_to_list redirty)
          | _ => ret tt
          end
      end
  end.

(** [CleanupSyncState]; [err] is [None] for [nil]. *)
Definition CleanupSyncState (ctx : Context) (file : Path)
    (blocksToRemove : list BlockPointer) (result : fileSyncState)
    (err : option error) : M unit :=
  match err with
  | None => ret tt
  | Some err =>
      let* tail := liftOpt (TailPointer file) in
      let* _ := notifyErrListeners tail err in
      let* _ :=
        (match ssSi result with
         | Some si =>
             modify (setSyncInfos
               (alter (fun s => mkSyncInfo (oldInfo s)
                                  (resetUpdateState (op s)) (unrefs s)
                                  (bps s) (refBytes s) (unrefBytes s)) si))
         | None => ret tt
         end) in
      let* _ :=
        (if isRecoverableBlockError cfg err then
           let* _ :=
             (match ssSi result with
              | Some si =>
                  let* saved := liftOpt (savedSi result) in
                  revertSyncInfoAfterRecoverableError blocksToRemove si saved
              | None => ret tt
              end) in
           match ssFblock result with
           | Some fblock =>
               let* saved := liftOpt (savedFblock result) in
               let* b := readBlock saved in
               let* _ := modify (setBlocks <[fblock := b]>) in
               fixChildBlocksAfterRecoverableError ctx file
                 (redirtyOnRecoverableError result)
           | None => ret tt
           end
         else ret tt) in
      modify (setDirtyFiles (alter resetSyncingBlocksToDirty tail))
  end.

End Ops.

(** Deleting a list of pointers from the dirty cache, one after the
    other. *)
Definition deleteAll (br : string) (ptrs : list BlockPointer)
    (m : gmap (BlockPointer * string) loc) : gmap (BlockPointer * string) loc :=
  foldl (fun m p => delete (p, br) m) m ptrs.

(** *** Relations between the world before and the world after *)

(** A computation keeps a relation between the world it starts in and the
    world it ends in, whatever it returns. *)
Definition keeps (R : relation World) {A} (m : M A) : Prop :=
  ∀ w, R w (m w).2.

(** The contents that a block may have without any byte being made up:
    none, those of a block of the world [w], or those of a block of the
    server. *)
Definition known (cfg : Config) (w : World) (c : list byte) : Prop :=
  c = [] ∨
  (∃ l fb, blocks w !! l = Some (BlockFile fb) ∧ Contents fb = c) ∨
  (∃ ctx ptr fb, bopsGet cfg ctx ptr = inr (BlockFile fb) ∧ Contents fb = c).

(** No file block of [w'] holds bytes that were made up since [w]. *)
Definition sameData (cfg : Config) (w w' : World) : Prop :=
  ∀ l fb, blocks w' !! l = Some (BlockFile fb) → known cfg w (Contents fb).

(** Moreover the block objects of [w] are untouched. *)
Definition ext (cfg : Config) (w w' : World) : Prop :=
  blocks w ⊆ blocks w' ∧ sameData cfg w w'.

(** The block objects and the dirty directory entries are as they were. *)
Definition frame (w w' : World) : Prop :=
  blocks w' = blocks w ∧ deCache w' = deCache w.

(** *** What a fetch may change *)

(** Everything but the heap of block objects and the clean block cache is
    as it was; these two only grew. *)
Record reads (w w' : World) : Prop := mkReads {
  reads_blocks : blocks w ⊆ blocks w';
  reads_bcache : bcache w ⊆ bcache w';
  reads_syncInfos : syncInfos w' = syncInfos w;
  reads_bpss : bpss w' = bpss w;
  reads_dirtyBcache : dirtyBcache w' = dirtyBcache w;
  reads_unsyncedBytes : unsyncedBytes w' = unsyncedBytes w;
  reads_totalBytes : totalBytes w' = totalBytes w;
  reads_dirtyFiles : dirtyFiles w' = dirtyFiles w;
  reads_unrefCache : unrefCache w' = unrefCache w;
  reads_deCache : deCache w' = deCache w;
  reads_deferredWrites : deferredWrites w' = deferredWrites w;
  reads_deferredDirtyDeletes :
    deferredDirtyDeletes w' = deferredDirtyDeletes w;
  reads_doDeferWrite : doDeferWrite w' = doDeferWrite w;
  reads_tempIDCalls : tempIDCalls w' = tempIDCalls w;
  reads_forceSyncSent : forceSyncSent w' = forceSyncSent w
}.

(** *** A test folder: the root directory holds the file [f] of one byte *)

Definition testConfig : Config :=
  mkConfig (inr ("alice"%string, 1%N)) (fun n => inr (N.of_nat (1000 + n)))
    (fun _ _ => inl NoSuchBlockError) (2 ^ 40)
    (fun holes => if holes then 2 else 1) (2 ^ 30)
    (fun e => bool_decide (e = OtherError 7)) 0 "master"%string.

Definition rootPtr : BlockPointer := mkBlockPointer 1 1 1 1 0.
Definition filePtr : BlockPointer := mkBlockPointer 2 1 1 1 0.

Definition filePath : Path :=
  mkPath 9 "master" [mkPathNode rootPtr "root"; mkPathNode filePtr "f"].

Definition testMD : RootMetadata :=
  mkRootMetadata (fun u => bool_decide (u = 1%N)) 1.

Definition noDeadline : Context := mkContext None.

(** Both blocks are in the clean cache; nothing is dirty. *)
Definition oneByteFile : World :=
  setBcache
    (fun _ => <[rootPtr := (0%nat, false)]> (<[filePtr := (1%nat, false)]> ∅))
    (setBlocks
       (fun _ =>
          <[0%nat := BlockDir (mkDirBlock
              (<["f"%string :=
                   mkDirEntry (mkBlockInfo filePtr 10) File 1 0 0]> ∅))]>
            (<[1%nat := BlockFile (mkFileBlock false [] [Byte.x41])]> ∅))
       emptyWorld).

(** Admission that grants at once, no wait, and the node of the file. *)
Definition grantAtOnce (ctx : Context) (n : Z) : M nat :=
  let* _ := UpdateUnsyncedBytes n false in ret 0%nat.

Definition noWait (ctx : Context) (file c : nat) : M unit := ret tt.

Definition nodeOfFile (n : nat) : Path := filePath.

(** The offsets of the file's top block in the dirty cache, and the size
    in its dirty directory entry. *)
Definition dirtyOffsets (w : World) : option (list Z) :=
  match dirtyBcache w !! (filePtr, "master"%string) with
  | Some l =>
      match blocks w !! l with
      | Some (BlockFile fb) => Some (Off <$> IPtrs fb)
      | _ => None
      end
  | None => None
  end.

Definition dirtySize (w : World) : option Z :=
  Size <$> deCache w !! ref filePtr.

(** A sync of [f] that is being retried: the sync info of the file
    holds the block states of the attempt that just failed ([ptrN 11],
    [ptrN 12], [ptrN 13]); the copy saved when the attempt started holds
    those of the attempt before ([ptrN 11], [ptrN 12]). *)
Definition ptrN (n : nat) : BlockPointer := mkBlockPointer (N.of_nat n) 1 1 1 0.

Definition retriedSync : World :=
  setUnrefCache (fun _ => <[ref filePtr := 0%nat]> ∅)
    (setSyncInfos
       (fun _ =>
          <[0%nat := mkSyncInfo (mkBlockInfo filePtr 10) (newSyncOp filePtr)
                       [] (Some 0%nat) 0 0]>
            (<[1%nat := mkSyncInfo (mkBlockInfo filePtr 10)
                          (newSyncOp filePtr) [] (Some 1%nat) 0 0]> ∅))
       (setBpss
          (fun _ =>
             <[0%nat := mkBlockPutState
                          [mkBlockState (ptrN 11) 11; mkBlockState (ptrN 12) 12;
                           mkBlockState (ptrN 13) 13]]>
               (<[1%nat := mkBlockPutState
                             [mkBlockState (ptrN 11) 11;
                              mkBlockState (ptrN 12) 12]]> ∅))
          oneByteFile)).

Definition retriedSyncState : fileSyncState :=
  mkFileSyncState None None ∅ (Some 0%nat) (Some 1%nat) [] [].

(** The block states of the file's sync info, through [unrefCache]. *)
Definition blockStatesOf (w : World) : option (list blockState) :=
  match unrefCache w !! ref filePtr with
  | Some si =>
      match syncInfos w !! si with
      | Some s =>
          match bps s with
          | Some b => blockStates <$> bpss w !! b
          | None => None
          end
      | None => None
      end
  | None => None
  end.

(** *** A sync of the file with a hole *)

(** A [writeDataLocked] that fails at once. *)
Definition noWriteData (ctx : Context) (md : RootMetadata) (file : Path)
    (data : list byte) (off : Z) : M (WriteRange * list BlockPointer * Z) :=
  fail (OtherError 0).

(** The file after [Truncate(f, 1000000)]. *)
Definition holeFile : World :=
  (Truncate testConfig noWriteData grantAtOnce noWait nodeOfFile 3
     noDeadline testMD 0 1000000 oneByteFile).2.

Definition leaf0 : BlockPointer := mkBlockPointer 1000 1 2 1 0.
Definition leaf1 : BlockPointer := mkBlockPointer 1001 1 1 1 0.

(** The end of [StartSync] on it; the two leaves were readied. *)
Definition syncStarted : result fileSyncState * World :=
  startSyncFinish filePath
    (mkFileSyncState None None ∅ None None [leaf0; leaf1]
       [ptrN 7; ptrN 8]) holeFile.

(** The path of the file after the sync, and its blocks in the clean
    cache. *)
Definition newFilePath : Path :=
  mkPath 9 "master" [mkPathNode (ptrN 5) "root"; mkPathNode (ptrN 6) "f"].

Definition newBlocks : gmap loc Block :=
  <[100%nat := BlockDir (mkDirBlock
      (<["f"%string :=
           mkDirEntry (mkBlockInfo (ptrN 6) 20) File 1000000 0 0]> ∅))]>
  (<[101%nat := BlockFile (mkFileBlock true
       [mkIndirectFilePtr (mkBlockInfo (ptrN 7) 5) 0 true;
        mkIndirectFilePtr (mkBlockInfo (ptrN 8) 5) 1000000 true] [])]>
  (<[102%nat := BlockFile (mkFileBlock false [] [Byte.x41])]>
  (<[103%nat := BlockFile (mkFileBlock false [] [])]> ∅))).

(** The blocks were uploaded (every tracked block is synced), the new
    blocks are cached, and a truncate to 2000000 was deferred meanwhile. *)
Definition uploaded (w : World) : World :=
  setDeferredWrites (fun _ => [DeferredTruncate filePath 2000000 0])
    (setDeferredDirtyDeletes (fun _ => [leaf0])
       (setBcache
          (fun m => <[ptrN 5 := (100%nat, false)]>
                      (<[ptrN 6 := (101%nat, true)]>
                         (<[ptrN 7 := (102%nat, true)]>
                            (<[ptrN 8 := (103%nat, true)]> m))))
          (setBlocks (fun m => newBlocks ∪ m)
             (setDirtyFiles
                (alter (setStates
                          (fmap (fun t => mkBlockTrack Synced (orphaned t))))
                   filePtr) w)))).

(** The sync state and the world in which [FinishSync] runs. *)
Definition syncStateOfHoleFile : fileSyncState :=
  match syncStarted.1 with
  | Ok ss => ss
  | _ => mkFileSyncState None None ∅ None None [] []
  end.

Definition readyToFinish : World := uploaded syncStarted.2.

(** A path whose blocks are nowhere, and a world with two deferred
    truncates. *)
Definition missingPath : Path :=
  mkPath 9 "master" [mkPathNode (ptrN 41) "root"; mkPathNode (ptrN 42) "f"].

Definition twoDeferred : World :=
  setDeferredWrites
    (fun _ => [DeferredTruncate filePath 5 0; DeferredTruncate filePath 7 0])
    (setDeferredDirtyDeletes (fun _ => [leaf0]) holeFile).

(** *** A file of two leaves, the second one on a slow server *)

(** The server needs five seconds: a fetch whose context ends before
    that ends with [DeadlineExceeded]. *)
Definition slowServer : Config :=
  mkConfig (inr ("alice"%string, 1%N)) (fun n => inr (N.of_nat (1000 + n)))
    (fun ctx _ =>
       match deadline ctx with
       | Some d =>
           if d <? 5000000000 then inl DeadlineExceeded
           else inr (BlockFile (mkFileBlock false [] [Byte.x42]))
       | None => inr (BlockFile (mkFileBlock false [] [Byte.x42]))
       end)
    (2 ^ 40) (fun holes => if holes then 2 else 1) (2 ^ 30)
    (fun e => bool_decide (e = OtherError 7)) 0 "master"%string.

(** The first leaf is in the clean cache, the second one is not. *)
Definition twoLeafFile : World :=
  setBcache
    (fun _ => <[rootPtr := (0%nat, false)]>
                (<[filePtr := (1%nat, false)]>
                   (<[ptrN 7 := (2%nat, false)]> ∅)))
    (setBlocks
       (fun _ =>
          <[0%nat := BlockDir (mkDirBlock
              (<["f"%string :=
                   mkDirEntry (mkBlockInfo filePtr 10) File 2 0 0]> ∅))]>
            (<[1%nat := BlockFile (mkFileBlock true
                 [mkIndirectFilePtr (mkBlockInfo (ptrN 7) 5) 0 false;
                  mkIndirectFilePtr (mkBlockInfo (ptrN 8) 5) 1 false] [])]>
               (<[2%nat := BlockFile (mkFileBlock false [] [Byte.x41])]> ∅)))
       emptyWorld).

(** A context that ends in six seconds. *)
Definition in6s : Context := mkContext (Some 6000000000).

(** The file of one byte, extended to 65664 bytes with a hole. *)
Definition sparseFile : World :=
  (truncateExtendLocked testConfig noDeadline testMD filePath 65664
     oneByteFile).2.

(** A [writeDataLocked] that only tells what it was asked to write: it
    fails unless every byte is zero. *)
Definition echoWrite (ctx : Context) (md : RootMetadata) (file : Path)
    (data : list byte) (off : Z) : M (WriteRange * list BlockPointer * Z) :=
  if forallb (fun b => Byte.eqb b Byte.x00) data
  then ret (mkWriteRange off (Z.of_nat (length data)), [], 0)
  else fail (OtherError 1).

(** The world after a run, if the run returned without error. *)
Definition after {A} (r : result A * World) : option World :=
  match r with
  | (Ok _, w) => Some w
  | _ => None
  end.

(** [Truncate(f, 1000000)], then [Truncate(f, 500000)] twice: the three
    worlds, if all three calls return without error. *)
Definition truncateThrice
    (wdl : Context → RootMetadata → Path → list byte → Z
           → M (WriteRange * list BlockPointer * Z))
  : option (World * World * World) :=
  let trunc := Truncate testConfig wdl grantAtOnce noWait nodeOfFile 3
                 noDeadline testMD 0 in
  match after (trunc 1000000 oneByteFile) with
  | Some w1 =>
      match after (trunc 500000 w1) with
      | Some w2 =>
          match after (trunc 500000 w2) with
          | Some w3 => Some (w1, w2, w3)
          | None => None
          end
      | None => None
      end
  | None => None
  end.

(** *** A file of five bytes *)

Definition hello : list byte :=
  [Byte.x68; Byte.x65; Byte.x6c; Byte.x6c; Byte.x6f].

(** Both blocks are in the clean cache; nothing is dirty. *)
Definition fiveByteFile : World :=
  setBcache
    (fun _ => <[rootPtr := (0%nat, false)]> (<[filePtr := (1%nat, false)]> ∅))
    (setBlocks
       (fun _ =>
          <[0%nat := BlockDir (mkDirBlock
              (<["f"%string :=
                   mkDirEntry (mkBlockInfo filePtr 10) File 5 0 0]> ∅))]>
            (<[1%nat := BlockFile (mkFileBlock false [] hello)]> ∅))
       emptyWorld).

(** *** Writing data ([writeDataLocked]) *)

(** [writeDataLocked] has the named result [newlyDirtiedChildBytes]: the
    loop adds to it, and the deferred function reads it when the function
    returns, also after an error or a panic.  The computations of the
    body carry this variable beside the world, and keep it when they
    fail. *)
Definition MW (A : Type) : Type := Z → World → result A * (Z * World).

Definition retW {A} (a : A) : MW A := fun z w => (Ok a, (z, w)).

Definition bindW {A B} (m : MW A) (k : A → MW B) : MW B :=
  fun z w =>
    match m z w with
    | (Ok a, (z', w')) => k a z' w'
    | (Err e, s) => (Err e, s)
    | (Panic, s) => (Panic, s)
    | (OutOfFuel, s) => (OutOfFuel, s)
    end.

Notation "'let+' x ':=' m 'in' k" := (bindW m (fun x => k))
  (at level 10, x pattern, m at level 100, k at level 200, only parsing).

Definition liftW {A} (m : M A) : MW A :=
  fun z w => let '(r, w') := m w in (r, (z, w')).

(** [newlyDirtiedChildBytes += d] *)
Definition addNewlyDirtied (d : Z) : MW unit :=
  fun z w => (Ok tt, (wrapS64 (z + d), w)).

(** A function whose deferred call reads the named result: the body
    starts with the result at 0; the deferred call runs when the body
    returns, fails or panics. *)
Definition withDeferW {A} (deferred : Z → M unit) (body : MW A)
  : M (A * Z) :=
  fun w =>
    match body 0 w with
    | (OutOfFuel, (_, w')) => (OutOfFuel, w')
    | (r, (z, w')) =>
        match deferred z w' with
        | (Ok _, w'') | (Err _, w'') =>
            (match r with
             | Ok a => Ok (a, z)
             | Err e => Err e
             | Panic => Panic
             | OutOfFuel => OutOfFuel
             end, w'')
        | (Panic, w'') => (Panic, w'')
        | (OutOfFuel, w'') => (OutOfFuel, w'')
        end
    end.

(** [s[from:]]; out of range panics in Go ([None]). *)
Definition sliceFrom {A} (s : list A) (from : Z) : option (list A) :=
  if (from <? 0) || (Z.of_nat (length s) <? from) then None
  else Some (drop (Z.to_nat from) s).

(** The local variables that the loop of [writeDataLocked] changes. *)
Record writeVars := mkWriteVars {
  wvFblock : loc;
  wvCopied : Z;
  wvDe : DirEntry;
  wvDirtyPtrs : list BlockPointer
}.

Section WriteData.
Variable cfg : Config.

(** [BlockSplitter.CopyUntilSplit] of the configuration, declared in a
    file that is not among the sources: it changes the block it is given
    and returns the number of bytes it copied. *)
Variable CopyUntilSplit : FileBlock → bool → list byte → Z → FileBlock * Z.

(** One turn of the loop [for nCopied < n]. *)
Definition writeDataStep (depth : nat) (ctx : Context) (md : RootMetadata)
    (file : Path) (uid : N) (si : loc) (data : list byte) (off : Z)
    (v : writeVars) : MW writeVars :=
  let n := Z.of_nat (length data) in
  let+ tail := liftW (liftOpt (TailPointer file)) in
  let+ r := liftW (getFileBlockAtOffsetLocked cfg depth ctx md file
                     (wvFblock v) (wrapS64 (off + wvCopied v)) blockWrite) in
  let+ block := liftW (readFileBlock (foundBlock r)) in
  let oldLen := Z.of_nat (length (Contents block)) in
  let+ wasDirty := liftW (gets (IsDirty (foundPtr r) (Branch file))) in
  (* Take care not to write past the beginning of the next block *)
  let room := wrapS64 (nextBlockStartOff r - off) in
  let max := if (0 <? nextBlockStartOff r) && (room <? n) then room else n in
  let+ chunk := liftW (liftOpt (slice data (wvCopied v) max)) in
  let '(copiedBlock, copied) :=
    CopyUntilSplit block (nextBlockStartOff r <? 0) chunk
      (wrapS64 (wrapS64 (off + wvCopied v) - startOff r)) in
  let+ _ := liftW (writeFileBlock (foundBlock r) copiedBlock) in
  let nCopied := wrapS64 (wvCopied v + copied) in
  let+ (fblock, ptr) :=
    (if (nCopied <? n) && (nextBlockStartOff r <? 0) then
       (* if we need another block but there are no more, then make one *)
       let+ (fblock, ptr) :=
         (if decide (foundPtr r = tail) then
            let+ fblock := liftW (createIndirectBlockLocked cfg md file uid
                                    (DefaultNewBlockDataVersion cfg false)) in
            let+ fb := liftW (readFileBlock fblock) in
            let+ p0 := liftW (liftOpt (at_ (IPtrs fb) 0)) in
            retW (fblock, infoPtr (ptrInfo p0))
          else retW (wvFblock v, foundPtr r)) in
       let+ blk := liftW (readFileBlock (foundBlock r)) in
       let+ _ := liftW (newRightBlockLocked cfg ctx tail file fblock
                          (wrapS64 (startOff r
                                    + Z.of_nat (length (Contents blk))))
                          md) in
       retW (fblock, ptr)
     else if (nCopied <? n)
             && (wrapS64 (off + nCopied) <? nextBlockStartOff r) then
       (* We need a new block to be inserted here *)
       let fblock := wvFblock v in
       let+ blk := liftW (readFileBlock (foundBlock r)) in
       let+ _ := liftW (newRightBlockLocked cfg ctx tail file fblock
                          (wrapS64 (startOff r
                                    + Z.of_nat (length (Contents blk))))
                          md) in
       (* And push the indirect pointers to right *)
       let+ fb := liftW (readFileBlock fblock) in
       let+ newb := liftW (liftOpt (at_ (IPtrs fb)
                                      (Z.of_nat (length (IPtrs fb)) - 1))) in
       let i := indexInParent r in
       let+ dst := liftW (liftOpt (sliceFrom (IPtrs fb) (i + 2))) in
       let+ src := liftW (liftOpt (sliceFrom (IPtrs fb) (i + 1))) in
       let moved := take (length dst) src in
       let shifted :=
         take (Z.to_nat (i + 2)) (IPtrs fb) ++ moved
           ++ drop (Z.to_nat (i + 2) + length moved) (IPtrs fb) in
       let+ _ := liftW (liftOpt (at_ shifted (i + 1))) in
       let+ _ := liftW (writeFileBlock fblock
                   (mkFileBlock (IsInd fb)
                      (<[Z.to_nat (i + 1) := newb]> shifted)
                      (Contents fb))) in
       retW (fblock, foundPtr r)
     else retW (wvFblock v, foundPtr r)) in
  (* Only in the last block does the file size grow. *)
  let+ blk := liftW (readFileBlock (foundBlock r)) in
  let newLen := Z.of_nat (length (Contents blk)) in
  let+ de :=
    (if negb (oldLen =? newLen) && (nextBlockStartOff r <? 0) then
       let de := wvDe v in
       let de := mkDirEntry (mkBlockInfo (infoPtr (entryInfo de)) 0)
                   (entryType de)
                   (toUint64 (Size de + toUint64 (newLen - oldLen)))
                   (Mtime de) (Ctime de) in
       let+ _ := liftW (modify (setDeCache <[ref tail := de]>)) in
       retW de
     else retW (wvDe v)) in
  (* the bytes newly dirtied as part of this write *)
  let+ _ := addNewlyDirtied newLen in
  let+ _ := (if wasDirty then addNewlyDirtied (- oldLen) else retW tt) in
  let+ _ :=
    (match parentBlock r with
     | Some parent =>
         let+ pb := liftW (readFileBlock parent) in
         let+ p := liftW (liftOpt (at_ (IPtrs pb) (indexInParent r))) in
         let+ _ := liftW (addUnrefs si [ptrInfo p]) in
         liftW (writeFileBlock parent
                  (mkFileBlock (IsInd pb)
                     (<[Z.to_nat (indexInParent r) := setEncodedSize0 p]>
                        (IPtrs pb))
                     (Contents pb)))
     | None => retW tt
     end) in
  (* keep the old block ID while it's dirty *)
  let+ _ := liftW (cacheBlockIfNotYetDirtyLocked ptr file (foundBlock r)) in
  retW (mkWriteVars fblock nCopied de (wvDirtyPtrs v ++ [ptr])).

(** The loop [for nCopied < n]; the fuel bounds its turns. *)
Fixpoint writeDataLoop (fuel depth : nat) (ctx : Context)
    (md : RootMetadata) (file : Path) (uid : N) (si : loc)
    (data : list byte) (off : Z) (v : writeVars) : MW writeVars :=
  if wvCopied v <? Z.of_nat (length data) then
    match fuel with
    | O => liftW outOfFuel
    | S fuel' =>
        let+ v := writeDataStep depth ctx md file uid si data off v in
        writeDataLoop fuel' depth ctx md file uid si data off v
    end
  else retW v.

(** [writeDataLocked] after the deferred function is set up. *)
Definition writeDataBody (fuel depth : nat) (ctx : Context)
    (md : RootMetadata) (file : Path) (fblock : loc) (uid : N)
    (df : BlockPointer) (data : list byte) (off : Z)
  : MW (WriteRange * list BlockPointer) :=
  let+ tail := liftW (liftOpt (TailPointer file)) in
  let+ de := liftW (getDirtyEntryLocked cfg ctx md file) in
  let oldSize := Size de in
  let+ si := liftW (getOrCreateSyncInfoLocked de) in
  let+ v := writeDataLoop fuel depth ctx md file uid si data off
              (mkWriteVars fblock 0 de []) in
  let+ fb := liftW (readFileBlock (wvFblock v)) in
  let+ dirtyPtrs :=
    (if IsInd fb then
       (* Always make the top block dirty, so we will sync its indirect
          blocks. *)
       let+ _ := liftW (cacheBlockIfNotYetDirtyLocked tail file
                          (wvFblock v)) in
       let+ deferring := liftW (gets doDeferWrite) in
       let+ _ :=
         (if deferring && (oldSize <? Size (wvDe v)) then
            liftW (modify (setDirtyFiles
                     (alter (addDeferredNewBytes
                               (wrapS64 (toUint64 (Size (wvDe v) - oldSize))))
                        df)))
          else retW tt) in
       retW (wvDirtyPtrs v ++ [tail])
     else retW (wvDirtyPtrs v)) in
  let+ latestWrite :=
    liftW (addWrite si (toUint64 off)
             (toUint64 (Z.of_nat (length data)))) in
  retW (latestWrite, dirtyPtrs).

(** [writeDataLocked]: [(latestWrite, dirtyPtrs, newlyDirtiedChildBytes)]. *)
Definition writeDataLocked (fuel depth : nat) (ctx : Context)
    (md : RootMetadata) (file : Path) (data : list byte) (off : Z)
  : M (WriteRange * list BlockPointer * Z) :=
  let sz := wrapS64 (off + Z.of_nat (length data)) in
  if MaxFileBytes cfg <? toUint64 sz then fail FileTooBigError else
  let* (fblock, uid) := writeGetFileLocked cfg ctx md file in
  let* df := getOrCreateDirtyFileLocked file in
  let* (r, newlyDirtiedChildBytes) :=
    withDeferW
      (fun newlyDirtiedChildBytes =>
         (* Always update unsynced bytes and potentially force a sync,
            even on an error *)
         let* _ := updateNotYetSyncingBytes df newlyDirtiedChildBytes in
         maybeForceSync cfg)
      (writeDataBody fuel depth ctx md file fblock uid df data off) in
  ret (r.1, r.2, newlyDirtiedChildBytes).

End WriteData.

(** A splitter for blocks of at most [maxSize] bytes: it copies what fits. *)
Definition copyUpTo (maxSize : Z) (block : FileBlock) (lastBlock : bool)
    (data : list byte) (off : Z) : FileBlock * Z :=
  let room := Z.max 0 (maxSize - off) in
  let toCopy := Z.min (Z.of_nat (length data)) room in
  let chunk := take (Z.to_nat toCopy) data in
  let old := Contents block in
  let padded := old ++ replicate (Z.to_nat off - length old) Byte.x00 in
  (mkFileBlock (IsInd block) (IPtrs block)
     (take (Z.to_nat off) padded ++ chunk
        ++ drop (Z.to_nat off + length chunk) padded),
   toCopy).

End Fbo.

(** * Theorems *)

Module BrqFacts.
Import Brq.

Lemma keyLess_keyLe a b : keyLess a b = true → keyLe a b.
Proof.
  unfold keyLe, keyLess. destruct a as [p1 o1], b as [p2 o2]; simpl.
  destruct (Z.eqb_spec p1 p2), (Z.eqb_spec p2 p1);
    rewrite ?N.ltb_lt, ?N.ltb_ge, ?Z.ltb_lt, ?Z.ltb_ge; lia.
Qed.

Lemma keyLe_trans a b c : keyLe a b → keyLe b c → keyLe a c.
Proof.
  unfold keyLe, keyLess.
  destruct a as [p1 o1], b as [p2 o2], c as [p3 o3]; simpl.
  destruct (Z.eqb_spec p2 p1), (Z.eqb_spec p3 p2), (Z.eqb_spec p3 p1);
    rewrite ?N.ltb_lt, ?N.ltb_ge, ?Z.ltb_lt, ?Z.ltb_ge; lia.
Qed.

Section QueueFacts.
Context {Ctx KeyMetadata Block : Type}.
Abbreviation retrieval := (blockRetrieval Ctx KeyMetadata Block).
Abbreviation queue := (blockRetrievalQueue Ctx KeyMetadata Block).
Implicit Types (o : gmap nat retrieval) (h : list nat) (q : queue).

Lemma heapInsert_perm o l h : heapInsert o l h ≡ₚ l :: h.
Proof.
  induction h as [|m h IH]; simpl; [done|].
  destruct (lessAt o l m); [done|].
  rewrite IH. apply Permutation_swap.
Qed.

Lemma heapInsert_sorted o l h :
  sortedAt o h → sortedAt o (heapInsert o l h).
Proof.
  unfold sortedAt. induction h as [|m h IH]; simpl; intros Hs.
  - repeat constructor.
  - apply StronglySorted_cons in Hs as [Hm Hs].
    destruct (lessAt o l m) eqn:E; simpl.
    + apply keyLess_keyLe in E.
      constructor; [by constructor|].
      constructor; [done|].
      eapply Forall_impl; [exact Hm|]. intros x. by apply keyLe_trans.
    + constructor; [by apply IH|].
      rewrite (heapInsert_perm o l h). simpl. by constructor.
Qed.

Lemma sortedAt_delete o h i : sortedAt o h → sortedAt o (delete i h).
Proof.
  unfold sortedAt. revert i. induction h as [|m h IH]; intros i Hs; [done|].
  rewrite fmap_cons in Hs. apply StronglySorted_cons in Hs as [Hm Hs].
  destruct i as [|i]; simpl; [done|].
  constructor; [by apply IH|].
  rewrite Forall_fmap in Hm |- *. by apply Forall_delete.
Qed.

Lemma sortedAt_ext o o' h :
  (∀ l, l ∈ h → keyAt o' l = keyAt o l) → sortedAt o h → sortedAt o' h.
Proof.
  unfold sortedAt. intros He Hs.
  replace (keyAt o' <$> h) with (keyAt o <$> h); [done|].
  apply list_fmap_ext. intros i x Hx. symmetry. apply He.
  by eapply list_elem_of_lookup_2.
Qed.

(** *** Re-indexing changes the [index] fields only *)

Lemma reindexFrom_notin i h o l :
  l ∉ h → reindexFrom i h o !! l = o !! l.
Proof.
  revert i o. induction h as [|m h IH]; intros i o Hl; simpl; [done|].
  apply not_elem_of_cons in Hl as [Hne Hl].
  rewrite IH by done. by rewrite lookup_alter_ne.
Qed.

Lemma reindexFrom_at i h o j l :
  NoDup h → h !! j = Some l →
  reindexFrom i h o !! l = setIndex (i + Z.of_nat j) <$> o !! l.
Proof.
  revert i o j. induction h as [|m h IH]; intros i o j Hnd Hj; [done|].
  apply NoDup_cons in Hnd as [Hm Hnd]. destruct j as [|j]; simpl in *.
  - injection Hj as ->. rewrite reindexFrom_notin by done.
    rewrite lookup_alter_eq. by replace (i + Z.of_nat 0) with i by lia.
  - rewrite (IH _ _ j) by done.
    rewrite lookup_alter_ne
      by (intros ->; apply Hm; by eapply list_elem_of_lookup_2).
    by replace (i + 1 + Z.of_nat j) with (i + Z.of_nat (S j)) by lia.
Qed.

Lemma reindexFrom_some i h o l br :
  o !! l = Some br → ∃ i', reindexFrom i h o !! l = Some (setIndex i' br).
Proof.
  revert i o br. induction h as [|m h IH]; intros i o br Hl; simpl.
  - exists (index br). rewrite Hl. by destruct br.
  - destruct (decide (m = l)) as [->|Hne].
    + destruct (IH (i + 1) (alter (setIndex i) l o) (setIndex i br))
        as [i' Hi']; [by rewrite lookup_alter_eq, Hl|].
      exists i'. by rewrite Hi'.
    + apply IH. by rewrite lookup_alter_ne.
Qed.

Lemma reindexFrom_none i h o l :
  o !! l = None → reindexFrom i h o !! l = None.
Proof.
  revert i o. induction h as [|m h IH]; intros i o Hl; simpl; [done|].
  apply IH. rewrite lookup_alter. case_decide; [subst; by rewrite Hl|done].
Qed.

Lemma reindexFrom_dom i h o : dom (reindexFrom i h o) = dom o.
Proof.
  apply set_eq. intros l. rewrite !elem_of_dom.
  destruct (o !! l) as [br|] eqn:E.
  - destruct (reindexFrom_some i h o l br E) as [i' ->]. by split.
  - by rewrite reindexFrom_none.
Qed.

Lemma reindexFrom_keyAt i h o l : keyAt (reindexFrom i h o) l = keyAt o l.
Proof.
  unfold keyAt. destruct (o !! l) as [br|] eqn:E.
  - by destruct (reindexFrom_some i h o l br E) as [i' ->].
  - by rewrite reindexFrom_none.
Qed.

Lemma sortedAt_reindex i h' o h : sortedAt o h → sortedAt (reindexFrom i h' o) h.
Proof. apply sortedAt_ext. intros. apply reindexFrom_keyAt. Qed.

Lemma wfHeap_in o h l : wfHeap o h → l ∈ h → is_Some (o !! l).
Proof.
  intros Hw [j Hj]%list_elem_of_lookup_1.
  destruct (wf_on _ _ Hw j l Hj) as (br & -> & _). by eexists.
Qed.

Lemma wfHeap_rebuild o h :
  NoDup h →
  (∀ l, l ∈ h → is_Some (o !! l)) →
  (∀ l br, o !! l = Some br → l ∉ h → index br = -1) →
  sortedAt o h →
  wfHeap (reindexFrom 0 h o) h.
Proof.
  intros Hnd Hin Hoff Hs. split; [done| | |by apply sortedAt_reindex].
  - intros l br Hl Hnin. rewrite reindexFrom_notin in Hl by done. eauto.
  - intros j l Hj.
    destruct (Hin l) as [br Hbr]; [by eapply list_elem_of_lookup_2|].
    exists (setIndex (Z.of_nat j) br).
    rewrite (reindexFrom_at 0 h o j l), Hbr by done. simpl.
    by replace (0 + Z.of_nat j) with (Z.of_nat j) by lia.
Qed.

Lemma wfHeap_alter (f : retrieval → retrieval) l o h :
  (∀ br, index (f br) = index br) → (∀ br, key (f br) = key br) →
  wfHeap o h → wfHeap (alter f l o) h.
Proof.
  intros Hi Hk [Hnd Hoff Hon Hs]. split; [done| | |].
  - intros l' br. rewrite lookup_alter. case_decide as E.
    + subst l'. destruct (o !! l) as [br0|] eqn:E0; simpl; [|done].
      intros [= <-] Hn. rewrite Hi. eauto.
    + eauto.
  - intros j l' Hj. destruct (Hon j l' Hj) as (br & Hbr & Hidx).
    rewrite lookup_alter. case_decide as E.
    + subst l'. rewrite Hbr. simpl. eexists. split; [done|]. by rewrite Hi.
    + eauto.
  - eapply sortedAt_ext; [|exact Hs]. intros l' _. unfold keyAt.
    rewrite lookup_alter. case_decide as E; [|done].
    subst l'. destruct (o !! l); simpl; [apply Hk|done].
Qed.

Lemma alter_inv (f : retrieval → retrieval) l o x bx :
  alter f l o !! x = Some bx →
  ∃ b0, o !! x = Some b0 ∧ (bx = b0 ∨ (x = l ∧ bx = f b0)).
Proof.
  rewrite lookup_alter. case_decide as E.
  - subst x. destruct (o !! l) as [b0|]; simpl; [|done].
    intros [= <-]. eauto.
  - eauto.
Qed.

Lemma reindexFrom_inv i h o x bx :
  reindexFrom i h o !! x = Some bx →
  ∃ b0 i', o !! x = Some b0 ∧ bx = setIndex i' b0.
Proof.
  intros Hx. destruct (o !! x) as [b0|] eqn:E.
  - destruct (reindexFrom_some i h o x b0 E) as [i' Hi'].
    exists b0, i'. split; [done|]. congruence.
  - by rewrite reindexFrom_none in Hx.
Qed.

Lemma NoDup_delete_notin h j l :
  NoDup h → h !! j = Some l → l ∉ delete j h.
Proof.
  intros Hnd Hj. apply delete_Permutation in Hj.
  rewrite Hj in Hnd. by apply NoDup_cons in Hnd as [? _].
Qed.

(** A request for a pointer that has a retrieval joins it. *)
Lemma Request_existing q c prio k ptr b l br :
  wf q → ptrs q !! ptr = Some l → objs q !! l = Some br →
  ∃ q' i',
    Request q c prio k ptr b = Some (nextCh q, q') ∧ wf q' ∧
    ptrs q' = ptrs q ∧ dom (objs q') = dom (objs q) ∧
    insertionCount q' = insertionCount q ∧
    notifying q' = notifying q ∧
    heap q' ≡ₚ heap q ∧
    objs q' !! l =
      Some (mkRetrieval (blockPtr br) (kmd br)
              (requests br ++ [mkRequest c b (nextCh q)]) i'
              (if decide (index br ≠ -1 ∧ priority br < prio)
               then prio else priority br)
              (insertionOrder br)).
Proof.
  intros [Hptrs Hord Hh] Hptr Hbr. unfold Request. rewrite Hptr.
  cbv zeta. rewrite lookup_alter_eq, Hbr. simpl.
  set (req := mkRequest c b (nextCh q)).
  case_decide as Hc.
  - destruct Hc as [Hidx Hprio].
    assert (l ∈ heap q) as [j Hj]%list_elem_of_lookup_1.
    { destruct (decide (l ∈ heap q)); [done|].
      by destruct Hidx; eapply (wf_off _ _ Hh). }
    destruct (wf_on _ _ Hh j l Hj) as (br' & Hbr' & Hj').
    rewrite Hbr in Hbr'. injection Hbr' as <-.
    replace (negb (index br =? -1) && (priority br <? prio)) with true
      by (symmetry; apply andb_true_iff; split;
          [apply negb_true_iff; lia | lia]).
    unfold heapFix. replace (index br <? 0) with false by lia.
    rewrite Hj', Nat2Z.id, Hj.
    set (o2 := alter (setPriority prio) l (alter (appendRequest req) l (objs q))).
    set (h' := heapInsert o2 l (delete j (heap q))).
    assert (h' ≡ₚ heap q) as Hperm.
    { unfold h'. rewrite heapInsert_perm. symmetry.
      by apply delete_Permutation. }
    assert (o2 !! l = Some (setPriority prio (appendRequest req br))) as Hl.
    { unfold o2. by rewrite !lookup_alter_eq, Hbr. }
    assert (∀ x bx, o2 !! x = Some bx →
              ∃ b0, objs q !! x = Some b0 ∧ index bx = index b0 ∧
                insertionOrder bx = insertionOrder b0 ∧
                (x ≠ l → key bx = key b0)) as Hinv.
    { intros x bx Hx. unfold o2 in Hx.
      apply alter_inv in Hx as (b1 & Hx & Hb1).
      apply alter_inv in Hx as (b0 & Hx & Hb0).
      exists b0. split; [done|].
      destruct Hb1 as [->|[-> ->]], Hb0 as [->|[? ->]]; naive_solver. }
    destruct (reindexFrom_some 0 h' o2 l _ Hl) as [i' Hi'].
    eexists _, i'. split; [done|]. simpl. split; [|split_and!; try done].
    + split; simpl.
      * intros p x Hp. apply elem_of_dom. rewrite reindexFrom_dom.
        unfold o2. rewrite !dom_alter_L. apply elem_of_dom. eauto.
      * intros x bx Hx.
        apply reindexFrom_inv in Hx as (b1 & ? & Hx & ->).
        apply Hinv in Hx as (b0 & Hx & _ & Ho & _). simpl.
        rewrite Ho. eauto.
      * apply wfHeap_rebuild.
        -- rewrite Hperm. apply Hh.
        -- intros x Hx. rewrite Hperm in Hx.
           apply (wfHeap_in _ _ _ Hh) in Hx. apply elem_of_dom.
           unfold o2. rewrite !dom_alter_L. by apply elem_of_dom.
        -- intros x bx Hx Hnin. rewrite Hperm in Hnin.
           apply Hinv in Hx as (b0 & Hx & -> & _). by eapply (wf_off _ _ Hh).
        -- apply heapInsert_sorted.
           eapply sortedAt_ext; [|apply sortedAt_delete, Hh].
           intros x Hx. unfold keyAt.
           assert (x ≠ l) as Hne.
           { intros ->. revert Hx. apply NoDup_delete_notin; [apply Hh|done]. }
           unfold o2. by rewrite !lookup_alter_ne.
    + rewrite reindexFrom_dom. unfold o2. by rewrite !dom_alter_L.
  - replace (negb (index br =? -1) && (priority br <? prio)) with false.
    2:{ symmetry. apply andb_false_iff.
        rewrite negb_false_iff, Z.eqb_eq, Z.ltb_ge.
        destruct (decide (index br = -1)); [by left|right].
        destruct (decide (priority br < prio)); [|lia]. by destruct Hc. }
    eexists _, (index br). split; [done|]. simpl.
    split; [|split_and!; try done].
    + split; simpl.
      * intros p x Hp. apply elem_of_dom. rewrite dom_alter_L.
        apply elem_of_dom. eauto.
      * intros x bx Hx. apply alter_inv in Hx as (b0 & Hx & Hb).
        destruct Hb as [->|[-> ->]]; simpl; eauto.
      * by apply wfHeap_alter.
    + by rewrite dom_alter_L.
    + by rewrite lookup_alter_eq, Hbr.
Qed.

(** A request for a pointer without a retrieval makes one. *)
Lemma Request_fresh q c prio k ptr b :
  wf q → ptrs q !! ptr = None → (insertionCount q + 1 < 2 ^ 64)%N →
  ∃ q' l i',
    Request q c prio k ptr b = Some (nextCh q, q') ∧ wf q' ∧
    objs q !! l = None ∧
    ptrs q' = <[ptr := l]> (ptrs q) ∧
    dom (objs q') = {[l]} ∪ dom (objs q) ∧
    insertionCount q' = (insertionCount q + 1)%N ∧
    notifying q' = S (notifying q) ∧
    heap q' ≡ₚ l :: heap q ∧
    0 ≤ i' ∧
    objs q' !! l =
      Some (mkRetrieval ptr k [mkRequest c b (nextCh q)] i' prio
              (insertionCount q)).
Proof.
  intros [Hptrs Hord Hh] Hptr Hcount. unfold Request. rewrite Hptr.
  unfold heapPush. cbv zeta.
  set (req := mkRequest c b (nextCh q)).
  set (l := fresh (dom (objs q))).
  set (br0 := mkRetrieval ptr k [] (-1) prio (insertionCount q)).
  set (o0 := <[l := br0]> (objs q)).
  set (h' := heapInsert o0 l (heap q)).
  assert (objs q !! l = None) as Hl.
  { apply not_elem_of_dom. apply is_fresh. }
  assert (l ∉ heap q) as Hnin.
  { intros Hin. apply (wfHeap_in _ _ _ Hh) in Hin. rewrite Hl in Hin.
    by destruct Hin. }
  assert (h' ≡ₚ l :: heap q) as Hperm by apply heapInsert_perm.
  assert (l ∈ h') as [j Hj]%list_elem_of_lookup_1.
  { rewrite Hperm. by left. }
  assert (NoDup h') as Hnd.
  { rewrite Hperm. apply NoDup_cons. split; [done|apply Hh]. }
  assert (wfHeap (reindexFrom 0 h' o0) h') as Hh'.
  { apply wfHeap_rebuild; [done| | |].
    - intros x Hx. rewrite Hperm in Hx. unfold o0.
      apply elem_of_cons in Hx as [->|Hx].
      + rewrite lookup_insert_eq. by eexists.
      + rewrite lookup_insert_ne by (by intros ->).
        by apply (wfHeap_in _ _ _ Hh).
    - intros x bx Hx Hxn. rewrite Hperm in Hxn.
      apply not_elem_of_cons in Hxn as [Hne Hxn].
      unfold o0 in Hx. rewrite lookup_insert_ne in Hx by done.
      by eapply (wf_off _ _ Hh).
    - apply heapInsert_sorted.
      eapply sortedAt_ext; [|apply Hh].
      intros x Hx. unfold keyAt, o0.
      by rewrite lookup_insert_ne by (by intros ->). }
  assert (reindexFrom 0 h' o0 !! l = Some (setIndex (Z.of_nat j) br0)) as Ho1.
  { rewrite (reindexFrom_at 0 h' o0 j l) by done.
    unfold o0. rewrite lookup_insert_eq. simpl.
    by replace (0 + Z.of_nat j) with (Z.of_nat j) by lia. }
  rewrite lookup_alter_eq, Ho1. simpl.
  replace (negb (Z.of_nat j =? -1) && (prio <? prio)) with false
    by (symmetry; apply andb_false_iff; right; lia).
  assert (wrap64 (insertionCount q + 1) = (insertionCount q + 1)%N) as Hw
    by (unfold wrap64; by apply N.mod_small).
  eexists _, l, (Z.of_nat j). split; [done|]. simpl.
  split; [|split_and!; try done; try lia].
  - split; simpl.
    + intros p x Hp. apply elem_of_dom. rewrite dom_alter_L, reindexFrom_dom.
      unfold o0. rewrite dom_insert_L.
      apply lookup_insert_Some in Hp as [[_ <-]|[_ Hp]]; [set_solver|].
      apply elem_of_union_r, elem_of_dom. eauto.
    + rewrite Hw. intros x bx Hx. apply alter_inv in Hx as (b1 & Hx & Hb).
      apply reindexFrom_inv in Hx as (b0 & i0 & Hx & ->).
      assert (insertionOrder bx = insertionOrder b0) as ->
        by (by destruct Hb as [->|[_ ->]]).
      unfold o0 in Hx. apply lookup_insert_Some in Hx as [[_ <-]|[_ Hx]].
      * simpl. lia.
      * apply Hord in Hx. lia.
    + by apply wfHeap_alter.
  - rewrite dom_alter_L, reindexFrom_dom. unfold o0. by rewrite dom_insert_L.
  - by rewrite lookup_alter_eq, Ho1.
Qed.

Lemma wf_new n : wf (newBlockRetrievalQueue n : queue).
Proof.
  split; simpl; [done|done|].
  split; [constructor|done|done|constructor].
Qed.


End QueueFacts.



(** *** Runs of the queue *)

Section RunFacts.
Context {Ctx KeyMetadata Block : Type}.
Abbreviation retrieval := (blockRetrieval Ctx KeyMetadata Block).
Abbreviation queue := (blockRetrievalQueue Ctx KeyMetadata Block).
Implicit Types (o : gmap nat retrieval) (h : list nat) (q : queue).

(** [Request] changes the retrievals of other pointers in their [index]
    only. *)
Lemma Request_others q c prio k ptr b ch q' l0 br0 :
  Request q c prio k ptr b = Some (ch, q') →
  objs q !! l0 = Some br0 → ptrs q !! ptr ≠ Some l0 →
  ∃ i, objs q' !! l0 = Some (setIndex i br0).
Proof.
  unfold Request. intros HR Hl0 Hne.
  destruct (ptrs q !! ptr) as [l|] eqn:Hptr.
  - assert (l0 ≠ l) as Hll by congruence.
    cbv zeta in HR. destruct (alter _ l (objs q) !! l) as [br|] eqn:Hbr; [|done].
    destruct (negb (index br =? -1) && (priority br <? prio)).
    + unfold heapFix in HR. destruct (index br <? 0); [done|].
      destruct (heap q !! Z.to_nat (index br)) as [l'|]; [|done].
      injection HR as _ <-. simpl.
      apply reindexFrom_some. by rewrite !lookup_alter_ne by done.
    + injection HR as _ <-. simpl. exists (index br0).
      rewrite lookup_alter_ne by done. rewrite Hl0. by destruct br0.
  - unfold heapPush in HR. cbv zeta in HR.
    set (l := fresh (dom (objs q))) in *.
    assert (objs q !! l = None) as Hl by apply not_elem_of_dom, is_fresh.
    assert (l0 ≠ l) as Hll by congruence.
    match type of HR with
    | context [reindexFrom 0 ?h' ?o0] =>
        destruct (reindexFrom_some 0 h' o0 l0 br0) as [i Hi];
          [by rewrite lookup_insert_ne|]
    end.
    destruct (alter _ l _ !! l) as [br|] eqn:Hbr; [|done].
    destruct (negb (index br =? -1) && (priority br <? prio)).
    + unfold heapFix in HR. destruct (index br <? 0); [done|].
      match type of HR with
      | context [?hh !! Z.to_nat (index br)] =>
          destruct (hh !! Z.to_nat (index br)) as [l'|]; [|done]
      end.
      injection HR as _ <-. simpl.
      match goal with
      | |- context [reindexFrom 0 ?h2 ?o2 !! l0] =>
          destruct (reindexFrom_some 0 h2 o2 l0 (setIndex i br0)) as [i2 Hi2];
            [by rewrite !lookup_alter_ne by done|]
      end.
      exists i2. rewrite Hi2. by destruct br0.
    + injection HR as _ <-. simpl. exists i.
      by rewrite lookup_alter_ne by done.
Qed.

(** [Request] keeps the [insertionOrder] of every retrieval it finds, and
    gives a new one the counter. *)
Lemma Request_orders q c prio k ptr b ch q' x bx :
  Request q c prio k ptr b = Some (ch, q') →
  objs q' !! x = Some bx →
  (∃ b0, objs q !! x = Some b0 ∧ insertionOrder bx = insertionOrder b0) ∨
  (objs q !! x = None ∧ insertionOrder bx = insertionCount q).
Proof.
  unfold Request. intros HR Hx.
  assert (∀ (o1 : gmap nat retrieval) h1 l o3 h3 (br : retrieval),
    (if negb (index br =? -1) && (priority br <? prio)
     then heapFix (alter (setPriority prio) l
                     (alter (appendRequest (mkRequest c b (nextCh q))) l o1))
            h1 (index br)
     else Some (alter (appendRequest (mkRequest c b (nextCh q))) l o1, h1))
    = Some (o3, h3) →
    o3 !! x = Some bx →
    ∃ b1, o1 !! x = Some b1 ∧ insertionOrder bx = insertionOrder b1) as Hfix.
  { intros o1 h1 l o3 h3 br Hf H3.
    destruct (negb (index br =? -1) && (priority br <? prio)).
    - unfold heapFix in Hf. destruct (index br <? 0); [done|].
      destruct (h1 !! Z.to_nat (index br)); [|done].
      injection Hf as <- <-.
      apply reindexFrom_inv in H3 as (b3 & i3 & H3 & ->).
      apply alter_inv in H3 as (b2 & H3 & Hb2).
      apply alter_inv in H3 as (b1 & H3 & Hb1).
      exists b1. split; [done|].
      destruct Hb2 as [->|[_ ->]], Hb1 as [->|[_ ->]]; done.
    - injection Hf as <- <-.
      apply alter_inv in H3 as (b1 & H3 & Hb1).
      exists b1. split; [done|]. by destruct Hb1 as [->|[_ ->]]. }
  destruct (ptrs q !! ptr) as [l|] eqn:Hptr; cbv zeta in HR.
  - destruct (alter _ l (objs q) !! l) as [br|] eqn:Hbr; [|done].
    match type of HR with
    | match ?f with _ => _ end = _ => destruct f as [[o3 h3]|] eqn:Hf; [|done]
    end.
    injection HR as _ <-. simpl in Hx. left. by eapply Hfix.
  - unfold heapPush in HR. cbv zeta in HR.
    set (l := fresh (dom (objs q))) in *.
    assert (objs q !! l = None) as Hl by apply not_elem_of_dom, is_fresh.
    destruct (alter _ l _ !! l) as [br|] eqn:Hbr; [|done].
    match type of HR with
    | match ?f with _ => _ end = _ => destruct f as [[o3 h3]|] eqn:Hf; [|done]
    end.
    injection HR as _ <-. simpl in Hx.
    eapply Hfix in Hx as (b1 & Hx & ->); [|done].
    apply reindexFrom_inv in Hx as (b0 & i0 & Hx & ->).
    apply lookup_insert_Some in Hx as [[<- <-]|[Hne Hx]].
    + by right.
    + left. by exists b0.
Qed.

Lemma wf_FinalizeRequest q ptr : wf q → wf (FinalizeRequest q ptr).
Proof.
  intros [Hptrs Hord Hh]. split; simpl; [|done|done].
  intros p l [_ Hp]%lookup_delete_Some. eauto.
Qed.

Lemma notifyWorker_run_spec q ch ws l0 h' :
  wf q → workerQueue q = ch :: ws → heap q = l0 :: h' → notifying q ≠ 0%nat →
  ∃ br q',
    notifyWorker_run q = Some q' ∧ wf q' ∧
    objs q !! l0 = Some br ∧
    heap q' = h' ∧ workerQueue q' = ws ∧
    notifying q' = pred (notifying q) ∧
    sent q' = sent q ++ [(ch, l0)] ∧
    insertionCount q' = insertionCount q ∧
    objs q' !! l0 = Some (setIndex (-1) br) ∧
    (∀ x bx, objs q' !! x = Some bx →
       ∃ b0 i, objs q !! x = Some b0 ∧ bx = setIndex i b0).
Proof.
  intros [Hptrs Hord Hh] Hw Hheap Hn. unfold notifyWorker_run.
  destruct (notifying q) as [|n] eqn:Hnot; [done|]. rewrite Hw, Hheap. simpl.
  destruct (wfHeap_in _ _ l0 Hh) as [br Hbr]; [rewrite Hheap; by left|].
  pose proof (wf_nodup _ _ Hh) as Hnd. rewrite Hheap in Hnd.
  apply NoDup_cons in Hnd as [Hl0 Hnd].
  set (o1 := alter (setIndex (-1)) l0 (objs q)).
  assert (∀ x bx, reindexFrom 0 h' o1 !! x = Some bx →
            ∃ b0 i, objs q !! x = Some b0 ∧ bx = setIndex i b0) as Hinv.
  { intros x bx Hx. apply reindexFrom_inv in Hx as (b1 & i & Hx & ->).
    apply alter_inv in Hx as (b0 & Hx & Hb). exists b0, i. split; [done|].
    by destruct Hb as [->|[_ ->]]. }
  exists br. eexists. split; [done|]. simpl. split_and!; try done.
  - split; simpl.
    + intros p x Hp. apply elem_of_dom. rewrite reindexFrom_dom.
      unfold o1. rewrite dom_alter_L. apply elem_of_dom. eauto.
    + intros x bx Hx. apply Hinv in Hx as (b0 & i & Hx & ->). simpl. eauto.
    + apply wfHeap_rebuild; [done| | |].
      * intros x Hx. apply elem_of_dom. unfold o1. rewrite dom_alter_L.
        apply elem_of_dom. apply (wfHeap_in _ _ _ Hh). rewrite Hheap. by right.
      * intros x bx Hx Hnin. unfold o1 in Hx.
        destruct (decide (x = l0)) as [->|Hne].
        -- rewrite lookup_alter_eq, Hbr in Hx. by injection Hx as <-.
        -- rewrite lookup_alter_ne in Hx by done.
           eapply (wf_off _ _ Hh); [done|]. rewrite Hheap.
           by apply not_elem_of_cons.
      * pose proof (wf_sorted _ _ Hh) as Hs. rewrite Hheap in Hs.
        unfold sortedAt in *. rewrite fmap_cons in Hs.
        apply StronglySorted_inv in Hs as [Hs _].
        eapply sortedAt_ext; [|exact Hs].
        intros x Hx. unfold keyAt, o1.
        rewrite lookup_alter_ne; [done|]. by intros ->.
  - rewrite reindexFrom_notin by done. unfold o1.
    by rewrite lookup_alter_eq, Hbr.
Qed.

(** [Request] leaves the workers' side of the queue alone. *)
Lemma Request_workers q c prio k ptr b ch q' :
  Request q c prio k ptr b = Some (ch, q') →
  sent q' = sent q ∧ workerQueue q' = workerQueue q ∧
  nextCh q' = S (nextCh q).
Proof.
  unfold Request. intros HR.
  destruct (ptrs q !! ptr) as [l|]; cbv zeta in HR.
  - destruct (alter _ l (objs q) !! l) as [br|]; [|done].
    match type of HR with
    | match ?f with _ => _ end = _ => destruct f as [[o3 h3]|]; [|done]
    end.
    by injection HR as _ <-.
  - unfold heapPush in HR. cbv zeta in HR.
    match type of HR with
    | match ?f with _ => _ end = _ => destruct f as [br|]; [|done]
    end.
    match type of HR with
    | match ?f with _ => _ end = _ => destruct f as [[o3 h3]|]; [|done]
    end.
    by injection HR as _ <-.
Qed.

Lemma reached_new n : reached 0 (newBlockRetrievalQueue n : queue).
Proof.
  split; simpl.
  - apply wf_new.
  - done.
  - lia.
  - done.
  - apply NoDup_nil_2.
  - by intros l ?%elem_of_nil.
  - apply NoDup_nil_2.
  - by intros ch ?%elem_of_nil.
Qed.

Lemma reached_step k q c q' :
  reached k q → (N.of_nat (S k) < 2 ^ 64)%N → doCall q c = Some q' →
  reached (S k) q'.
Proof.
  intros [Hwf Hnot Hcount Hords Hsent Hsobj Hch Hchlt] Hk Hc.
  destruct c as [c prio kmd ptr b| |ptr|]; simpl in Hc.
  - destruct (Request q c prio kmd ptr b) as [[ch q1]|] eqn:HR; [|done].
    injection Hc as ->.
    destruct (Request_workers _ _ _ _ _ _ _ _ HR) as (Es & Ew & En).
    destruct (ptrs q !! ptr) as [l|] eqn:Hptr.
    + destruct (wf_ptrs _ Hwf ptr l Hptr) as [br Hbr].
      destruct (Request_existing q c prio kmd ptr b l br Hwf Hptr Hbr)
        as (q2 & i' & HR2 & Hwf' & _ & Hdom & Hcnt & Hn & Hperm & _).
      rewrite HR in HR2. injection HR2 as _ <-.
      split; [done| | | | | | |].
      * by rewrite Hn, Hnot, Hperm.
      * rewrite Hcnt. lia.
      * intros l1 l2 b1 b2 H1 H2 Heq.
        destruct (Request_orders _ _ _ _ _ _ _ _ _ _ HR H1)
          as [(a1 & Ha1 & E1)|[Hno _]];
          [|apply not_elem_of_dom in Hno; rewrite <- Hdom in Hno;
            by apply not_elem_of_dom in Hno; rewrite H1 in Hno].
        destruct (Request_orders _ _ _ _ _ _ _ _ _ _ HR H2)
          as [(a2 & Ha2 & E2)|[Hno _]];
          [|apply not_elem_of_dom in Hno; rewrite <- Hdom in Hno;
            by apply not_elem_of_dom in Hno; rewrite H2 in Hno].
        eapply Hords; [done..|congruence].
      * by rewrite Es, Hperm.
      * rewrite Es. intros x Hx. apply elem_of_dom. rewrite Hdom.
        apply elem_of_dom. auto.
      * by rewrite Es, Ew.
      * rewrite Es, Ew, En. intros x Hx. apply Hchlt in Hx. lia.
    + destruct (Request_fresh q c prio kmd ptr b Hwf Hptr) as
        (q2 & l & i' & HR2 & Hwf' & Hl & _ & Hdom & Hcnt & Hn & Hperm & _);
        [lia|].
      rewrite HR in HR2. injection HR2 as _ <-.
      split; [done| | | | | | |].
      * by rewrite Hn, Hnot, Hperm.
      * rewrite Hcnt. lia.
      * intros l1 l2 b1 b2 H1 H2 Heq.
        assert (∀ x, objs q !! x = None → is_Some (objs q' !! x) → x = l)
          as Hnew.
        { intros x Hx Hx1. apply elem_of_dom in Hx1. rewrite Hdom in Hx1.
          apply not_elem_of_dom in Hx.
          apply elem_of_union in Hx1 as [Hx1|Hx1]; [|done].
          by apply elem_of_singleton in Hx1. }
        destruct (Request_orders _ _ _ _ _ _ _ _ _ _ HR H1)
          as [(a1 & Ha1 & E1)|[Hno1 E1]],
           (Request_orders _ _ _ _ _ _ _ _ _ _ HR H2)
          as [(a2 & Ha2 & E2)|[Hno2 E2]].
        -- eapply Hords; [done..|congruence].
        -- pose proof (wf_order _ Hwf _ _ Ha1). lia.
        -- pose proof (wf_order _ Hwf _ _ Ha2). lia.
        -- rewrite (Hnew l1), (Hnew l2); eauto.
      * rewrite Es, Hperm. simpl. apply NoDup_cons. split; [|done].
        intros [Hin|Hin]%elem_of_app.
        -- apply (wfHeap_in _ _ _ (wf_heap _ Hwf)) in Hin.
           rewrite Hl in Hin. by destruct Hin.
        -- apply Hsobj in Hin. rewrite Hl in Hin. by destruct Hin.
      * rewrite Es. intros x Hx. apply elem_of_dom. rewrite Hdom.
        apply elem_of_union_r, elem_of_dom. auto.
      * by rewrite Es, Ew.
      * rewrite Es, Ew, En. intros x Hx. apply Hchlt in Hx. lia.
  - unfold WorkOnRequest in Hc. case_decide; [|done].
    injection Hc as <-. split; simpl; try done; [|lia| |].
    + destruct Hwf. by split.
    + rewrite <- (assoc_L (++)). simpl.
      rewrite <- Permutation_middle. apply NoDup_cons. split; [|done].
      intros Hin%Hchlt. lia.
    + intros ch [[Hin|Hin]%elem_of_app|Hin]%elem_of_app.
      * assert (ch < nextCh q)%nat; [|lia]. apply Hchlt, elem_of_app. auto.
      * apply list_elem_of_singleton in Hin. lia.
      * assert (ch < nextCh q)%nat; [|lia]. apply Hchlt, elem_of_app. auto.
  - injection Hc as <-.
    split; simpl; try done; [by apply wf_FinalizeRequest|lia].
  - assert (notifying q ≠ 0%nat) as Hn0.
    { unfold notifyWorker_run in Hc. by destruct (notifying q). }
    destruct (workerQueue q) as [|ch ws] eqn:Hw.
    { unfold notifyWorker_run in Hc. rewrite Hw in Hc.
      by destruct (notifying q). }
    destruct (heap q) as [|l0 h'] eqn:Hh; [done|].
    destruct (notifyWorker_run_spec q ch ws l0 h' Hwf Hw Hh Hn0)
      as (br & q2 & Hrun & Hwf' & Hbr & Hh' & Hw' & Hn' & Hs' & Hc' & Hl0
          & Hinv).
    rewrite Hc in Hrun. injection Hrun as <-.
    assert (nextCh q' = nextCh q) as Hnext.
    { unfold notifyWorker_run in Hc. rewrite Hw, Hh in Hc.
      destruct (notifying q); [done|]. simpl in Hc. by injection Hc as <-. }
    assert (dom (objs q') = dom (objs q)) as Hdom.
    { unfold notifyWorker_run in Hc. rewrite Hw, Hh in Hc.
      destruct (notifying q); [done|]. simpl in Hc. injection Hc as <-.
      simpl. by rewrite reindexFrom_dom, dom_alter_L. }
    split; [done| | | | | | |].
    + rewrite Hn', Hnot, Hh'. done.
    + rewrite Hc'. lia.
    + intros l1 l2 b1 b2 H1 H2 Heq.
      apply Hinv in H1 as (a1 & i1 & H1 & ->).
      apply Hinv in H2 as (a2 & i2 & H2 & ->). by eapply Hords.
    + rewrite Hh', Hs', fmap_app. simpl.
      rewrite (assoc_L (++)), <- Permutation_cons_append.
      exact Hsent.
    + rewrite Hs', fmap_app. simpl.
      intros x Hx. apply elem_of_dom. rewrite Hdom. apply elem_of_dom.
      apply elem_of_app in Hx as [Hx|Hx]; [auto|].
      apply list_elem_of_singleton in Hx as ->. by eexists.
    + rewrite Hw', Hs', fmap_app. simpl.
      rewrite (assoc_L (++)), <- Permutation_cons_append.
      exact Hch.
    + rewrite Hw', Hs', fmap_app, Hnext. simpl. intros x Hx.
      apply Hchlt. rewrite (assoc_L (++)), <- Permutation_cons_append in Hx.
      exact Hx.
Qed.

Lemma doCalls_reached cs : ∀ k q q',
  reached k q → (N.of_nat (k + length cs) < 2 ^ 64)%N →
  doCalls q cs = Some q' → reached (k + length cs) q'.
Proof.
  induction cs as [|c cs IH]; intros k q q' Hq Hk Hrun; simpl in *.
  - injection Hrun as <-. by rewrite Nat.add_0_r.
  - destruct (doCall q c) as [q1|] eqn:Hc; [|done]. simpl in Hrun.
    replace (k + S (length cs))%nat with (S k + length cs)%nat in * by lia.
    eapply IH; [|done|done]. eapply reached_step; [done|lia|done].
Qed.

(** X10.  However a queue was used since [newBlockRetrievalQueue], there
    are as many goroutines of [notifyWorker] waiting as retrievals on the
    heap, so that [heap.Pop] never meets an empty heap; and the goroutine
    that runs next hands the first queued worker the retrieval of the
    highest priority, the oldest among those of that priority, and marks
    it as off the heap. *)
Theorem notifyWorker_hands_out_first n cs q :
  (N.of_nat (length cs) < 2 ^ 64)%N →
  doCalls (newBlockRetrievalQueue n) cs = Some q →
  notifying q = length (heap q) ∧
  ∀ ch ws, workerQueue q = ch :: ws → heap q ≠ [] →
    ∃ l br q',
      notifyWorker_run q = Some q' ∧
      heap q = l :: heap q' ∧
      objs q !! l = Some br ∧
      objs q' !! l = Some (setIndex (-1) br) ∧
      sent q' = sent q ++ [(ch, l)] ∧
      ∀ l' br', l' ∈ heap q' → objs q !! l' = Some br' →
        priority br' < priority br ∨
        priority br' = priority br ∧
        (insertionOrder br < insertionOrder br')%N.
Proof.
  intros Hlen Hrun.
  destruct (doCalls_reached cs 0 _ q (reached_new n) Hlen Hrun)
    as [Hwf Hnot _ Hords _ _ _ _].
  split; [done|]. intros ch ws Hw Hne.
  destruct (heap q) as [|l h'] eqn:Hh; [done|].
  destruct (notifyWorker_run_spec q ch ws l h' Hwf Hw Hh)
    as (br & q' & Hpop & _ & Hbr & Hh' & _ & _ & Hsent & _ & Hl & _).
  { by rewrite Hnot. }
  exists l, br, q'. rewrite Hh'. split_and!; try done.
  intros l' br' Hin Hbr'.
  pose proof (wf_heap _ Hwf) as Hheap.
  pose proof (wf_sorted _ _ Hheap) as Hs. rewrite Hh in Hs.
  unfold sortedAt in Hs. rewrite fmap_cons in Hs.
  apply StronglySorted_inv in Hs as [_ Hs].
  rewrite Forall_forall in Hs.
  assert (keyLe (keyAt (objs q) l) (keyAt (objs q) l')) as Hle.
  { apply Hs. by apply list_elem_of_fmap_2. }
  unfold keyAt in Hle. rewrite Hbr, Hbr' in Hle. simpl in Hle.
  assert (l ≠ l') as Hll.
  { pose proof (wf_nodup _ _ Hheap) as Hnd. rewrite Hh in Hnd.
    apply NoDup_cons in Hnd as [Hnin _]. by intros ->. }
  assert (insertionOrder br ≠ insertionOrder br') as Hio.
  { intros Heq. by apply Hll, (Hords l l' br br'). }
  unfold keyLe, keyLess, key in Hle. simpl in Hle.
  destruct (Z.eqb_spec (priority br') (priority br)) as [Hp|Hp].
  - right. split; [done|]. apply N.ltb_ge in Hle. lia.
  - left. apply Z.ltb_ge in Hle. lia.
Qed.

(** X11.  After [FinalizeRequest] a request for the same pointer starts a
    retrieval of its own, whether or not the finalized one was handed to
    a worker: a new retrieval with this single request is stored for the
    pointer and pushed on the heap, one more goroutine of [notifyWorker]
    is started, and the retrievals that were there, the finalized one
    among them, keep their requests and priorities. *)
Theorem Request_after_FinalizeRequest n cs q c prio k ptr b :
  (N.of_nat (S (length cs)) < 2 ^ 64)%N →
  doCalls (newBlockRetrievalQueue n) cs = Some q →
  ∃ q' l i',
    Request (FinalizeRequest q ptr) c prio k ptr b = Some (nextCh q, q') ∧
    objs q !! l = None ∧
    ptrs q' = <[ptr := l]> (ptrs q) ∧
    objs q' !! l =
      Some (mkRetrieval ptr k [mkRequest c b (nextCh q)] i' prio
              (insertionCount q)) ∧
    heap q' ≡ₚ l :: heap q ∧
    notifying q' = S (notifying q) ∧
    ∀ l0 br0, objs q !! l0 = Some br0 →
      ∃ i, objs q' !! l0 = Some (setIndex i br0).
Proof.
  intros Hlen Hrun.
  destruct (doCalls_reached cs 0 _ q (reached_new n)) as [Hwf _ Hcount _ _ _ _ _];
    [simpl; lia|done|].
  destruct (Request_fresh (FinalizeRequest q ptr) c prio k ptr b)
    as (q' & l & i' & HR & Hwf' & Hl & Hp & _ & _ & Hn & Hperm & _ & Ho);
    [by apply wf_FinalizeRequest|apply lookup_delete_eq|simpl in *; lia|].
  simpl in *. exists q', l, i'. split_and!; try done.
  - rewrite Hp. apply insert_delete_eq.
  - intros l0 br0 Hl0.
    eapply (Request_others (FinalizeRequest q ptr)); [done|done|].
    simpl. by rewrite lookup_delete_eq.
Qed.

(** X12.  No retrieval is handed out twice and no worker channel is sent
    to twice: the retrievals sent to workers are distinct, off the heap
    (with [index] -1), and were sent on distinct channels, none of which
    is still queued. *)
Theorem retrievals_sent_once n cs q :
  (N.of_nat (length cs) < 2 ^ 64)%N →
  doCalls (newBlockRetrievalQueue n) cs = Some q →
  NoDup (snd <$> sent q) ∧ NoDup (fst <$> sent q) ∧
  ∀ ch l, (ch, l) ∈ sent q →
    (ch ∉ workerQueue q) ∧ (l ∉ heap q) ∧
    ∃ br, objs q !! l = Some br ∧ index br = -1.
Proof.
  intros Hlen Hrun.
  destruct (doCalls_reached cs 0 _ q (reached_new n) Hlen Hrun)
    as [Hwf _ _ _ Hsent Hsobj Hch _].
  apply NoDup_app in Hsent as (_ & Hdisj & Hnd).
  apply NoDup_app in Hch as (_ & Hdisj' & Hnd').
  split_and!; [done|done|]. intros ch l Hin.
  assert (l ∈ snd <$> sent q) as Hl
    by (by apply (list_elem_of_fmap_2 snd) in Hin).
  assert (ch ∈ fst <$> sent q) as Hc
    by (by apply (list_elem_of_fmap_2 fst) in Hin).
  assert (l ∉ heap q) as Hnin by (intros ?; by eapply Hdisj).
  split_and!; [intros ?; by eapply Hdisj'|done|].
  destruct (Hsobj l Hl) as [br Hbr]. exists br. split; [done|].
  by eapply (wf_off _ _ (wf_heap _ Hwf)).
Qed.

End RunFacts.

Lemma notifyWorker_hands_out_first_witness :
  let q := afterCalls twoQueued in
  notifying q = length (heap q) ∧
  ∀ ch ws, workerQueue q = ch :: ws → heap q ≠ [] →
    ∃ l br q',
      notifyWorker_run q = Some q' ∧
      heap q = l :: heap q' ∧
      objs q !! l = Some br ∧
      objs q' !! l = Some (setIndex (-1) br) ∧
      sent q' = sent q ++ [(ch, l)] ∧
      ∀ l' br', l' ∈ heap q' → objs q !! l' = Some br' →
        priority br' < priority br ∨
        priority br' = priority br ∧
        (insertionOrder br < insertionOrder br')%N.
Proof.
  intros q.
  apply (notifyWorker_hands_out_first 1 twoQueued q);
    [by vm_compute|vm_compute; reflexivity].
Defined.

Lemma Request_after_FinalizeRequest_witness :
  let q := afterCalls (twoQueued ++ [RunNotifyWorker]) in
  ∃ q' l i',
    Request (FinalizeRequest q P2) tt 3 tt P2 tt = Some (nextCh q, q') ∧
    objs q !! l = None ∧
    ptrs q' = <[P2 := l]> (ptrs q) ∧
    objs q' !! l =
      Some (mkRetrieval P2 tt [mkRequest tt tt (nextCh q)] i' 3
              (insertionCount q)) ∧
    heap q' ≡ₚ l :: heap q ∧
    notifying q' = S (notifying q) ∧
    ∀ l0 br0, objs q !! l0 = Some br0 →
      ∃ i, objs q' !! l0 = Some (setIndex i br0).
Proof.
  intros q.
  apply (Request_after_FinalizeRequest 1 (twoQueued ++ [RunNotifyWorker]) q);
    [by vm_compute|vm_compute; reflexivity].
Defined.

Lemma retrievals_sent_once_witness :
  let q := afterCalls (twoQueued ++ [RunNotifyWorker]) in
  NoDup (snd <$> sent q) ∧ NoDup (fst <$> sent q) ∧
  ∀ ch l, (ch, l) ∈ sent q →
    (ch ∉ workerQueue q) ∧ (l ∉ heap q) ∧
    ∃ br, objs q !! l = Some br ∧ index br = -1.
Proof.
  intros q.
  apply (retrievals_sent_once 1 (twoQueued ++ [RunNotifyWorker]) q);
    [by vm_compute|vm_compute; reflexivity].
Defined.

End BrqFacts.

(** ** Quota reclamation *)

Module FbmFacts.
Import Fbm.

Lemma wrapS64_small z : - 2 ^ 63 ≤ z < 2 ^ 63 → wrapS64 z = z.
Proof. intros Hz. unfold wrapS64. rewrite Z.mod_small; lia. Qed.

Lemma wrapS64_add_sub g k :
  - 2 ^ 63 ≤ k < 2 ^ 63 → wrapS64 (wrapS64 (g + k) - g) = k.
Proof.
  intros Hk. unfold wrapS64.
  replace ((g + k + 2 ^ 63) mod 2 ^ 64 - 2 ^ 63 - g + 2 ^ 63)
    with ((g + k + 2 ^ 63) mod 2 ^ 64 - g) by lia.
  rewrite Zminus_mod_idemp_l.
  replace (g + k + 2 ^ 63 - g) with (k + 2 ^ 63) by lia.
  rewrite Z.mod_small; lia.
Qed.

Lemma capRevisions_le m g :
  wrapS64 ((capRevisions m g).1 - g) ≤ numMaxRevisionsPerQR.
Proof.
  unfold capRevisions.
  destruct (Z.ltb_spec numMaxRevisionsPerQR (wrapS64 (m - g))); simpl.
  - rewrite wrapS64_add_sub; [done|]. unfold numMaxRevisionsPerQR. lia.
  - done.
Qed.

(** [earliestAbove] is the least of [latestRev] and the revisions that
    start before [threshStart]. *)
Lemma earliestAbove_spec t es L :
  let r := earliestAbove t es L in
  r ≤ L ∧
  (r = L ∨ ∃ i, (r, i) ∈ es ∧ Z.of_nat i < t) ∧
  (∀ rev i, (rev, i) ∈ es → Z.of_nat i < t → r ≤ rev).
Proof.
  unfold earliestAbove. revert L.
  induction es as [|[rev0 i0] es IH]; intros L; simpl.
  - split_and!; [lia|by left|]. intros ?? Hin. by apply elem_of_nil in Hin.
  - set (L' := if (Z.of_nat i0 <? t) && (rev0 <? L) then rev0 else L).
    destruct (IH L') as (Hle & Hor & Hmin).
    assert (L' ≤ L) as HL'
      by (unfold L'; destruct (Z.ltb_spec (Z.of_nat i0) t),
            (Z.ltb_spec rev0 L); simpl; lia).
    split_and!.
    + lia.
    + destruct Hor as [Hr|(i & Hin & Hi)].
      * rewrite Hr. unfold L'.
        destruct (Z.ltb_spec (Z.of_nat i0) t), (Z.ltb_spec rev0 L); simpl;
          try (by left).
        right. exists i0. split; [by left|done].
      * right. exists i. split; [by right|done].
    + intros rev i Hin Hi. apply elem_of_cons in Hin as [[= -> ->]|Hin].
      * assert (L' ≤ rev0); [|lia]. unfold L'.
        destruct (Z.ltb_spec (Z.of_nat i0) t), (Z.ltb_spec rev0 L); simpl;
          lia.
      * by eapply Hmin.
Qed.

(** The order in which the map is ranged over does not matter. *)
Lemma earliestAbove_perm t es es' L :
  es ≡ₚ es' → earliestAbove t es L = earliestAbove t es' L.
Proof.
  intros Hp.
  destruct (earliestAbove_spec t es L) as (Hle & Hor & Hmin).
  destruct (earliestAbove_spec t es' L) as (Hle' & Hor' & Hmin').
  cbv zeta in *. apply Z.le_antisymm.
  - destruct Hor' as [->|(i & Hin & Hi)]; [done|].
    eapply Hmin; [|done]. by rewrite Hp.
  - destruct Hor as [->|(i & Hin & Hi)]; [done|].
    eapply Hmin'; [|done]. by rewrite <-Hp.
Qed.

Lemma shortenRange_spec entries ptrs (pos : gmap Z nat) latestRev :
  entries ≡ₚ map_to_list pos →
  ∃ ptrs' latest' complete,
    shortenRange entries ptrs pos latestRev = (ptrs', latest', complete) ∧
    shortenRange (map_to_list pos) ptrs pos latestRev
      = (ptrs', latest', complete) ∧
    latest' ≤ latestRev ∧
    (complete = false ↔ latest' < latestRev) ∧
    (∀ rev i, pos !! rev = Some i →
       numPointersPerGCThreshold < Z.of_nat (length ptrs) - Z.of_nat i →
       latest' ≤ rev) ∧
    (latest' < latestRev →
       ∃ i, pos !! latest' = Some i ∧ ptrs' = drop i ptrs ∧
            numPointersPerGCThreshold < Z.of_nat (length ptrs')) ∧
    (latest' = latestRev → ptrs' = ptrs) ∧
    (Z.of_nat (length ptrs) ≤ numPointersPerGCThreshold →
       latest' = latestRev).
Proof.
  intros Hp. unfold shortenRange.
  rewrite <-(earliestAbove_perm _ entries (map_to_list pos)) by done.
  destruct (Z.ltb_spec numPointersPerGCThreshold (Z.of_nat (length ptrs)))
    as [Hlen|Hlen].
  - set (t := Z.of_nat (length ptrs) - numPointersPerGCThreshold).
    destruct (earliestAbove_spec t entries latestRev) as (Hle & Hor & Hmin).
    cbv zeta in *. set (r := earliestAbove t entries latestRev) in *.
    assert (∀ rev i, pos !! rev = Some i →
              numPointersPerGCThreshold
                < Z.of_nat (length ptrs) - Z.of_nat i → r ≤ rev) as Hmin'.
    { intros rev i Hi Hlt. apply (Hmin rev i); [|unfold t; lia].
      rewrite Hp. by apply elem_of_map_to_list. }
    destruct (Z.ltb_spec r latestRev) as [Hlt|Hge].
    + eexists _, _, _. split_and!; try done; try lia.
      intros _. destruct Hor as [->|(i & Hin & Hi)]; [lia|].
      rewrite Hp in Hin. apply elem_of_map_to_list in Hin.
      exists i. rewrite Hin. simpl. split_and!; [done|done|].
      rewrite length_drop. unfold t in Hi. lia.
    + assert (r = latestRev) as Hr by lia.
      eexists _, _, _. split_and!; try done; try lia.
      intros rev i Hi Hlt. rewrite <-Hr. by eapply Hmin'.
  - eexists _, _, _. split_and!; try done; try lia.
Qed.

Section ReclamationFacts.
Variables (MetadataRevisionUninitialized MetadataRevisionInitial : Z).
Variable maxMDsAtATime : Z.
Variable getMDRange : Z → Z → error + list RootMetadata.
Variable getMDForFBM : error + RootMetadata.
Variable GetCurrentUserInfo : option error.
Variable TruncateLock : error + bool.
Variable getMostRecentOldEnoughAndGCRevisions : RootMetadata → error + Z * Z.
Variable deleteBlockRefs :
  RootMetadata → list BlockPointer → error + list N.
Variable finalizeReclamation :
  list BlockPointer → list N → Z → option error.

Abbreviation getUnreferencedBlocks' :=
  (getUnreferencedBlocks MetadataRevisionUninitialized
     MetadataRevisionInitial maxMDsAtATime getMDRange).
Abbreviation doReclamation' :=
  (doReclamation MetadataRevisionUninitialized MetadataRevisionInitial
     maxMDsAtATime getMDRange getMDForFBM GetCurrentUserInfo TruncateLock
     getMostRecentOldEnoughAndGCRevisions deleteBlockRefs
     finalizeReclamation).

(** A run that reaches [finalizeReclamation] without error worked on the
    capped range and remembers what [getUnreferencedBlocks] said. *)
Lemma doReclamation_finalized fuel fbm r ptrs latestRev :
  doReclamation' fuel fbm = Some r →
  runErr r = None →
  runFinalized r = Some (ptrs, latestRev) →
  ∃ head m g complete,
    getMostRecentOldEnoughAndGCRevisions head = inr (m, g) ∧
    getUnreferencedBlocks' fuel (capRevisions m g).1 g
      = Some (ptrs, latestRev, complete, None) ∧
    lastQROldEnoughRev (runFbm r) = (capRevisions m g).1 ∧
    wasLastQRComplete (runFbm r) = complete.
Proof.
  unfold doReclamation. intros Hrun Herr Hfin.
  destruct getMDForFBM as [e|head]; [by simplify_eq|].
  destruct (readable head); [by simplify_eq|].
  destruct (negb (merged head)); [by simplify_eq|].
  destruct GetCurrentUserInfo; [by simplify_eq|].
  destruct (negb (isWriter head)); [by simplify_eq|].
  destruct (negb (isQRNecessary fbm head)); [by simplify_eq|].
  destruct TruncateLock as [e|[|]]; [by simplify_eq| |by simplify_eq].
  destruct (getMostRecentOldEnoughAndGCRevisions head) as [e|[m g]] eqn:Hrevs;
    [by simplify_eq|].
  destruct ((m =? MetadataRevisionUninitialized) || (m <=? g));
    [by simplify_eq|].
  destruct (capRevisions m g) as [m' shortened] eqn:Hcap.
  destruct (getUnreferencedBlocks _ _ _ _ fuel m' g)
    as [[[[ptrs0 latest0] complete] [e|]]|] eqn:Hget; [by simplify_eq| |done].
  destruct ((Z.of_nat (length ptrs0) =? 0) && negb shortened);
    [by simplify_eq|].
  destruct (deleteBlockRefs head ptrs0) as [e|zero]; [by simplify_eq|].
  injection Hrun as <-. simpl in *. injection Hfin as <- <-.
  rewrite Herr. simpl. exists head, m, g, complete. by rewrite Hcap.
Qed.

(** C8, as amended.  (1) After the cap the span of revisions of a run,
    [mostRecentOldEnoughRev - lastGCRev] in Go's arithmetic, is at most
    [numMaxRevisionsPerQR].  (2) The shortening of the range does not
    depend on the order in which the map is ranged over; the new latest
    revision is the oldest revision boundary that keeps more than
    [numPointersPerGCThreshold] pointers, or the given latest revision when
    no older boundary does (in particular when there are at most that many
    pointers); the pointers are cut to that boundary; and the result is
    incomplete exactly when the latest revision became older.  (3) A run
    that finalizes without error worked on the capped range and remembers
    the completeness that [getUnreferencedBlocks] returned, and after an
    incomplete one [isQRNecessary] holds for every head. *)
Theorem reclamation_bounded :
  (∀ m g, wrapS64 ((capRevisions m g).1 - g) ≤ numMaxRevisionsPerQR) ∧
  (∀ entries ptrs (pos : gmap Z nat) latestRev,
     entries ≡ₚ map_to_list pos →
     ∃ ptrs' latest' complete,
       shortenRange entries ptrs pos latestRev
         = (ptrs', latest', complete) ∧
       shortenRange (map_to_list pos) ptrs pos latestRev
         = (ptrs', latest', complete) ∧
       latest' ≤ latestRev ∧
       (complete = false ↔ latest' < latestRev) ∧
       (∀ rev i, pos !! rev = Some i →
          numPointersPerGCThreshold
            < Z.of_nat (length ptrs) - Z.of_nat i →
          latest' ≤ rev) ∧
       (latest' < latestRev →
          ∃ i, pos !! latest' = Some i ∧ ptrs' = drop i ptrs ∧
               numPointersPerGCThreshold < Z.of_nat (length ptrs')) ∧
       (latest' = latestRev → ptrs' = ptrs) ∧
       (Z.of_nat (length ptrs) ≤ numPointersPerGCThreshold →
          latest' = latestRev)) ∧
  (∀ fuel fbm r ptrs latestRev,
     doReclamation' fuel fbm = Some r →
     runErr r = None →
     runFinalized r = Some (ptrs, latestRev) →
     ∃ head m g complete,
       getMostRecentOldEnoughAndGCRevisions head = inr (m, g) ∧
       getUnreferencedBlocks' fuel (capRevisions m g).1 g
         = Some (ptrs, latestRev, complete, None) ∧
       lastQROldEnoughRev (runFbm r) = (capRevisions m g).1 ∧
       wasLastQRComplete (runFbm r) = complete ∧
       (complete = false → ∀ head', isQRNecessary (runFbm r) head' = true)).
Proof.
  split_and!.
  - apply capRevisions_le.
  - apply shortenRange_spec.
  - intros fuel fbm r ptrs latestRev Hrun Herr Hfin.
    destruct (doReclamation_finalized _ _ _ _ _ Hrun Herr Hfin)
      as (head & m & g & complete & Hrevs & Hget & Hold & Hcomp).
    exists head, m, g, complete. split_and!; try done.
    intros -> head'. unfold isQRNecessary. rewrite Hcomp. simpl.
    by rewrite orb_true_r.
Qed.

End ReclamationFacts.

(** C8, as stated, fails: the single revision unreferences 101 blocks, more
    than the threshold; the range is not shortened and the run is
    remembered as complete. *)
Lemma single_revision_stays_complete :
  ∃ ptrs r,
    getUnreferencedBlocks 0 1 10 oneRevision 5 1 0
      = Some (ptrs, 1, true, None) ∧
    numPointersPerGCThreshold < Z.of_nat (length ptrs) ∧
    oneRevisionRun = Some r ∧
    runErr r = None ∧
    runFinalized r = Some (ptrs, 1) ∧
    wasLastQRComplete (runFbm r) = true.
Proof.
  exists (ptrN <$> seq 1 101),
    (mkRun None (mkFbm 1 1 true) (Some (ptrN <$> seq 1 101, 1))).
  split_and!; by vm_compute.
Qed.

Lemma reclamation_bounded_witness :
  ∃ head m g complete,
    (fun _ : RootMetadata => inr (3, 0) : error + Z * Z) head = inr (m, g) ∧
    getUnreferencedBlocks 0 1 10 threeRevisions 5 (capRevisions m g).1 g
      = Some (ptrN <$> seq 61 60 ++ seq 1 60, 2, complete, None) ∧
    lastQROldEnoughRev (mkFbm 3 3 false) = (capRevisions m g).1 ∧
    wasLastQRComplete (mkFbm 3 3 false) = complete ∧
    (complete = false →
     ∀ head', isQRNecessary (mkFbm 3 3 false) head' = true).
Proof.
  destruct (reclamation_bounded 0 1 10 threeRevisions
              (inr (revOf 3 121 10)) None (inr true) (fun _ => inr (3, 0))
              (fun _ _ => inr []) (fun _ _ _ => None))
    as (_ & _ & Hrun).
  apply (Hrun 5%nat (mkFbm 0 0 true)
           (mkRun None (mkFbm 3 3 false) (Some (ptrN <$> seq 61 60 ++ seq 1 60, 2)))
           (ptrN <$> seq 61 60 ++ seq 1 60) 2).
  - vm_compute. reflexivity.
  - reflexivity.
  - reflexivity.
Defined.

(** *** Where the pointers of a reclamation come from, and what a run
    remembers *)

Section GatherFacts.
Variables (MetadataRevisionUninitialized MetadataRevisionInitial : Z).
Variable maxMDsAtATime : Z.
Variable getMDRange : Z → Z → error + list RootMetadata.
Variable getMDForFBM : error + RootMetadata.
Variable GetCurrentUserInfo : option error.
Variable TruncateLock : error + bool.
Variable getMostRecentOldEnoughAndGCRevisions : RootMetadata → error + Z * Z.
Variable deleteBlockRefs :
  RootMetadata → list BlockPointer → error + list N.
Variable finalizeReclamation :
  list BlockPointer → list N → Z → option error.

Abbreviation getUnreferencedBlocks' :=
  (getUnreferencedBlocks MetadataRevisionUninitialized
     MetadataRevisionInitial maxMDsAtATime getMDRange).
Abbreviation gatherLoop' :=
  (gatherLoop MetadataRevisionInitial maxMDsAtATime getMDRange).
Abbreviation doReclamation' :=
  (doReclamation MetadataRevisionUninitialized MetadataRevisionInitial
     maxMDsAtATime getMDRange getMDForFBM GetCurrentUserInfo TruncateLock
     getMostRecentOldEnoughAndGCRevisions deleteBlockRefs
     finalizeReclamation).

Lemma gatherOp_from (Q : BlockPointer → Prop) o ptrs :
  Forall Q ptrs → (∀ p, unrefdBy o p → Q p) → Forall Q (gatherOp ptrs o).
Proof.
  intros Hptrs Ho. unfold gatherOp.
  destruct (isGCOp o) eqn:Hgc; [done|].
  assert (∀ us acc,
    Forall Q acc → (∀ u, u ∈ us → u.2 ≠ u.1 → Q u.1) →
    Forall Q (fold_left
      (fun acc (u : BlockPointer * BlockPointer) =>
         if decide (u.2 ≠ u.1) then acc ++ [u.1] else acc) us acc)) as Hfold.
  { induction us as [|u us IH]; intros acc Hacc Hus; simpl; [done|].
    apply IH.
    - case_decide; [|done]. apply Forall_app. split; [done|].
      apply Forall_singleton. apply Hus; [by left|done].
    - intros u' Hin. apply Hus. by right. }
  apply Hfold.
  - apply Forall_app. split; [done|]. apply Forall_forall.
    intros p Hp. apply Ho. split; [done|by left].
  - intros [p r] Hin Hne. simpl in *. apply Ho. split; [done|].
    right. by exists r.
Qed.

Lemma gatherOps_from (Q : BlockPointer → Prop) ops : ∀ ptrs,
  Forall Q ptrs → (∀ o p, o ∈ ops → unrefdBy o p → Q p) →
  Forall Q (fold_left gatherOp ops ptrs).
Proof.
  induction ops as [|o ops IH]; intros ptrs Hptrs Hops; simpl; [done|].
  apply IH.
  - apply gatherOp_from; [done|]. intros p. apply Hops. by left.
  - intros o' p Hin. apply Hops. by right.
Qed.

Lemma gatherBatch_from (Q : BlockPointer → Prop) rmds earliestRev :
  ∀ ptrs pos brk ptrs' pos',
  gatherBatch rmds earliestRev ptrs pos = (brk, ptrs', pos') →
  Forall Q ptrs →
  (∀ rmd o p, rmd ∈ rmds → earliestRev < Revision rmd → o ∈ Ops rmd →
     unrefdBy o p → Q p) →
  Forall Q ptrs'.
Proof.
  induction rmds as [|rmd rmds IH]; intros ptrs pos brk ptrs' pos' Hg Hp HQ;
    simpl in Hg.
  - by injection Hg as _ <- _.
  - destruct (Z.leb_spec (Revision rmd) earliestRev) as [Hle|Hlt].
    + by injection Hg as _ <- _.
    + eapply IH; [done| |].
      * apply gatherOps_from; [done|]. intros o p Ho.
        apply (HQ rmd); [by left|lia|done].
      * intros rmd' o p Hin. apply HQ. by right.
Qed.

Lemma gatherLoop_from (Q : BlockPointer → Prop) earliestRev fuel :
  ∀ currHead ptrs pos ptrs' pos',
  gatherLoop' fuel currHead earliestRev ptrs pos = Some (inr (ptrs', pos')) →
  Forall Q ptrs →
  (∀ s e rmds rmd o p, getMDRange s e = inr rmds → rmd ∈ rmds →
     earliestRev < Revision rmd → o ∈ Ops rmd → unrefdBy o p → Q p) →
  Forall Q ptrs'.
Proof.
  induction fuel as [|fuel IH]; intros currHead ptrs pos ptrs' pos' Hg Hp HQ;
    simpl in Hg; [done|].
  match type of Hg with
  | context [getMDRange ?s ?e] =>
      destruct (getMDRange s e) as [err|rmds] eqn:Hrange; [done|]
  end.
  destruct (gatherBatch (reverse rmds) earliestRev ptrs pos)
    as [[brk ptrs1] pos1] eqn:Hbatch.
  assert (Forall Q ptrs1) as Hp1.
  { eapply gatherBatch_from; [done|done|].
    intros rmd o p Hin. eapply HQ; [done|]. by apply elem_of_reverse. }
  destruct brk; [by injection Hg as <- _|].
  match type of Hg with
  | (if ?c then _ else _) = _ => destruct c
  end; [by injection Hg as <- _|].
  by eapply IH.
Qed.

(** X13.  The reclamation only takes pointers that a revision after
    [earliestRev] unreferences: every pointer that
    [getUnreferencedBlocks] returns is, for some revision that
    [getMDRange] returned and that is later than [earliestRev], among the
    [Unrefs()] of an operation that is not a [gcOp], or the [Unref] of
    one of its updates whose [Ref] is a different pointer. *)
Theorem getUnreferencedBlocks_only_unrefs fuel latestRev earliestRev ptrs
    lastRevConsidered complete err p :
  getUnreferencedBlocks MetadataRevisionUninitialized MetadataRevisionInitial
    maxMDsAtATime getMDRange fuel latestRev earliestRev
    = Some (ptrs, lastRevConsidered, complete, err) →
  p ∈ ptrs →
  ∃ startRev endRev rmds rmd o,
    getMDRange startRev endRev = inr rmds ∧ rmd ∈ rmds ∧
    earliestRev < Revision rmd ∧ o ∈ Ops rmd ∧ isGCOp o = false ∧
    (p ∈ Unrefs o ∨ ∃ r, (p, r) ∈ AllUpdates o ∧ r ≠ p).
Proof.
  unfold getUnreferencedBlocks. intros Hget Hin.
  destruct (latestRev <=? earliestRev).
  { injection Hget as <- _ _ _. by apply elem_of_nil in Hin. }
  destruct (gatherLoop _ _ _ fuel latestRev earliestRev [] ∅)
    as [[e|[ptrs0 pos]]|] eqn:Hloop; [| |done].
  { injection Hget as <- _ _ _. by apply elem_of_nil in Hin. }
  set (Q := fun p => ∃ startRev endRev rmds rmd o,
    getMDRange startRev endRev = inr rmds ∧ rmd ∈ rmds ∧
    earliestRev < Revision rmd ∧ o ∈ Ops rmd ∧ isGCOp o = false ∧
    (p ∈ Unrefs o ∨ ∃ r, (p, r) ∈ AllUpdates o ∧ r ≠ p)).
  assert (Forall Q ptrs0) as H0.
  { eapply gatherLoop_from; [done|done|].
    intros s e rmds rmd o q Hr Hrmd Hrev Ho [Hgc Hq].
    by exists s, e, rmds, rmd, o. }
  rewrite Forall_forall in H0. apply H0.
  unfold shortenRange in Hget.
  destruct (numPointersPerGCThreshold <? Z.of_nat (length ptrs0));
    [|by injection Hget as <- _ _ _].
  match type of Hget with
  | context [if ?c then _ else _] => destruct c
  end; [|by injection Hget as <- _ _ _].
  injection Hget as <- _ _ _. by eapply subseteq_drop.
Qed.

(** X14.  What a run of [doReclamation] remembers.  A run that returns
    an error leaves [lastQRHeadRev], [lastQROldEnoughRev] and
    [wasLastQRComplete] as they were, also when blocks were deleted
    before the error.  A run that returns no error remembers the revision
    of the head; and when it remembers a complete run, the next run with
    the same head returns at once, without taking the truncate lock,
    unless the head was not reclaimable then and is old enough now. *)
Theorem doReclamation_remembers fuel fbm r :
  doReclamation MetadataRevisionUninitialized MetadataRevisionInitial
    maxMDsAtATime getMDRange getMDForFBM GetCurrentUserInfo TruncateLock
    getMostRecentOldEnoughAndGCRevisions deleteBlockRefs
    finalizeReclamation fuel fbm = Some r →
  match runErr r with
  | Some _ => runFbm r = fbm
  | None =>
      ∃ head,
        getMDForFBM = inr head ∧
        lastQRHeadRev (runFbm r) = Revision head ∧
        (wasLastQRComplete (runFbm r) = true →
         (lastQROldEnoughRev (runFbm r) <? Revision head) && oldEnough head
           = false →
         ∀ fuel',
           doReclamation' fuel' (runFbm r) = Some (mkRun None (runFbm r) None))
  end.
Proof.
  intros Hrun.
  assert (∀ head fbm', getMDForFBM = inr head → readable head = None →
    negb (merged head) = false → GetCurrentUserInfo = None →
    negb (isWriter head) = false →
    lastQRHeadRev fbm' = Revision head →
    wasLastQRComplete fbm' = true →
    (lastQROldEnoughRev fbm' <? Revision head) && oldEnough head = false →
    ∀ fuel', doReclamation' fuel' fbm' = Some (mkRun None fbm' None)) as Hagain.
  { intros head fbm' Hhead Hread Hmerged Huser Hwriter Hrev Hcomp Hold fuel'.
    unfold doReclamation. rewrite Hhead, Hread, Hmerged, Huser, Hwriter.
    unfold isQRNecessary. rewrite Hrev, Hcomp, Z.eqb_refl. simpl.
    by rewrite Hold. }
  unfold doReclamation in Hrun.
  destruct getMDForFBM as [e|head] eqn:Hhead; [by injection Hrun as <-|].
  destruct (readable head) eqn:Hread; [by injection Hrun as <-|].
  destruct (negb (merged head)) eqn:Hmerged; [by injection Hrun as <-|].
  destruct GetCurrentUserInfo eqn:Huser; [by injection Hrun as <-|].
  destruct (negb (isWriter head)) eqn:Hwriter; [by injection Hrun as <-|].
  assert (∀ rev complete err fin,
    mkRun err (rememberQR fbm head rev complete err) fin = r →
    match runErr r with
    | Some _ => runFbm r = fbm
    | None =>
        ∃ head0,
          (inr head : error + RootMetadata) = inr head0 ∧
          lastQRHeadRev (runFbm r) = Revision head0 ∧
          (wasLastQRComplete (runFbm r) = true →
           (lastQROldEnoughRev (runFbm r) <? Revision head0)
             && oldEnough head0 = false →
           ∀ fuel',
             doReclamation MetadataRevisionUninitialized
               MetadataRevisionInitial maxMDsAtATime getMDRange (inr head)
               None TruncateLock getMostRecentOldEnoughAndGCRevisions
               deleteBlockRefs finalizeReclamation fuel' (runFbm r)
             = Some (mkRun None (runFbm r) None))
    end) as Hdone.
  { intros rev complete [e|] fin <-; simpl; [done|].
    exists head. split_and!; [done|done|]. intros Hc Hold.
    by apply (Hagain head). }
  destruct (negb (isQRNecessary fbm head)) eqn:Hnec.
  { injection Hrun as <-. simpl. exists head. 
    unfold isQRNecessary in Hnec.
    destruct (Z.eqb_spec (Revision head) (lastQRHeadRev fbm)) as [Hrev|];
      [|done].
    destruct (wasLastQRComplete fbm) eqn:Hcomp; [|done]. simpl in Hnec.
    split_and!; [done|done|]. intros _ Hold. by apply (Hagain head). }
  destruct TruncateLock as [e|[|]]; [by injection Hrun as <-| |by injection Hrun as <-].
  destruct (getMostRecentOldEnoughAndGCRevisions head) as [e|[m g]];
    [by injection Hrun as <-|].
  destruct ((m =? MetadataRevisionUninitialized) || (m <=? g)).
  { injection Hrun as Hr. exact (Hdone _ _ _ _ Hr). }
  destruct (capRevisions m g) as [m' shortened].
  destruct (getUnreferencedBlocks _ _ _ _ fuel m' g)
    as [[[[ptrs0 latest0] complete] [e|]]|]; [by injection Hrun as <-| |done].
  destruct ((Z.of_nat (length ptrs0) =? 0) && negb shortened).
  { injection Hrun as Hr. exact (Hdone _ _ _ _ Hr). }
  destruct (deleteBlockRefs head ptrs0) as [e|zero]; [by injection Hrun as <-|].
  injection Hrun as Hr. exact (Hdone _ _ _ _ Hr).
Qed.

End GatherFacts.

(** *** The chunks of a downgrade *)

Lemma sendChunks_spec ptrs : ∀ fuel start sent,
  Z.of_nat (length ptrs) + numPointersToDowngradePerChunk < 2 ^ 63 →
  0 ≤ start < Z.of_nat (length ptrs) + numPointersToDowngradePerChunk →
  Z.max 0 (Z.of_nat (length ptrs) - start) < Z.of_nat fuel →
  ∃ new,
    sendChunks fuel ptrs start sent = Done (sent ++ new) ∧
    concat new = drop (Z.to_nat start) ptrs ∧
    Z.of_nat (length new)
      = (Z.of_nat (length ptrs) - start + 19) / 20 ∧
    (∀ i c, new !! i = Some c →
       (0 < length c ≤ 20)%nat ∧
       (S i < length new → length c = 20%nat))%nat.
Proof.
  unfold numPointersToDowngradePerChunk.
  change (2 ^ 63) with 9223372036854775808.
  induction fuel as [|fuel IH]; intros start sent Hn Hstart Hfuel; [lia|].
  simpl. unfold numPointersToDowngradePerChunk.
  set (n := Z.of_nat (length ptrs)) in *.
  destruct (Z.ltb_spec start n) as [Hlt|Hge].
  - rewrite (wrapS64_small (start + 20))
      by (change (2 ^ 63) with 9223372036854775808; lia).
    set (e := if n <? start + 20 then n else start + 20).
    assert (start < e ≤ n ∧ e ≤ start + 20 ∧ (e < start + 20 → e = n))
      as (He1 & He2 & He3).
    { unfold e. destruct (Z.ltb_spec n (start + 20)); lia. }
    replace ((0 <=? start) && (start <=? e) && (e <=? n)) with true
      by (symmetry; rewrite !andb_true_iff, !Z.leb_le; lia).
    set (c := take (Z.to_nat (e - start)) (drop (Z.to_nat start) ptrs)).
    destruct (IH (start + 20) (sent ++ [c])) as (new & Hrun & Hcat & Hlen & Hall);
      [lia|lia|lia|].
    assert (length c = Z.to_nat (e - start)) as Hc.
    { unfold c. rewrite length_take, length_drop. lia. }
    exists (c :: new). split_and!.
    + rewrite Hrun. by rewrite <- (assoc_L (++)).
    + simpl. rewrite Hcat. unfold c.
      destruct (decide (e = start + 20)) as [->|Hne].
      * replace (Z.to_nat (start + 20 - start)) with 20%nat by lia.
        replace (Z.to_nat (start + 20)) with (Z.to_nat start + 20)%nat by lia.
        rewrite <- drop_drop. apply take_drop.
      * assert (e = n) as -> by lia.
        rewrite (drop_ge ptrs (Z.to_nat (start + 20))) by lia.
        rewrite app_nil_r. apply take_ge. rewrite length_drop. lia.
    + simpl length. rewrite Nat2Z.inj_succ, Hlen.
      replace (n - start + 19) with ((n - (start + 20) + 19) + 1 * 20) by lia.
      rewrite Z.div_add by lia. lia.
    + intros [|i] c' Hi; simpl in Hi.
      * injection Hi as <-. split; [lia|]. simpl. intros Hmore.
        destruct (decide (e = start + 20)) as [->|Hne]; [lia|].
        assert (e = n) as He by lia.
        assert ((n - (start + 20) + 19) / 20 = 0) as H0
          by (apply Z.div_small; lia).
        lia.
      * destruct (Hall i c' Hi) as [H1 H2]. split; [done|].
        simpl. intros ?. apply H2. lia.
  - exists []. rewrite app_nil_r. split_and!; [done| | |done].
    + simpl. symmetry. apply drop_ge. lia.
    + simpl. symmetry. apply Z.div_small. lia.
Qed.

(** X15.  [doChunkedDowngrades] sends every pointer in exactly one
    chunk: the slices sent on [chunks], in order, make up [ptrs]; each
    has between 1 and 20 pointers and all but the last have 20; and
    there are [numChunks] of them, the capacity of the channel and the
    number of results collected.  No slice expression is out of range,
    and the loop ends within [len(ptrs)] turns. *)
Theorem doChunkedDowngrades_chunks ptrs fuel :
  Z.of_nat (length ptrs) + numPointersToDowngradePerChunk < 2 ^ 63 →
  (length ptrs < fuel)%nat →
  ∃ chunks,
    sendChunks fuel ptrs 0 [] = Done chunks ∧
    concat chunks = ptrs ∧
    Z.of_nat (length chunks) = numChunks (Z.of_nat (length ptrs)) ∧
    ∀ i c, chunks !! i = Some c →
      (0 < length c ≤ 20)%nat ∧
      (S i < length chunks → length c = 20%nat)%nat.
Proof.
  intros Hn Hfuel.
  destruct (sendChunks_spec ptrs fuel 0 [] Hn) as (new & Hrun & Hcat & Hlen & Hall).
  { unfold numPointersToDowngradePerChunk. lia. }
  { lia. }
  exists new. split_and!; [done|done| |done].
  rewrite Hlen. unfold numChunks, numPointersToDowngradePerChunk in *.
  change (2 ^ 63) with 9223372036854775808 in Hn.
  rewrite (wrapS64_small (Z.of_nat (length ptrs) + 20))
    by (change (2 ^ 63) with 9223372036854775808; lia).
  rewrite wrapS64_small by (change (2 ^ 63) with 9223372036854775808; lia).
  rewrite Z.quot_div_nonneg by lia. f_equal. lia.
Qed.

Lemma getUnreferencedBlocks_only_unrefs_witness :
  ∃ startRev endRev rmds rmd o,
    threeRevisions startRev endRev = inr rmds ∧ rmd ∈ rmds ∧
    0 < Revision rmd ∧ o ∈ Ops rmd ∧ isGCOp o = false ∧
    (ptrN 61 ∈ Unrefs o ∨ ∃ r, (ptrN 61, r) ∈ AllUpdates o ∧ r ≠ ptrN 61).
Proof.
  apply (getUnreferencedBlocks_only_unrefs 0 1 10 threeRevisions 5 3 0
           (ptrN <$> seq 61 60 ++ seq 1 60) 2 false None (ptrN 61)).
  - vm_compute. reflexivity.
  - vm_compute. left.
Defined.

Lemma doReclamation_remembers_witness :
  ∃ head,
    (inr rev1 : error + RootMetadata) = inr head ∧
    lastQRHeadRev (mkFbm 1 1 true) = Revision head ∧
    (wasLastQRComplete (mkFbm 1 1 true) = true →
     (lastQROldEnoughRev (mkFbm 1 1 true) <? Revision head) && oldEnough head
       = false →
     ∀ fuel',
       doReclamation 0 1 10 oneRevision (inr rev1) None (inr true)
         (fun _ => inr (1, 0)) (fun _ _ => inr []) (fun _ _ _ => None)
         fuel' (mkFbm 1 1 true)
       = Some (mkRun None (mkFbm 1 1 true) None)).
Proof.
  apply (doReclamation_remembers 0 1 10 oneRevision (inr rev1) None
           (inr true) (fun _ => inr (1, 0)) (fun _ _ => inr [])
           (fun _ _ _ => None) 5 (mkFbm 0 0 true)
           (mkRun None (mkFbm 1 1 true) (Some (ptrN <$> seq 1 101, 1)))).
  vm_compute. reflexivity.
Defined.

Lemma doChunkedDowngrades_chunks_witness :
  ∃ chunks,
    sendChunks 46 (ptrN <$> seq 1 45) 0 [] = Done chunks ∧
    concat chunks = ptrN <$> seq 1 45 ∧
    Z.of_nat (length chunks)
      = numChunks (Z.of_nat (length (ptrN <$> seq 1 45))) ∧
    ∀ i c, chunks !! i = Some c →
      (0 < length c ≤ 20)%nat ∧
      (S i < length chunks → length c = 20%nat)%nat.
Proof.
  apply (doChunkedDowngrades_chunks (ptrN <$> seq 1 45) 46).
  - by vm_compute.
  - simpl. lia.
Defined.

End FbmFacts.

(** ** Folder block operations *)

Module FboFacts.
Import Fbo.

(** C7 at a failing input: the one-byte file is extended to 1000000 with a
    hole, then truncated to 500000 twice.  All three calls return without
    error; after the first call of [Truncate 500000] the top block has
    three pointers, after the second it has four (a second right block at
    500000), whatever [writeDataLocked] does. *)
Lemma Truncate_into_hole_twice wdl :
  (fun w : World * World * World =>
     (dirtyOffsets w.1.1, dirtySize w.1.1,
      dirtyOffsets w.1.2, dirtySize w.1.2,
      dirtyOffsets w.2, dirtySize w.2)) <$> truncateThrice wdl
  = Some (Some [0; 1000000], Some 1000000,
          Some [0; 1000000; 500000], Some 500000,
          Some [0; 1000000; 500000; 500000], Some 500000).
Proof. vm_compute. reflexivity. Qed.

(** *** Running the monad step by step *)

Lemma bind_assoc {A B C} (m : M A) (k1 : A → M B) (k2 : B → M C) w :
  bind (bind m k1) k2 w = bind m (fun a => bind (k1 a) k2) w.
Proof. unfold bind. by destruct (m w) as [[] ?]. Qed.

Lemma bind_ret {A B} (a : A) (k : A → M B) w : bind (ret a) k w = k a w.
Proof. reflexivity. Qed.

Lemma bind_gets {A B} (f : World → A) (k : A → M B) w :
  bind (gets f) k w = k (f w) w.
Proof. reflexivity. Qed.

Lemma bind_modify {B} (f : World → World) (k : unit → M B) w :
  bind (modify f) k w = k tt (f w).
Proof. reflexivity. Qed.

Lemma bind_fail {A B} (e : error) (k : A → M B) w :
  bind (fail e) k w = (Err e, w).
Proof. reflexivity. Qed.

Lemma bind_panic {A B} (k : A → M B) w : bind panic k w = (Panic, w).
Proof. reflexivity. Qed.

Lemma bind_ok {A B} (m : M A) (k : A → M B) w a w1 :
  m w = (Ok a, w1) → bind m k w = k a w1.
Proof. unfold bind. by intros ->. Qed.

Lemma bind_err {A B} (m : M A) (k : A → M B) w e w1 :
  m w = (Err e, w1) → bind m k w = (Err e, w1).
Proof. unfold bind. by intros ->. Qed.

Ltac mcbn :=
  cbn [liftOpt liftSum blocks syncInfos bpss dirtyBcache unsyncedBytes
       totalBytes bcache dirtyFiles unrefCache deCache deferredWrites
       deferredDirtyDeletes doDeferWrite tempIDCalls forceSyncSent
       setBlocks setSyncInfos setBpss setDirtyBcache setUnsyncedBytes
       setBcache setDirtyFiles setUnrefCache setDeCache setDeferredWrites
       setDeferredDirtyDeletes setDoDeferWrite setTempIDCalls
       setForceSyncSent].

Ltac msteps :=
  repeat (mcbn;
          first [ rewrite bind_assoc | rewrite bind_gets
                | rewrite bind_modify | rewrite bind_ret
                | rewrite bind_fail | rewrite bind_panic ]);
  mcbn.

(** C2: what [revertSyncInfoAfterRecoverableError] does to the block
    states.  After [*si = *savedSi] both sync infos point to the same
    [blockPutState]; [si.bps.blockStates = nil] empties it, and the loop
    over [savedSi.bps.blockStates] that should keep the good blocks runs
    over the empty list: no block state is kept. *)
Lemma revert_keeps_no_block_state blocksToRemove si savedSi w saved b bs :
  syncInfos w !! savedSi = Some saved →
  bps saved = Some b →
  bpss w !! b = Some bs →
  ∃ w',
    revertSyncInfoAfterRecoverableError blocksToRemove si savedSi w
      = (Ok tt, w') ∧
    syncInfos w' !! si = Some saved ∧
    bpss w' !! b = Some (mkBlockPutState []).
Proof.
  intros Hsaved Hb Hbs.
  assert (<[si:=saved]> (syncInfos w) !! savedSi = Some saved) as Hsaved'.
  { destruct (decide (si = savedSi)) as [->|Hne].
    - by rewrite lookup_insert_eq.
    - by rewrite lookup_insert_ne. }
  unfold revertSyncInfoAfterRecoverableError, readSyncInfo.
  msteps. rewrite Hsaved. msteps. rewrite lookup_insert_eq.
  msteps. rewrite Hb. msteps. rewrite Hsaved'. msteps. rewrite Hb.
  msteps. rewrite lookup_insert_eq. msteps.
  eexists. split; [done|]. cbn. by rewrite !lookup_insert_eq.
Qed.

Lemma revert_keeps_no_block_state_witness :
  ∃ w',
    revertSyncInfoAfterRecoverableError [ptrN 12] 0 1 retriedSync
      = (Ok tt, w') ∧
    syncInfos w' !! 0%nat
      = Some (mkSyncInfo (mkBlockInfo filePtr 10) (newSyncOp filePtr) []
                (Some 1%nat) 0 0) ∧
    bpss w' !! 1%nat = Some (mkBlockPutState []).
Proof.
  apply (revert_keeps_no_block_state [ptrN 12] 0 1 retriedSync _ 1%nat
           (mkBlockPutState
              [mkBlockState (ptrN 11) 11; mkBlockState (ptrN 12) 12]));
    reflexivity.
Defined.

(** C2 at a failing input: the retried sync fails with a recoverable
    error and [ptrN 12] is the block to remove.  The saved copy holds
    [ptrN 11] and [ptrN 12], so [ptrN 11] should be kept; after
    [CleanupSyncState] the sync info of the file holds no block state. *)
Lemma CleanupSyncState_drops_good_block :
  blockStatesOf retriedSync
    = Some [mkBlockState (ptrN 11) 11; mkBlockState (ptrN 12) 12;
            mkBlockState (ptrN 13) 13] ∧
  isRecoverableBlockError testConfig (OtherError 7) = true ∧
  blockStatesOf <$>
    after (CleanupSyncState testConfig noDeadline filePath [ptrN 12]
             retriedSyncState (Some (OtherError 7)) retriedSync)
  = Some (Some []).
Proof. split_and!; by vm_compute. Qed.

(** *** Admission budget of Write and Truncate *)

Lemma withDefer_modify {A} (f : World → World) (body : M A) w r w' :
  withDefer (modify f) body w = (r, w') →
  r ≠ OutOfFuel →
  ∃ wb, body w = (r, wb) ∧ w' = f wb.
Proof.
  unfold withDefer, modify. destruct (body w) as [[a|e| |] wb]; simpl;
    intros [= <- <-] Hr; try done; by exists wb.
Qed.

Section Admission.
Variable cfg : Config.
Variable writeDataLocked :
  Context → RootMetadata → Path → list byte → Z
  → M (WriteRange * list BlockPointer * Z).
Variable RequestPermissionToDirty : Context → Z → M nat.
Variable maybeWaitOnDeferredWrites : Context → nat → nat → M unit.
Variable PathFromNode : nat → Path.

Abbreviation Write' :=
  (Write writeDataLocked RequestPermissionToDirty maybeWaitOnDeferredWrites
     PathFromNode).
Abbreviation writeAdmitted' :=
  (writeAdmitted writeDataLocked maybeWaitOnDeferredWrites PathFromNode).
Abbreviation Truncate' :=
  (Truncate cfg writeDataLocked RequestPermissionToDirty
     maybeWaitOnDeferredWrites PathFromNode).
Abbreviation truncateAdmitted' :=
  (truncateAdmitted cfg writeDataLocked maybeWaitOnDeferredWrites
     PathFromNode).

(** C10.  Whenever [Write] returns (a value, an error or a panic), and
    [RequestPermissionToDirty] had granted the permit, the world is the
    one in which the admitted part of the operation ended, with
    [len(data)] subtracted from the unsynced bytes of the dirty-block
    cache, on every path of that part; when the request itself failed
    nothing is subtracted.  The same holds for [Truncate] and
    [int64(size)], which is [size] below 2^63. *)
Theorem admission_budget_returned :
  (∀ ctx md file data off w r w',
     Write' ctx md file data off w = (r, w') →
     r ≠ OutOfFuel →
     match RequestPermissionToDirty ctx (Z.of_nat (length data)) w with
     | (Ok c, w1) =>
         ∃ wb,
           writeAdmitted' ctx md file data off c w1 = (r, wb) ∧
           w' = setUnsyncedBytes
                  (fun u => u + - Z.of_nat (length data)) wb ∧
           unsyncedBytes w' = unsyncedBytes wb - Z.of_nat (length data)
     | (_, w1) => w' = w1
     end) ∧
  (∀ depth ctx md file size w r w',
     Truncate' depth ctx md file size w = (r, w') →
     r ≠ OutOfFuel →
     match RequestPermissionToDirty ctx (toInt64 size) w with
     | (Ok c, w1) =>
         ∃ wb,
           truncateAdmitted' depth ctx md file size c w1 = (r, wb) ∧
           w' = setUnsyncedBytes
                  (fun u => u + wrapS64 (- toInt64 size)) wb ∧
           (0 ≤ size < 2 ^ 63 →
            unsyncedBytes w' = unsyncedBytes wb - size)
     | (_, w1) => w' = w1
     end).
Proof.
  split.
  - intros ctx md file data off w r w'. unfold Write, bind.
    destruct (RequestPermissionToDirty _ _ w) as [[c|e| |] w1];
      try (by intros [= <- <-]).
    intros Hrun Hr.
    destruct (withDefer_modify _ _ _ _ _ Hrun Hr) as (wb & Hb & ->).
    exists wb. split_and!; [done|done|]. simpl. lia.
  - intros depth ctx md file size w r w'. unfold Truncate, bind.
    destruct (RequestPermissionToDirty _ _ w) as [[c|e| |] w1];
      try (by intros [= <- <-]).
    intros Hrun Hr.
    destruct (withDefer_modify _ _ _ _ _ Hrun Hr) as (wb & Hb & ->).
    exists wb. split_and!; [done|done|]. simpl. intros Hsize.
    assert (0 < 2 ^ 63) by (by apply Z.pow_pos_nonneg).
    unfold toInt64. rewrite (FbmFacts.wrapS64_small size) by lia.
    rewrite FbmFacts.wrapS64_small; lia.
Qed.

End Admission.

Lemma admission_budget_returned_witness :
  let run := Truncate testConfig (fun _ _ _ _ _ => fail (OtherError 0))
               grantAtOnce noWait nodeOfFile 3 noDeadline testMD 0 1000000
               oneByteFile in
  match grantAtOnce noDeadline (toInt64 1000000) oneByteFile with
  | (Ok c, w1) =>
      ∃ wb,
        truncateAdmitted testConfig (fun _ _ _ _ _ => fail (OtherError 0))
          noWait nodeOfFile 3 noDeadline testMD 0 1000000 c w1
          = (run.1, wb) ∧
        run.2 = setUnsyncedBytes
                  (fun u => u + wrapS64 (- toInt64 1000000)) wb ∧
        (0 ≤ 1000000 < 2 ^ 63 →
         unsyncedBytes run.2 = unsyncedBytes wb - 1000000)
  | (_, w1) => run.2 = w1
  end.
Proof.
  intros run.
  apply (proj2 (admission_budget_returned testConfig
                  (fun _ _ _ _ _ => fail (OtherError 0)) grantAtOnce noWait
                  nodeOfFile) 3%nat noDeadline testMD 0%nat 1000000
           oneByteFile run.1 run.2).
  - apply surjective_pairing.
  - vm_compute. discriminate.
Defined.

(** *** FinishSync *)

Lemma deleteAll_None br ptrs m k :
  m !! k = None → deleteAll br ptrs m !! k = None.
Proof.
  unfold deleteAll. revert m. induction ptrs as [|p ptrs IH]; intros m Hk;
    simpl; [done|].
  apply IH. rewrite lookup_delete. by case_decide.
Qed.

Lemma deleteAll_elem br ptrs m p :
  p ∈ ptrs → deleteAll br ptrs m !! (p, br) = None.
Proof.
  unfold deleteAll. revert m. induction ptrs as [|q ptrs IH]; intros m Hp;
    simpl.
  - by apply elem_of_nil in Hp.
  - apply elem_of_cons in Hp as [->|Hp]; [|by apply IH].
    apply (deleteAll_None br ptrs). apply lookup_delete_eq.
Qed.

Lemma forEach_dirtyDelete br ptrs w :
  forEach (fun p => dirtyDelete p br) ptrs w
  = (Ok tt, setDirtyBcache (deleteAll br ptrs) w).
Proof.
  revert w. induction ptrs as [|p ptrs IH]; intros w; simpl.
  - by destruct w.
  - unfold dirtyDelete at 1. rewrite bind_modify, IH. reflexivity.
Qed.

Lemma forEach_DeletePermanent (ptrs : list BlockPointer) w :
  ∃ g, forEach (fun p => DeletePermanent (ID p)) ptrs w
       = (Ok tt, setBcache g w).
Proof.
  revert w. induction ptrs as [|p ptrs IH]; intros w; simpl.
  - exists id. by destruct w.
  - unfold DeletePermanent at 1. rewrite bind_modify.
    destruct (IH (setBcache
                    (map_imap (fun p0 (e : loc * bool) =>
                       Some (if decide (ID p0 = ID p) then (e.1, false)
                             else e))) w)) as [g ->].
    eexists (fun m => g (_ m)). reflexivity.
Qed.

Section Sync.
Variable cfg : Config.
Variable writeDataLocked :
  Context → RootMetadata → Path → list byte → Z
  → M (WriteRange * list BlockPointer * Z).
Variables (depth : nat) (ctx : Context) (md : RootMetadata).
Variables (oldPath newPath : Path).

Abbreviation replay' := (replay cfg writeDataLocked depth ctx md newPath).
Abbreviation replays' := (replays cfg writeDataLocked depth ctx md newPath).
Abbreviation FinishSync' :=
  (FinishSync cfg writeDataLocked depth ctx oldPath newPath md).

(** What the first part of [FinishSync] leaves. *)
Lemma finishSyncPrepare_spec syncState w :
  ∃ wp,
    finishSyncPrepare cfg syncState w = (Ok (deferredWrites w), wp) ∧
    deferredWrites wp = [] ∧
    deferredDirtyDeletes wp = [] ∧
    dirtyBcache wp
      = deleteAll (fboBranch cfg) (deferredDirtyDeletes w)
          (deleteAll (fboBranch cfg) (oldFileBlockPtrs syncState)
             (dirtyBcache w)) ∧
    dirtyFiles wp = dirtyFiles w ∧
    unrefCache wp = unrefCache w ∧
    deCache wp = deCache w ∧
    blocks wp = blocks w.
Proof.
  unfold finishSyncPrepare.
  rewrite (bind_ok _ _ _ _ _ (forEach_dirtyDelete _ _ _)).
  destruct (forEach_DeletePermanent (newIndirectFileBlockPtrs syncState)
              (setDirtyBcache
                 (deleteAll (fboBranch cfg) (oldFileBlockPtrs syncState)) w))
    as [g Hg].
  rewrite (bind_ok _ _ _ _ _ Hg). msteps.
  rewrite (bind_ok _ _ _ _ _ (forEach_dirtyDelete _ _ _)).
  eexists. split; [reflexivity|]. by split_and!.
Qed.

Lemma forEach_replays ws w w' :
  forEach replay' ws w = (Ok tt, w') ↔ replays' ws w w'.
Proof.
  revert w. induction ws as [|d ws IH]; intros w; simpl.
  - split.
    + intros [= <-]. constructor.
    + inversion 1. reflexivity.
  - split.
    + unfold bind. destruct (replay' d w) as [[[]|e| |] w1] eqn:Hd;
        try done.
      intros Hws. econstructor; [done|]. by apply IH.
    + inversion 1 as [|? ? ? w1 ? Hd Hws]; subst.
      rewrite (bind_ok _ _ _ _ _ Hd). by apply IH.
Qed.

(** The replay stops at the first deferred operation that fails. *)
Lemma forEach_replay_stops pre d post w wk e wk' :
  replays' pre w wk →
  replay' d wk = (Err e, wk') →
  forEach replay' (pre ++ d :: post) w = (Err e, wk').
Proof.
  induction 1 as [w|d0 ds w w1 w2 Hd0 Hds IH]; intros Hd; simpl.
  - by rewrite (bind_err _ _ _ _ _ Hd).
  - rewrite (bind_ok _ _ _ _ _ Hd0). by apply IH.
Qed.

Lemma replays_snoc pre d w w1 w2 :
  replays' pre w w1 → replay' d w1 = (Ok tt, w2) →
  replays' (pre ++ [d]) w w2.
Proof.
  induction 1 as [w|d0 ds w wa wb Hd0 Hds IH]; intros Hd; simpl.
  - econstructor; [done|constructor].
  - econstructor; [done|]. by apply IH.
Qed.

(** A property that every replayed operation keeps holds at the end. *)
Lemma replays_invariant (P : World → Prop) ws wstart wn :
  replays' ws wstart wn →
  P wstart →
  (∀ pre d post wa r wb,
     ws = pre ++ d :: post → replays' pre wstart wa →
     replay' d wa = (r, wb) → P wa → P wb) →
  P wn.
Proof.
  intros Hrun Hstart Hstep.
  assert (∀ pre0 w0,
            replays' pre0 wstart w0 → P w0 →
            ∀ rest, replays' rest w0 wn → ws = pre0 ++ rest → P wn) as Hgen.
  { clear Hrun. intros pre0 w0 Hpre HP rest Hrest. revert pre0 Hpre HP.
    induction Hrest as [w1|d ds w1 w2 w3 Hd Hds IH]; intros pre0 Hpre HP Heq;
      [done|].
    apply (IH (pre0 ++ [d])).
    - by eapply replays_snoc.
    - by eapply (Hstep pre0 d ds w1).
    - by rewrite <-app_assoc. }
  eapply (Hgen [] wstart); [constructor|done|done|done].
Qed.

Lemma clearCacheInfoLocked_spec w w' tail :
  TailPointer oldPath = Some tail →
  clearCacheInfoLocked oldPath w = (Ok tt, w') →
  dirtyBcache w' = dirtyBcache w ∧
  deCache w' !! ref tail = None ∧
  unrefCache w' !! ref tail = None ∧
  dirtyFiles w' !! tail = None ∧
  (∀ df, dirtyFiles w !! tail = Some df → finishSync df = None).
Proof.
  intros Htail. unfold clearCacheInfoLocked. rewrite Htail. msteps.
  destruct (dirtyFiles w !! tail) as [df|] eqn:Hdf.
  - destruct (finishSync df) eqn:Hfin; [done|].
    unfold modify. intros [= <-]. cbn.
    rewrite !lookup_delete_eq. split_and!; try done. by intros ? [= <-].
  - unfold ret. intros [= <-]. cbn.
    rewrite !lookup_delete_eq. by split_and!.
Qed.

Lemma startSyncFinish_tail ss0 w0 ss w0' tail :
  TailPointer oldPath = Some tail →
  startSyncFinish oldPath ss0 w0 = (Ok ss, w0') →
  tail ∈ oldFileBlockPtrs ss.
Proof.
  intros Htail. unfold startSyncFinish, getOrCreateDirtyFileLocked.
  rewrite Htail. msteps.
  destruct (dirtyFiles w0 !! tail) as [df|] eqn:Hdf; msteps.
  - rewrite Hdf. msteps.
    destruct (setBlockSyncing tail df); msteps; [done|].
    intros [= <- _]. cbn. apply elem_of_app. right. by left.
  - rewrite lookup_insert_eq. msteps.
    destruct (setBlockSyncing tail newDirtyFile); msteps; [done|].
    intros [= <- _]. cbn. apply elem_of_app. right. by left.
Qed.

(** A successful [FinishSync] replayed every deferred write and cleared
    the cached info. *)
Lemma FinishSync_success syncState w sd w' :
  FinishSync' syncState w = (Ok (sd, None), w') →
  ∃ wn,
    replays' (deferredWrites w) (finishSyncPrepare cfg syncState w).2 wn ∧
    clearCacheInfoLocked oldPath wn = (Ok tt, w').
Proof.
  destruct (finishSyncPrepare_spec syncState w) as (wp & Hprep & _).
  unfold FinishSync. unfold bind at 1. unfold try.
  rewrite (bind_ok _ _ _ _ _ Hprep). rewrite Hprep. cbn [snd].
  unfold bind at 1.
  destruct (forEach replay' (deferredWrites w) wp) as [[[]|e| |] wn] eqn:Hrun;
    try done.
  unfold bind.
  destruct (clearCacheInfoLocked oldPath wn) as [[[]|e| |] wf] eqn:Hclear;
    try done.
  intros [= _ <-]. exists wn. split; [by apply forEach_replays|done].
Qed.

(** C3.  [FinishSync] first takes the deferred deletes and writes and
    clears both fields (nothing runs in between: the state in which the
    replay starts has both fields empty), with every deferred pointer out
    of the dirty cache.  Then the deferred writes taken at entry run under
    the new path in the order of the list: when the writes before one all
    succeed and that one fails, [FinishSync] returns its error (with
    [stillDirty] true) in the very state in which that write ended, so no
    later write has run; when all succeed, [FinishSync] goes on to clear
    the cached info of the old path. *)
Theorem FinishSync_replays_in_order syncState w :
  ∃ wp,
    finishSyncPrepare cfg syncState w = (Ok (deferredWrites w), wp) ∧
    deferredWrites wp = [] ∧
    deferredDirtyDeletes wp = [] ∧
    (∀ p, p ∈ deferredDirtyDeletes w →
          IsDirty p (fboBranch cfg) wp = false) ∧
    (∀ pre d post wk e wk',
       deferredWrites w = pre ++ d :: post →
       replays' pre wp wk →
       replay' d wk = (Err e, wk') →
       FinishSync' syncState w = (Ok (true, Some e), wk')) ∧
    (∀ wn,
       replays' (deferredWrites w) wp wn →
       FinishSync' syncState w
       = match clearCacheInfoLocked oldPath wn with
         | (Ok _, wf) =>
             (Ok (negb (Z.of_nat (length (deferredWrites w)) =? 0), None),
              wf)
         | (Err e, wf) => (Ok (true, Some e), wf)
         | (Panic, wf) => (Panic, wf)
         | (OutOfFuel, wf) => (OutOfFuel, wf)
         end).
Proof.
  destruct (finishSyncPrepare_spec syncState w)
    as (wp & Hprep & Hw & Hd & Hdirty & _).
  exists wp. split_and!; try done.
  - intros p Hp. unfold IsDirty. rewrite Hdirty.
    rewrite deleteAll_elem by done. apply bool_decide_eq_false.
    by intros [? ?].
  - intros pre d post wk e wk' Hws Hpre Hfail.
    unfold FinishSync. unfold bind at 1. unfold try.
    rewrite (bind_ok _ _ _ _ _ Hprep). rewrite Hws.
    rewrite (bind_err _ _ _ _ _ (forEach_replay_stops _ _ _ _ _ _ _ Hpre Hfail)).
    reflexivity.
  - intros wn Hall. apply forEach_replays in Hall.
    unfold FinishSync. unfold bind at 1. unfold try.
    rewrite (bind_ok _ _ _ _ _ Hprep). rewrite (bind_ok _ _ _ _ _ Hall).
    unfold bind. by destruct (clearCacheInfoLocked oldPath wn) as [[[]|e| |] wf].
Qed.


End Sync.

Lemma replays_nil_inv cfg wdl depth ctx md newPath w w' :
  replays cfg wdl depth ctx md newPath [] w w' → w' = w.
Proof. by inversion 1. Qed.

(** The sync of the file with a hole: the first of two deferred truncates
    fails under a path whose blocks are missing, the second one is never
    run and the error is returned with [stillDirty = true]. *)
Lemma FinishSync_replays_in_order_witness :
  let ss := mkFileSyncState None None ∅ None None [] [] in
  let run := FinishSync testConfig noWriteData 3 noDeadline filePath
               missingPath testMD ss in
  let wp := (finishSyncPrepare testConfig ss twoDeferred).2 in
  run twoDeferred =
    (Ok (true, Some NoSuchBlockError),
     (replay testConfig noWriteData 3 noDeadline testMD missingPath
        (DeferredTruncate filePath 5 0) wp).2).
Proof.
  intros ss run wp.
  destruct (FinishSync_replays_in_order testConfig noWriteData 3 noDeadline
              testMD filePath missingPath ss twoDeferred)
    as (wp' & Hprep & _ & _ & _ & Hstop & _).
  assert (wp' = wp) as -> by (subst wp; by rewrite Hprep).
  apply (Hstop [] (DeferredTruncate filePath 5 0)
           [DeferredTruncate filePath 7 0] wp).
  - reflexivity.
  - constructor.
  - vm_compute. reflexivity.
Defined.


(** ** Read *)

Lemma wrapS64_range z : - 2 ^ 63 ≤ wrapS64 z < 2 ^ 63.
Proof.
  unfold wrapS64.
  pose proof (Z.mod_pos_bound (z + 2 ^ 63) (2 ^ 64) eq_refl).
  change (2 ^ 63) with 9223372036854775808 in *.
  change (2 ^ 64) with 18446744073709551616 in *. lia.
Qed.

Lemma wrapS64_diff_nonzero a b :
  - 2 ^ 63 ≤ a < 2 ^ 63 → - 2 ^ 63 ≤ b < 2 ^ 63 → a ≠ b →
  wrapS64 (a - b) ≠ 0.
Proof.
  unfold wrapS64.
  change (2 ^ 63) with 9223372036854775808.
  change (2 ^ 64) with 18446744073709551616.
  intros Ha Hb Hne Hz.
  pose proof (Z.div_mod (a - b + 9223372036854775808) 18446744073709551616
                ltac:(lia)) as Hdm.
  set (q := (a - b + 9223372036854775808) / 18446744073709551616) in *.
  lia.
Qed.

Lemma readFileBlock_ok l b w :
  blocks w !! l = Some (BlockFile b) → readFileBlock l w = (Ok b, w).
Proof. intros H. unfold readFileBlock, readBlock, bind. by rewrite H. Qed.

Lemma sliceSet_length dest start src :
  (Z.to_nat start + length src ≤ length dest)%nat →
  length (sliceSet dest start src) = length dest.
Proof.
  intros H. unfold sliceSet.
  rewrite !length_app, length_take, length_drop. lia.
Qed.

Lemma sliceSet_lookup dest start src (i : nat) :
  (Z.to_nat start + length src ≤ length dest)%nat →
  sliceSet dest start src !! i =
  if bool_decide (Z.to_nat start ≤ i < Z.to_nat start + length src)%nat
  then src !! (i - Z.to_nat start)%nat else dest !! i.
Proof.
  intros H. unfold sliceSet. case_bool_decide as Hi.
  - rewrite lookup_app_r by (rewrite length_take; lia).
    rewrite length_take, Nat.min_l by lia.
    by rewrite lookup_app_l by lia.
  - destruct (decide (i < Z.to_nat start)%nat).
    + rewrite lookup_app_l by (rewrite length_take; lia).
      by rewrite lookup_take_lt by lia.
    + rewrite lookup_app_r by (rewrite length_take; lia).
      rewrite length_take, Nat.min_l by lia.
      rewrite lookup_app_r by lia.
      rewrite lookup_drop. f_equal. lia.
Qed.

Lemma searchIPtrs_spec rest : ∀ pre off dflt,
  Forall (fun p => Off p < off) pre →
  let idx := searchIPtrs rest off (Z.of_nat (length pre)) dflt in
  (idx = dflt ∧ Forall (fun p => Off p < off) (pre ++ rest)) ∨
  (0 ≤ idx ∧ ∃ p, (pre ++ rest) !! Z.to_nat idx = Some p ∧ Off p = off) ∨
  (-1 ≤ idx ∧
   (∃ q, (pre ++ rest) !! Z.to_nat (idx + 1) = Some q ∧ off < Off q) ∧
   Forall (fun p => Off p < off) (take (Z.to_nat (idx + 1)) (pre ++ rest))).
Proof.
  induction rest as [|p rest IH]; intros pre off dflt Hpre; cbn [searchIPtrs].
  - left. by rewrite app_nil_r.
  - destruct (Z.eqb_spec (Off p) off) as [Heq|Hne].
    + right; left. split; [lia|]. exists p. split; [|done].
      rewrite Nat2Z.id. by rewrite list_lookup_middle.
    + destruct (Z.ltb_spec off (Off p)) as [Hlt|Hge].
      * right; right. split; [lia|].
        replace (Z.to_nat (Z.of_nat (length pre) - 1 + 1)) with (length pre)
          by lia.
        split.
        -- exists p. by rewrite list_lookup_middle.
        -- by rewrite take_app_length.
      * specialize (IH (pre ++ [p]) off dflt).
        rewrite length_app, <- (assoc_L (++)) in IH. simpl in IH.
        replace (Z.of_nat (length pre + 1)) with (Z.of_nat (length pre) + 1)
          in IH by lia.
        apply IH. apply Forall_app. split; [done|].
        apply Forall_singleton. lia.
Qed.

Lemma sorted_lookup_lt (l : list IndirectFilePtr) (i j : nat) a b :
  StronglySorted Z.lt (Off <$> l) →
  l !! i = Some a → l !! j = Some b → (i < j)%nat → Off a < Off b.
Proof.
  intros Hs Ha Hb Hij.
  rewrite <- (take_drop j l), fmap_app in Hs.
  apply (StronglySorted_app_1_elem_of _ _ _ (Off a) (Off b) Hs).
  - apply list_elem_of_fmap_2, list_elem_of_lookup. exists i.
    by rewrite lookup_take_lt.
  - apply list_elem_of_fmap_2, list_elem_of_lookup. exists 0%nat.
    rewrite lookup_drop. by rewrite Nat.add_0_r.
Qed.

Section Reading.
Variable cfg : Config.

Lemma try_err {A} (m : M A) w e w1 :
  m w = (Err e, w1) → try m w = (Ok (inl e), w1).
Proof. unfold try. by intros ->. Qed.

Lemma try_ok {A} (m : M A) w a w1 :
  m w = (Ok a, w1) → try m w = (Ok (inr a), w1).
Proof. unfold try. by intros ->. Qed.

Lemma readLoop_unfold fuel depth ctx md file fblock off n nRead dest w :
  nRead < n →
  readLoop cfg (S fuel) depth ctx md file fblock off n nRead dest w =
  bind (try (getFileBlockAtOffsetLocked cfg depth ctx md file fblock
               (wrapS64 (nRead + off)) blockRead))
    (fun r =>
       match r with
       | inl err =>
           if bool_decide (err = DeadlineExceeded) && (0 <? nRead)
           then ret (nRead, None, dest)
           else ret (0, Some err, dest)
       | inr r =>
           let* block := readFileBlock (foundBlock r) in
           let blockLen := Z.of_nat (length (Contents block)) in
           let lastByteInBlock := wrapS64 (startOff r + blockLen) in
           if lastByteInBlock <=? wrapS64 (nRead + off) then
             if 0 <? nextBlockStartOff r then
               let fill :=
                 wrapS64 (nextBlockStartOff r - wrapS64 (nRead + off)) in
               let fill := if n - nRead <? fill then n - nRead else fill in
               if fill <=? 0 then ret (nRead, Some BadSplitError, dest)
               else
                 readLoop cfg fuel depth ctx md file fblock off n
                   (nRead + fill)
                   (sliceSet dest nRead
                      (replicate (Z.to_nat fill) Byte.x00))
             else ret (nRead, None, dest)
           else
             let toRead :=
               if wrapS64 (lastByteInBlock - wrapS64 (nRead + off))
                  <? n - nRead
               then wrapS64 (lastByteInBlock - wrapS64 (nRead + off))
               else n - nRead in
             let firstByteToRead :=
               wrapS64 (wrapS64 (nRead + off) - startOff r) in
             let* src := liftOpt (slice (Contents block) firstByteToRead
                                    (toRead + firstByteToRead)) in
             readLoop cfg fuel depth ctx md file fblock off n
               (nRead + toRead) (sliceSet dest nRead src)
       end) w.
Proof.
  intros Hlt. cbn [readLoop].
  by rewrite (proj2 (Z.ltb_lt nRead n) Hlt).
Qed.

(** The loop of [Read] copies at least one byte at every turn: with
    [n - nRead] turns of fuel it runs out of fuel only if a descent does. *)
Lemma readLoop_enough_fuel fuel :
  ∀ depth ctx md file fblock off n nRead dest w,
    n - nRead ≤ Z.of_nat fuel →
    (readLoop cfg fuel depth ctx md file fblock off n nRead dest w).1
    = OutOfFuel →
    ∃ o w',
      (getFileBlockAtOffsetLocked cfg depth ctx md file fblock o blockRead
         w').1 = OutOfFuel.
Proof.
  induction fuel as [|fuel IH];
    intros depth ctx md file fblock off n nRead dest w Hfuel.
  - cbn [readLoop]. destruct (Z.ltb_spec nRead n); [lia|done].
  - destruct (Z.ltb_spec nRead n) as [Hlt|Hge].
    2: { cbn [readLoop]. by rewrite (proj2 (Z.ltb_ge nRead n) Hge). }
    rewrite readLoop_unfold by done. unfold bind at 1, try.
    destruct (getFileBlockAtOffsetLocked _ _ _ _ _ _ _ _ w)
      as [[r|e| |] w1] eqn:Hget.
    + unfold bind at 1.
      destruct (readFileBlock (foundBlock r) w1) as [[block|e| |] w2] eqn:Hb;
        try done.
      2: { unfold readFileBlock, readBlock, bind in Hb.
           destruct (blocks w1 !! foundBlock r) as [[]|]; done. }
      cbn zeta.
      destruct (_ <=? _) eqn:Hcase.
      * destruct (0 <? nextBlockStartOff r); [|done].
        destruct (_ <=? 0) eqn:Hfill; [done|].
        apply Z.leb_gt in Hfill.
        apply IH. lia.
      * apply Z.leb_gt in Hcase.
        match goal with
        | |- context [slice ?c ?a ?b] => destruct (slice c a b) as [src|] eqn:Hs
        end; [|done].
        msteps.
        unfold slice in Hs.
        match type of Hs with
        | (if ?c then _ else _) = _ => destruct c eqn:Hc; [done|]
        end.
        apply orb_false_elim in Hc as [Hc _].
        apply orb_false_elim in Hc as [_ Hc].
        apply Z.ltb_ge in Hc.
        apply IH.
        pose proof (wrapS64_range (nRead + off)).
        match type of Hcase with
        | _ < wrapS64 ?x =>
            pose proof (wrapS64_range x);
            pose proof (wrapS64_diff_nonzero (wrapS64 x)
                          (wrapS64 (nRead + off)))
        end.
        destruct (_ <? n - nRead) eqn:Hmin; [apply Z.ltb_lt in Hmin|]; lia.
    + destruct (_ && _); done.
    + done.
    + intros _. eexists _, w. by rewrite Hget.
Qed.


(** C9.  At any turn of the loop of [Read] (with [nRead] bytes copied so
    far and more to read), when the fetch of the block at the next byte
    fails with the error [e]: if [e] is the expiry of the deadline and at
    least one byte was copied, [Read] returns the count [nRead] and no
    error; otherwise it returns the count 0 and [e].  The loop runs under
    the context [readContext ctx], starting with no byte copied; when
    [ctx] has a deadline more than two seconds after now that context
    ends two seconds before [ctx] does, and otherwise it is [ctx]. *)
Theorem Read_short_on_deadline :
  (∀ fuel depth ctx md file fblock off n nRead dest w e w1,
     nRead < n →
     getFileBlockAtOffsetLocked cfg depth ctx md file fblock
       (wrapS64 (nRead + off)) blockRead w = (Err e, w1) →
     (e = DeadlineExceeded → 0 < nRead →
      readLoop cfg (S fuel) depth ctx md file fblock off n nRead dest w
      = (Ok (nRead, None, dest), w1)) ∧
     (e ≠ DeadlineExceeded ∨ nRead ≤ 0 →
      readLoop cfg (S fuel) depth ctx md file fblock off n nRead dest w
      = (Ok (0, Some e, dest), w1))) ∧
  (∀ depth ctx md file dest off w fblock w0,
     getFileLocked cfg ctx md file blockRead w = (Ok fblock, w0) →
     Read cfg depth ctx md file dest off w =
     readLoop cfg (length dest) depth (readContext cfg ctx) md file fblock
       off (Z.of_nat (length dest)) 0 dest w0) ∧
  (∀ ctx d,
     deadline ctx = Some d →
     (readTimeoutSmallerBy < d - timeNow cfg →
      readContext cfg ctx = mkContext (Some (d - readTimeoutSmallerBy))) ∧
     (d - timeNow cfg ≤ readTimeoutSmallerBy → readContext cfg ctx = ctx)) ∧
  (∀ ctx, deadline ctx = None → readContext cfg ctx = ctx).
Proof.
  split_and!.
  - intros fuel depth ctx md file fblock off n nRead dest w e w1 Hlt Hget.
    rewrite readLoop_unfold by done.
    rewrite (bind_ok _ _ _ _ _ (try_err _ _ _ _ Hget)).
    split.
    + intros -> Hpos. rewrite bool_decide_eq_true_2 by done.
      by rewrite (proj2 (Z.ltb_lt 0 nRead) Hpos).
    + intros [Hne|Hzero].
      * by rewrite bool_decide_eq_false_2.
      * rewrite (proj2 (Z.ltb_ge 0 nRead) Hzero).
        by rewrite andb_false_r.
  - intros depth ctx md file dest off w fblock w0 Hget. unfold Read.
    by rewrite (bind_ok _ _ _ _ _ (try_ok _ _ _ _ Hget)).
  - intros ctx d Hd. unfold readContext. rewrite Hd. cbn zeta. split.
    + intros Hfar.
      rewrite (proj2 (Z.ltb_lt 0 (d - timeNow cfg - readTimeoutSmallerBy)))
        by lia.
      f_equal. f_equal. unfold readTimeoutSmallerBy. lia.
    + intros Hnear.
      by rewrite (proj2 (Z.ltb_ge 0 (d - timeNow cfg - readTimeoutSmallerBy)))
        by lia.
  - intros ctx Hd. unfold readContext. by rewrite Hd.
Qed.

Lemma at_Some {A} (l : list A) i x :
  at_ l i = Some x → 0 ≤ i ∧ l !! Z.to_nat i = Some x.
Proof.
  unfold at_. destruct (Z.ltb_spec i 0); [done|]. by split.
Qed.

Lemma getFileBlockAtOffset_sorted ctx md file fblock off w r w1 top :
  blocks w !! fblock = Some (BlockFile top) →
  IsInd top = true →
  StronglySorted Z.lt (Off <$> IPtrs top) →
  getFileBlockAtOffsetLocked cfg 1 ctx md file fblock off blockRead w
  = (Ok r, w1) →
  startOff r ≤ off ∧ (nextBlockStartOff r = -1 ∨ off < nextBlockStartOff r).
Proof.
  intros Htop Hind Hsorted. unfold getFileBlockAtOffsetLocked.
  destruct (TailPointer file) as [tail|]; [|done].
  msteps. cbn [getFileBlockAtOffsetLoop foundBlock].
  rewrite (bind_ok _ _ _ _ _ (readFileBlock_ok _ _ _ Htop)).
  rewrite Hind. cbn [negb].
  pose proof (searchIPtrs_spec (IPtrs top) [] off
                (Z.of_nat (length (IPtrs top)) - 1) (Forall_nil_2 _)) as Hs.
  cbn [length app] in Hs. cbn zeta in Hs.
  change (Z.of_nat 0) with 0 in Hs.
  set (idx := searchIPtrs (IPtrs top) off 0
                (Z.of_nat (length (IPtrs top)) - 1)) in *.
  destruct (at_ (IPtrs top) idx) as [nextPtr|] eqn:Hat; [|done].
  apply at_Some in Hat as [Hidx Hat].
  msteps.
  assert (Off nextPtr ≤ off ∧
          ∀ q, IPtrs top !! Z.to_nat (idx + 1) = Some q → off < Off q)
    as [Hstart Hnext].
  { destruct Hs as [[Hlast Hall]|[(_ & p & Hp & Hoff)
                                 |(_ & (q & Hq & Hoff) & Hall)]].
    - split.
      + rewrite Forall_lookup in Hall. specialize (Hall _ _ Hat).
        simpl in Hall. lia.
      + intros q Hq. apply lookup_lt_Some in Hq. lia.
    - assert (p = nextPtr) as -> by congruence. split; [lia|].
      intros q Hq. rewrite <- Hoff.
      apply (sorted_lookup_lt _ _ _ _ _ Hsorted Hat Hq). lia.
    - split.
      + rewrite Forall_lookup in Hall.
        assert (take (Z.to_nat (idx + 1)) (IPtrs top) !! Z.to_nat idx
                = Some nextPtr) as Hin
          by (rewrite lookup_take_lt by lia; done).
        specialize (Hall _ _ Hin). simpl in Hall. lia.
      + intros q' Hq'. congruence. }
  clear Hs.
  destruct (idx =? Z.of_nat (length (IPtrs top)) - 1) eqn:Hlast.
  - msteps. unfold bind.
    destruct (getFileBlockLocked _ _ _ _ _ _ w) as [[b|e| |] w2]; try done.
    destruct (readFileBlock b w2) as [[block|e| |] w3]; try done.
    destruct (IsInd block); [done|]. cbn [negb].
    intros [= <- <-]. cbn. split; [done|by left].
  - destruct (at_ (IPtrs top) (idx + 1)) as [q|] eqn:Hq; [|done].
    apply at_Some in Hq as [_ Hq]. apply Hnext in Hq.
    msteps. unfold bind.
    destruct (getFileBlockLocked _ _ _ _ _ _ w) as [[b|e| |] w2]; try done.
    destruct (readFileBlock b w2) as [[block|e| |] w3]; try done.
    destruct (IsInd block); [done|]. cbn [negb].
    intros [= <- <-]. cbn. split; [done|by right].
Qed.

Lemma min_ltb a b : (if b <? a then b else a) = Z.min a b.
Proof. destruct (Z.ltb_spec b a); lia. Qed.

(** C5.  At any turn of the loop of [Read] over a file whose offsets are
    in range: when the next byte [nRead + off] is at or past the end of
    the leaf found for it ([startOff + len(Contents)]) and a successor
    leaf starts after it, [Read] writes zeros at the
    [min(nextBlockStartOff - (nRead + off), n - nRead)] positions of
    [dest] from [nRead] on, leaves the other positions as they were, and
    goes on with the loop.  In a file of one level whose offsets are
    strictly increasing, the leaf found starts at or before the offset
    asked for and its successor, if there is one, starts after it. *)
Theorem Read_fills_holes :
  (∀ fuel depth ctx md file fblock off n nRead dest w r w1 block,
     0 ≤ nRead < n → n ≤ Z.of_nat (length dest) →
     0 ≤ off → nRead + off < 2 ^ 63 →
     getFileBlockAtOffsetLocked cfg depth ctx md file fblock (nRead + off)
       blockRead w = (Ok r, w1) →
     blocks w1 !! foundBlock r = Some (BlockFile block) →
     0 ≤ startOff r →
     startOff r + Z.of_nat (length (Contents block)) ≤ nRead + off →
     0 < nextBlockStartOff r < 2 ^ 63 →
     nRead + off < nextBlockStartOff r →
     let fill := Z.min (nextBlockStartOff r - (nRead + off)) (n - nRead) in
     let dest' :=
       sliceSet dest nRead (replicate (Z.to_nat fill) Byte.x00) in
     readLoop cfg (S fuel) depth ctx md file fblock off n nRead dest w
     = readLoop cfg fuel depth ctx md file fblock off n (nRead + fill)
         dest' w1 ∧
     0 < fill ∧ length dest' = length dest ∧
     ∀ i : nat,
       dest' !! i =
       if bool_decide (nRead ≤ Z.of_nat i < nRead + fill)
       then Some Byte.x00 else dest !! i) ∧
  (∀ ctx md file fblock off w r w1 top,
     blocks w !! fblock = Some (BlockFile top) →
     IsInd top = true →
     StronglySorted Z.lt (Off <$> IPtrs top) →
     getFileBlockAtOffsetLocked cfg 1 ctx md file fblock off blockRead w
     = (Ok r, w1) →
     startOff r ≤ off ∧
     (nextBlockStartOff r = -1 ∨ off < nextBlockStartOff r)).
Proof.
  split; [|apply getFileBlockAtOffset_sorted].
  intros fuel depth ctx md file fblock off n nRead dest w r w1 block
    HnRead Hn Hoff Hsum Hget Hblock Hstart Hend Hnext Hvalid fill dest'.
  assert (0 < 2 ^ 63) by (by apply Z.pow_pos_nonneg).
  assert (0 < fill) by (subst fill; lia).
  assert (fill ≤ n - nRead) by (subst fill; lia).
  split_and!.
  - rewrite readLoop_unfold by lia.
    rewrite (FbmFacts.wrapS64_small (nRead + off)) by lia.
    rewrite (bind_ok _ _ _ _ _ (try_ok _ _ _ _ Hget)).
    rewrite (bind_ok _ _ _ _ _ (readFileBlock_ok _ _ _ Hblock)).
    cbn zeta.
    rewrite (FbmFacts.wrapS64_small (startOff r + _)) by lia.
    rewrite (proj2 (Z.leb_le _ _) Hend).
    rewrite (proj2 (Z.ltb_lt 0 (nextBlockStartOff r))) by lia.
    rewrite (FbmFacts.wrapS64_small (nextBlockStartOff r - _)) by lia.
    rewrite min_ltb. fold fill.
    by rewrite (proj2 (Z.leb_gt fill 0)) by lia.
  - done.
  - subst dest'. apply sliceSet_length. rewrite length_replicate. lia.
  - intros i. subst dest'.
    rewrite sliceSet_lookup by (rewrite length_replicate; lia).
    rewrite length_replicate.
    case_bool_decide as Hi1; case_bool_decide as Hi2; try lia; [|done].
    apply lookup_replicate_2. lia.
Qed.

End Reading.

(** The file of two leaves on the slow server, read under a context that
    ends in six seconds: the fetches run under a context that ends in
    four, the second leaf does not come in time, and the read returns the
    one byte of the first leaf and no error; at offset 1 no byte was
    copied and the error is returned. *)
Lemma Read_short_on_deadline_witness :
  readContext slowServer in6s = mkContext (Some 4000000000) ∧
  (Read slowServer 3 in6s testMD filePath (replicate 4 Byte.xff) 0
     twoLeafFile).1
  = Ok (1, None, [Byte.x41; Byte.xff; Byte.xff; Byte.xff]) ∧
  (Read slowServer 3 in6s testMD filePath (replicate 4 Byte.xff) 1
     twoLeafFile).1
  = Ok (0, Some DeadlineExceeded, replicate 4 Byte.xff) ∧
  (readLoop slowServer 3 3 (readContext slowServer in6s) testMD filePath
     1%nat 0 4 1 [Byte.x41; Byte.xff; Byte.xff; Byte.xff] twoLeafFile).1
  = Ok (1, None, [Byte.x41; Byte.xff; Byte.xff; Byte.xff]).
Proof.
  destruct (Read_short_on_deadline slowServer)
    as (Hstep & Hread & Hctx & _).
  split_and!.
  - apply (Hctx in6s 6000000000 eq_refl). vm_compute. reflexivity.
  - vm_compute. reflexivity.
  - rewrite (Hread 3%nat in6s testMD filePath (replicate 4 Byte.xff) 1
               twoLeafFile 1%nat twoLeafFile) by (vm_compute; reflexivity).
    destruct (Hstep 3%nat 3%nat (readContext slowServer in6s) testMD
                filePath 1%nat 1 4 0
                (replicate 4 Byte.xff) twoLeafFile DeadlineExceeded
                twoLeafFile) as [_ Hzero];
      [lia|vm_compute; reflexivity|].
    change (length (replicate 4 Byte.xff)) with 4%nat.
    change (Z.of_nat 4) with 4.
    rewrite Hzero by (right; lia). reflexivity.
  - destruct (Hstep 2%nat 3%nat (readContext slowServer in6s) testMD
                filePath 1%nat 0 4 1
                [Byte.x41; Byte.xff; Byte.xff; Byte.xff] twoLeafFile
                DeadlineExceeded twoLeafFile) as [Hshort _];
      [lia|vm_compute; reflexivity|].
    rewrite Hshort by (done || lia). reflexivity.
Defined.

(** The file of one byte extended to 65664 bytes with a hole: a read of
    16 bytes at offset 100 returns 16 and sixteen zeros. *)
Lemma Read_fills_holes_witness :
  (Read testConfig 1 noDeadline testMD filePath (replicate 16 Byte.xff) 100
     sparseFile).1
  = Ok (16, None, replicate 16 Byte.x00).
Proof.
  destruct (Read_fills_holes testConfig) as [Hstep Hsorted].
  pose (r := mkBlockAtOffset leaf0 (Some 3%nat) 0 2%nat 65664 0).
  assert (getFileBlockAtOffsetLocked testConfig 1 noDeadline testMD filePath
            3%nat (0 + 100) blockRead sparseFile = (Ok r, sparseFile))
    as Hget by (vm_compute; reflexivity).
  destruct (Hsorted noDeadline testMD filePath 3%nat (0 + 100) sparseFile r
              sparseFile
              (mkFileBlock true
                 [mkIndirectFilePtr (mkBlockInfo leaf0 0) 0 true;
                  mkIndirectFilePtr (mkBlockInfo leaf1 0) 65664 true] []))
    as [_ [Hnone|Hnext]];
    [vm_compute; reflexivity|reflexivity
    |repeat constructor|exact Hget|discriminate Hnone|].
  destruct (Hstep 15%nat 1%nat noDeadline testMD filePath 3%nat 100 16 0
              (replicate 16 Byte.xff) sparseFile r sparseFile
              (mkFileBlock false [] [Byte.x41]))
    as (Hrun & _ & _ & _);
    [lia|simpl; lia|lia|lia|exact Hget|vm_compute; reflexivity
    |unfold r; simpl; lia|unfold r; simpl; lia|unfold r; simpl; lia
    |exact Hnext|].
  unfold Read.
  rewrite (bind_ok _ _ _ _ _
             (try_ok (getFileLocked testConfig noDeadline testMD filePath
                        blockRead) sparseFile 3%nat sparseFile
                (ltac:(vm_compute; reflexivity)))).
  change (readContext testConfig noDeadline) with noDeadline.
  change (length (replicate 16 Byte.xff)) with 16%nat.
  change (Z.of_nat 16) with 16.
  rewrite Hrun. vm_compute. reflexivity.
Defined.

(** ** Truncate *)

Section Keeps.
Context (R : relation World) `{!PreOrder R}.

Lemma keeps_ret {A} (a : A) : keeps R (ret a).
Proof. intros w. reflexivity. Qed.

Lemma keeps_fail {A} e : keeps R (fail e : M A).
Proof. intros w. reflexivity. Qed.

Lemma keeps_panic {A} : keeps R (panic : M A).
Proof. intros w. reflexivity. Qed.

Lemma keeps_outOfFuel {A} : keeps R (outOfFuel : M A).
Proof. intros w. reflexivity. Qed.

Lemma keeps_gets {A} (f : World → A) : keeps R (gets f).
Proof. intros w. reflexivity. Qed.

Lemma keeps_liftOpt {A} (o : option A) : keeps R (liftOpt o).
Proof. intros w. destruct o; reflexivity. Qed.

Lemma keeps_liftSum {A} (r : error + A) : keeps R (liftSum r).
Proof. intros w. destruct r; reflexivity. Qed.

Lemma keeps_bind {A B} (m : M A) (k : A → M B) :
  keeps R m → (∀ a, keeps R (k a)) → keeps R (bind m k).
Proof.
  intros Hm Hk w. unfold bind. specialize (Hm w).
  destruct (m w) as [[a|e| |] w1]; try done.
  simpl in Hm. etrans; [done|]. apply Hk.
Qed.

Lemma keeps_bind_fail {A B} e (k : A → M B) : keeps R (bind (fail e) k).
Proof. intros w. reflexivity. Qed.

Lemma keeps_bind_ret {A B} a (k : A → M B) :
  keeps R (k a) → keeps R (bind (ret a) k).
Proof. intros Hk w. apply Hk. Qed.

Lemma keeps_bind_inl {A B} e (k : A → M B) :
  keeps R (bind (liftSum (inl e)) k).
Proof. intros w. reflexivity. Qed.

Lemma keeps_bind_inr {A B} a (k : A → M B) :
  keeps R (k a) → keeps R (bind (liftSum (inr a)) k).
Proof. intros Hk w. apply Hk. Qed.

Lemma keeps_modify (f : World → World) :
  (∀ w, R w (f w)) → keeps R (modify f).
Proof. intros Hf w. apply Hf. Qed.

Lemma keeps_try {A} (m : M A) : keeps R m → keeps R (try m).
Proof.
  intros Hm w. unfold try. specialize (Hm w).
  by destruct (m w) as [[a|e| |] w1].
Qed.

End Keeps.

Section Truncating.
Variable cfg : Config.

Lemma known_mono w w' c : sameData cfg w w' → known cfg w' c → known cfg w c.
Proof.
  intros Hs [->|[(l & fb & Hl & <-)|Hserver]].
  - by left.
  - by apply (Hs l).
  - by right; right.
Qed.

#[local] Instance sameData_preorder : PreOrder (sameData cfg).
Proof.
  split.
  - intros w l fb Hl. right; left. by exists l, fb.
  - intros w1 w2 w3 H12 H23 l fb Hl.
    apply (known_mono _ _ _ H12). by apply (H23 l).
Qed.

#[local] Instance ext_preorder : PreOrder (ext cfg).
Proof.
  split.
  - intros w. split; reflexivity.
  - intros w1 w2 w3 [Hs12 Hd12] [Hs23 Hd23]. split; by etrans.
Qed.

Lemma ext_blocks_eq w w' : blocks w' = blocks w → ext cfg w w'.
Proof.
  intros Heq. split.
  - by rewrite Heq.
  - intros l fb. rewrite Heq. intros Hl. right; left. by exists l, fb.
Qed.

Lemma ext_newBlockObj b w :
  (∀ fb, b = BlockFile fb → known cfg w (Contents fb)) →
  ext cfg w (newBlockObj b w).2.
Proof.
  intros Hb. unfold newBlockObj. cbn [snd]. mcbn.
  assert (blocks w !! fresh (dom (blocks w)) = None) as Hfresh
    by (apply not_elem_of_dom, is_fresh).
  split.
  - by apply insert_subseteq.
  - intros l fb. mcbn.
    destruct (decide (l = fresh (dom (blocks w)))) as [->|Hne].
    + rewrite lookup_insert_eq. intros [= ->]. by apply Hb.
    + rewrite lookup_insert_ne by done. intros Hl.
      right; left. by exists l, fb.
Qed.

#[local] Instance frame_preorder : PreOrder frame.
Proof.
  split.
  - by intros w.
  - intros w1 w2 w3 [? ?] [? ?]. split; congruence.
Qed.

Lemma keeps_newBlockObj b :
  (∀ w fb, b = BlockFile fb → known cfg w (Contents fb)) →
  keeps (ext cfg) (newBlockObj b).
Proof. intros Hb w. apply ext_newBlockObj. apply Hb. Qed.

Ltac keeps_step :=
  first
    [ solve [auto 1]
    | lazymatch goal with
      | |- keeps _ (bind (fail _) _) => apply keeps_bind_fail
      | |- keeps _ (bind (ret _) _) => apply keeps_bind_ret
      | |- keeps _ (bind (liftSum (inl _)) _) => apply keeps_bind_inl
      | |- keeps _ (bind (liftSum (inr _)) _) => apply keeps_bind_inr
      | |- keeps _ (bind _ _) => apply keeps_bind; [apply _| |intros ?]
      | |- keeps _ (ret _) => apply keeps_ret
      | |- keeps _ (fail _) => apply keeps_fail
      | |- keeps _ panic => apply keeps_panic
      | |- keeps _ outOfFuel => apply keeps_outOfFuel
      | |- keeps _ (gets _) => apply keeps_gets
      | |- keeps _ (liftOpt _) => apply keeps_liftOpt
      | |- keeps _ (liftSum _) => apply keeps_liftSum
      | |- keeps _ (try _) => apply keeps_try
      | |- keeps _ (modify _) =>
          apply keeps_modify; intros;
          first [by split | apply ext_blocks_eq; reflexivity]
      | |- keeps _ (if ?c then _ else _) => destruct c
      | |- keeps _ (match ?x with _ => _ end) => destruct x
      end;
      try apply _ ].

Ltac keeps_auto := repeat keeps_step.

Lemma keeps_readBlock l : keeps (ext cfg) (readBlock l).
Proof. intros w. unfold readBlock. by destruct (blocks w !! l). Qed.

Lemma keeps_readDirBlock l : keeps (ext cfg) (readDirBlock l).
Proof. unfold readDirBlock. pose proof keeps_readBlock. keeps_auto. Qed.

Lemma keeps_dirtyGet ptr branch : keeps (ext cfg) (dirtyGet ptr branch).
Proof. intros w. unfold dirtyGet. by destruct (dirtyBcache w !! _). Qed.

Lemma keeps_bcacheGet ptr : keeps (ext cfg) (bcacheGet ptr).
Proof. intros w. unfold bcacheGet. by destruct (bcache w !! _) as [[]|]. Qed.

Lemma keeps_DeepCopy l : keeps (ext cfg) (DeepCopy l).
Proof.
  intros w. unfold DeepCopy, bind, readBlock.
  destruct (blocks w !! l) as [b|] eqn:Hl; [|done].
  apply ext_newBlockObj. intros fb ->. right; left. by exists l, fb.
Qed.

Lemma keeps_getBlockHelperLocked ctx md ptr branch doCache :
  keeps (ext cfg) (getBlockHelperLocked cfg ctx md ptr branch doCache).
Proof.
  unfold getBlockHelperLocked, getBlockFromDirtyOrCleanCache, bcachePut.
  pose proof keeps_dirtyGet. pose proof keeps_bcacheGet.
  destruct (bopsGet cfg ctx ptr) as [e|b] eqn:Hget.
  - keeps_auto.
  - assert (keeps (ext cfg) (newBlockObj b)).
    { apply keeps_newBlockObj. intros w fb ->. right; right. by exists ctx, ptr, fb. }
    keeps_auto.
Qed.

Lemma keeps_getFileBlockLocked ctx md ptr file rtype :
  keeps (ext cfg) (getFileBlockLocked cfg ctx md ptr file rtype).
Proof.
  unfold getFileBlockLocked, getFileBlockHelperLocked.
  pose proof keeps_getBlockHelperLocked. pose proof keeps_readBlock.
  pose proof keeps_DeepCopy. keeps_auto.
Qed.

Lemma keeps_getFileLocked ctx md file rtype :
  keeps (ext cfg) (getFileLocked cfg ctx md file rtype).
Proof.
  unfold getFileLocked. pose proof keeps_getFileBlockLocked. keeps_auto.
Qed.

Lemma keeps_getDirLocked ctx md dir rtype :
  keeps (ext cfg) (getDirLocked cfg ctx md dir rtype).
Proof.
  unfold getDirLocked, getDirBlockHelperLocked.
  pose proof keeps_getBlockHelperLocked. pose proof keeps_readBlock.
  pose proof keeps_DeepCopy. keeps_auto.
Qed.

Lemma keeps_updateWithDirtyEntriesLocked block :
  keeps (ext cfg) (updateWithDirtyEntriesLocked block).
Proof.
  unfold updateWithDirtyEntriesLocked.
  pose proof keeps_readDirBlock.
  assert (∀ db, keeps (ext cfg) (newBlockObj (BlockDir db)))
    by (intros db; by apply keeps_newBlockObj).
  keeps_auto.
Qed.

Lemma keeps_getDirtyEntryLocked ctx md file :
  keeps (ext cfg) (getDirtyEntryLocked cfg ctx md file).
Proof.
  unfold getDirtyEntryLocked, getDirtyParentAndEntryLocked, getDirtyDirLocked.
  pose proof keeps_readDirBlock. pose proof keeps_getDirLocked.
  pose proof keeps_updateWithDirtyEntriesLocked. keeps_auto.
Qed.

Lemma keeps_writeGetFileLocked ctx md file :
  keeps (ext cfg) (writeGetFileLocked cfg ctx md file).
Proof.
  unfold writeGetFileLocked, getCurrentUserInfo.
  pose proof keeps_getFileLocked. keeps_auto.
Qed.

Lemma frame_readFileBlock l : keeps frame (readFileBlock l).
Proof.
  intros w. unfold readFileBlock, readBlock, bind.
  by destruct (blocks w !! l) as [[]|].
Qed.

Lemma frame_getOrCreateDirtyFileLocked file :
  keeps frame (getOrCreateDirtyFileLocked file).
Proof. unfold getOrCreateDirtyFileLocked. keeps_auto. Qed.

Lemma frame_cacheBlockIfNotYetDirtyLocked ptr file block :
  keeps frame (cacheBlockIfNotYetDirtyLocked ptr file block).
Proof.
  unfold cacheBlockIfNotYetDirtyLocked, dirtyPut.
  pose proof frame_getOrCreateDirtyFileLocked. keeps_auto.
Qed.

Lemma frame_makeTemporaryBlockID : keeps frame (makeTemporaryBlockID cfg).
Proof. unfold makeTemporaryBlockID. keeps_auto. Qed.

Lemma frame_getCurrentUserInfo : keeps frame (getCurrentUserInfo cfg).
Proof. unfold getCurrentUserInfo. keeps_auto. Qed.

Lemma frame_getOrCreateSyncInfoLocked de :
  keeps frame (getOrCreateSyncInfoLocked de).
Proof. unfold getOrCreateSyncInfoLocked. keeps_auto. Qed.

Lemma frame_addTruncate l size : keeps frame (addTruncate l size).
Proof. unfold addTruncate, addRange. keeps_auto. Qed.

Lemma frame_maybeForceSync : keeps frame (maybeForceSync cfg).
Proof. unfold maybeForceSync. keeps_auto. Qed.

Ltac mcbn_in H := revert H; mcbn; intros H.

Lemma bind_inv {A B} (m : M A) (k : A → M B) w b w' :
  bind m k w = (Ok b, w') →
  ∃ a w1, m w = (Ok a, w1) ∧ k a w1 = (Ok b, w').
Proof.
  unfold bind. destruct (m w) as [[a|e| |] w1]; try done.
  intros Hk. by exists a, w1.
Qed.

Lemma run_ext {A} (m : M A) w r w1 :
  keeps (ext cfg) m → m w = (r, w1) → ext cfg w w1.
Proof. intros Hm Hrun. specialize (Hm w). by rewrite Hrun in Hm. Qed.

Lemma run_frame {A} (m : M A) w r w1 :
  keeps frame m → m w = (r, w1) → frame w w1.
Proof. intros Hm Hrun. specialize (Hm w). by rewrite Hrun in Hm. Qed.

Lemma readFileBlock_inv l w fb w' :
  readFileBlock l w = (Ok fb, w') →
  w' = w ∧ blocks w !! l = Some (BlockFile fb).
Proof.
  unfold readFileBlock, readBlock, bind.
  destruct (blocks w !! l) as [[fb'| |]|]; try done.
  by intros [= -> ->].
Qed.

Lemma newBlockObj_inv b w l w' :
  newBlockObj b w = (Ok l, w') →
  blocks w !! l = None ∧ blocks w' = <[l := b]> (blocks w) ∧
  deCache w' = deCache w.
Proof.
  unfold newBlockObj. intros [= <- <-]. split; [|done].
  apply not_elem_of_dom, is_fresh.
Qed.

Lemma createIndirectBlockLocked_spec md file uid dver w ftop w' :
  createIndirectBlockLocked cfg md file uid dver w = (Ok ftop, w') →
  ∃ newID,
    blocks w !! ftop = None ∧
    blocks w' =
      <[ftop := BlockFile (mkFileBlock true
          [mkIndirectFilePtr
             (mkBlockInfo
                (mkBlockPointer newID (LatestKeyGeneration md) dver uid
                   ZeroBlockRefNonce) 0) 0 false] [])]> (blocks w) ∧
    deCache w' = deCache w.
Proof.
  unfold createIndirectBlockLocked. intros Hrun.
  apply bind_inv in Hrun as (newID & w1 & Hid & Hrun).
  apply (run_frame _ _ _ _ frame_makeTemporaryBlockID) in Hid as [Hb1 Hd1].
  apply bind_inv in Hrun as (l & w2 & Hnew & Hrun).
  apply newBlockObj_inv in Hnew as (Hfresh & Hb2 & Hd2).
  assert (frame w2 w' ∧ l = ftop) as [[Hb3 Hd3] ->].
  { pose proof frame_getOrCreateDirtyFileLocked.
    pose proof frame_cacheBlockIfNotYetDirtyLocked.
    split.
    - eapply run_frame; [|exact Hrun]. keeps_auto.
    - apply bind_inv in Hrun as (? & ? & _ & Hrun).
      apply bind_inv in Hrun as (? & ? & _ & Hrun).
      apply bind_inv in Hrun as (? & ? & _ & Hrun).
      by injection Hrun. }
  exists newID. rewrite Hb1 in Hfresh, Hb2. split_and!; [done| |congruence].
  by rewrite Hb3, Hb2.
Qed.

Lemma newRightBlockLocked_spec ctx ptr file pblock off md w w' pb :
  newRightBlockLocked cfg ctx ptr file pblock off md w = (Ok tt, w') →
  blocks w !! pblock = Some (BlockFile pb) →
  ∃ rptr rl,
    blocks w !! rl = None ∧
    blocks w' =
      <[pblock := BlockFile (mkFileBlock (IsInd pb)
          (IPtrs pb ++ [mkIndirectFilePtr (mkBlockInfo rptr 0) off false])
          (Contents pb))]>
        (<[rl := BlockFile (mkFileBlock false [] [])]> (blocks w)) ∧
    deCache w' = deCache w.
Proof.
  unfold newRightBlockLocked. intros Hrun Hpb.
  apply bind_inv in Hrun as (newRID & w1 & Hid & Hrun).
  apply (run_frame _ _ _ _ frame_makeTemporaryBlockID) in Hid as [Hb1 Hd1].
  apply bind_inv in Hrun as ([name uid] & w2 & Hu & Hrun).
  apply (run_frame _ _ _ _ frame_getCurrentUserInfo) in Hu as [Hb2 Hd2].
  apply bind_inv in Hrun as (rl & w3 & Hnew & Hrun).
  apply newBlockObj_inv in Hnew as (Hfresh & Hb3 & Hd3).
  apply bind_inv in Hrun as (pb' & w4 & Hread & Hrun).
  apply readFileBlock_inv in Hread as [-> Hread].
  rewrite Hb2, Hb1 in Hfresh, Hb3.
  assert (rl ≠ pblock) as Hne by congruence.
  rewrite Hb3, lookup_insert_ne in Hread by done.
  assert (pb' = pb) as -> by congruence.
  unfold writeFileBlock in Hrun. revert Hrun; msteps; intros Hrun.
  assert (frame (setBlocks
            <[pblock := BlockFile (mkFileBlock (IsInd pb)
                (IPtrs pb ++
                   [mkIndirectFilePtr
                      (mkBlockInfo
                         (mkBlockPointer newRID (LatestKeyGeneration md)
                            (DefaultNewBlockDataVersion cfg false) uid
                            ZeroBlockRefNonce) 0) off false])
                (Contents pb))]> w3) w') as [Hb4 Hd4].
  { pose proof frame_cacheBlockIfNotYetDirtyLocked.
    eapply run_frame; [|exact Hrun]. keeps_auto. }
  eexists _, rl. split_and!; [done| |].
  - rewrite Hb4. mcbn. by rewrite Hb3.
  - rewrite Hd4. mcbn. congruence.
Qed.

Lemma at_head {A} (x : A) l : at_ (x :: l) 0 = Some x.
Proof. reflexivity. Qed.

Lemma sameData_insert w w' l fb :
  blocks w' = <[l := BlockFile fb]> (blocks w) →
  known cfg w (Contents fb) → sameData cfg w w'.
Proof.
  intros Hb Hk l' fb'. rewrite Hb.
  destruct (decide (l' = l)) as [->|Hne].
  - rewrite lookup_insert_eq. by intros [= <-].
  - rewrite lookup_insert_ne by done. intros Hl.
    right; left. by exists l', fb'.
Qed.

Lemma known_lookup w l fb :
  blocks w !! l = Some (BlockFile fb) → known cfg w (Contents fb).
Proof. intros Hl. right; left. by exists l, fb. Qed.

Lemma addTruncate_inv l size w r w' :
  addTruncate l size w = (Ok r, w') → r = mkWriteRange size 0.
Proof.
  unfold addTruncate, addRange. msteps. by intros [= <- _].
Qed.

Lemma truncateExtendLocked_spec ctx md file size w wr dirtyPtrs w' :
  truncateExtendLocked cfg ctx md file size w = (Ok (wr, dirtyPtrs), w') →
  ∃ fblock0 uid w1 fb0 ftop p0 rptr rl tail de,
    writeGetFileLocked cfg ctx md file w = (Ok (fblock0, uid), w1) ∧
    blocks w1 !! fblock0 = Some (BlockFile fb0) ∧
    TailPointer file = Some tail ∧
    blocks w' !! ftop = Some (BlockFile (mkFileBlock true
      (setHoles <$>
         (if IsInd fb0 then IPtrs fb0
          else [mkIndirectFilePtr (mkBlockInfo p0 0) 0 false]) ++
         [mkIndirectFilePtr (mkBlockInfo rptr 0) (toInt64 size) false])
      (if IsInd fb0 then Contents fb0 else []))) ∧
    (if IsInd fb0 then ftop = fblock0 else blocks w1 !! ftop = None) ∧
    blocks w1 !! rl = None ∧ rl ≠ ftop ∧
    blocks w' !! rl = Some (BlockFile (mkFileBlock false [] [])) ∧
    (∀ l b, blocks w1 !! l = Some b → l ≠ ftop → blocks w' !! l = Some b) ∧
    sameData cfg w w' ∧
    deCache w' !! ref tail = Some (setEntry de size) ∧
    wr = mkWriteRange size 0 ∧
    dirtyPtrs = (if IsInd fb0 then [] else [p0]) ++ [rptr; tail].
Proof.
  unfold truncateExtendLocked.
  destruct (MaxFileBytes cfg <? size) eqn:Hmax; [done|].
  intros Hrun.
  apply bind_inv in Hrun as ([fblock0 uid] & w1 & Hget & Hrun).
  destruct (TailPointer file) as [tail|] eqn:Htail; [|done].
  revert Hrun; msteps; intros Hrun.
  apply bind_inv in Hrun as (fb0 & w1' & Hfb0 & Hrun).
  apply readFileBlock_inv in Hfb0 as [-> Hfb0].
  apply bind_inv in Hrun as ([ftop dirty0] & w2 & Hconv & Hrun).
  apply bind_inv in Hrun as ([] & w3 & Hright & Hrun).
  apply bind_inv in Hrun as (fb3 & w3' & Hfb3 & Hrun).
  apply readFileBlock_inv in Hfb3 as [-> Hfb3].
  (* the conversion *)
  assert (∃ p0 top2,
            blocks w2 !! ftop = Some (BlockFile top2) ∧
            IsInd top2 = true ∧
            IPtrs top2 =
              (if IsInd fb0 then IPtrs fb0
               else [mkIndirectFilePtr (mkBlockInfo p0 0) 0 true]) ∧
            Contents top2 = (if IsInd fb0 then Contents fb0 else []) ∧
            (if IsInd fb0 then ftop = fblock0 ∧ blocks w2 = blocks w1
             else blocks w1 !! ftop = None ∧
                  blocks w2 = <[ftop := BlockFile top2]> (blocks w1)) ∧
            deCache w2 = deCache w1 ∧
            dirty0 = (if IsInd fb0 then [] else [p0]))
    as (p0 & top2 & Htop2 & Hind2 & Hiptrs2 & Hcont2 & Hcase & Hde2 & Hdirty0).
  { destruct (IsInd fb0) eqn:Hind; cbn [negb] in Hconv.
    - injection Hconv as <- <- <-.
      exists tail, fb0. by split_and!.
    - apply bind_inv in Hconv as (l & wa & Hcreate & Hconv).
      apply createIndirectBlockLocked_spec in Hcreate
        as (newID & Hfresh & Hba & Hda).
      apply bind_inv in Hconv as (fb & wa' & Hfb & Hconv).
      apply readFileBlock_inv in Hfb as [-> Hfb].
      rewrite Hba, lookup_insert_eq in Hfb. injection Hfb as <-.
      cbn [IPtrs IsInd Contents] in Hconv. rewrite at_head in Hconv.
      revert Hconv; msteps; unfold writeFileBlock; msteps; intros Hconv.
      apply bind_inv in Hconv as ([] & wb & Hcache & Hconv).
      apply (run_frame _ _ _ _ (frame_cacheBlockIfNotYetDirtyLocked _ _ _))
        in Hcache as [Hbb Hdb].
      injection Hconv as <- <- <-.
      exists (mkBlockPointer newID (LatestKeyGeneration md)
                (DefaultNewBlockDataVersion cfg true) uid ZeroBlockRefNonce).
      eexists (mkFileBlock true [_] []).
      split_and!; try reflexivity; try done.
      + rewrite Hbb. mcbn. by rewrite lookup_insert_eq.
      + rewrite Hbb. mcbn. rewrite Hba. by rewrite insert_insert_eq.
      + rewrite Hdb. mcbn. done. }
  (* the new right block *)
  destruct (newRightBlockLocked_spec _ _ _ _ _ _ _ _ _ Hright Htop2)
    as (rptr & rl & Hrl & Hb3 & Hde3).
  assert (rl ≠ ftop) as Hne by congruence.
  rewrite Hb3, lookup_insert_eq in Hfb3. injection Hfb3 as <-.
  cbn [IPtrs] in Hrun. rewrite last_snoc in Hrun.
  revert Hrun; msteps; intros Hrun.
  apply bind_inv in Hrun as (de & w4 & Hde & Hrun).
  apply (run_ext _ _ _ _ (keeps_getDirtyEntryLocked _ _ _)) in Hde
    as [Hsub4 Hsame4].
  apply bind_inv in Hrun as (si & w5 & Hsi & Hrun).
  apply (run_frame _ _ _ _ (frame_getOrCreateSyncInfoLocked _)) in Hsi
    as [Hb5 Hde5].
  revert Hrun; msteps; intros Hrun.
  apply bind_inv in Hrun as (fb6 & w6 & Hfb6 & Hrun).
  apply readFileBlock_inv in Hfb6 as [-> Hfb6]. mcbn_in Hfb6.
  assert (blocks w4 !! ftop = Some (BlockFile (mkFileBlock (IsInd top2)
            (IPtrs top2 ++
               [mkIndirectFilePtr (mkBlockInfo rptr 0) (toInt64 size) false])
            (Contents top2)))) as Htop4.
  { eapply lookup_weaken; [|exact Hsub4]. by rewrite Hb3, lookup_insert_eq. }
  rewrite Hb5, Htop4 in Hfb6. injection Hfb6 as <-.
  unfold writeFileBlock in Hrun. cbn [IsInd IPtrs Contents] in Hrun.
  revert Hrun; msteps; intros Hrun.
  apply bind_inv in Hrun as ([] & w7 & Hcache & Hrun).
  apply (run_frame _ _ _ _ (frame_cacheBlockIfNotYetDirtyLocked _ _ _))
    in Hcache as [Hb7 Hde7].
  apply bind_inv in Hrun as (lw & w8 & Hadd & Hrun).
  pose proof (addTruncate_inv _ _ _ _ _ Hadd) as ->.
  apply (run_frame _ _ _ _ (frame_addTruncate _ _)) in Hadd as [Hb8 Hde8].
  apply bind_inv in Hrun as ([] & w9 & Hforce & Hrun).
  apply (run_frame _ _ _ _ frame_maybeForceSync) in Hforce as [Hb9 Hde9].
  injection Hrun as <- <- <-.
  mcbn_in Hb7. mcbn_in Hde7.
  assert (blocks w9 =
          <[ftop := BlockFile (mkFileBlock (IsInd top2)
              (setHoles <$> IPtrs top2 ++
                 [mkIndirectFilePtr (mkBlockInfo rptr 0) (toInt64 size)
                    false])
              (Contents top2))]> (blocks w4)) as Hfinal
    by (rewrite Hb9, Hb8, Hb7; by rewrite Hb5).
  assert (blocks w1 ⊆ blocks w2) as Hsub12.
  { destruct (IsInd fb0).
    - destruct Hcase as [_ ->]. done.
    - destruct Hcase as [Hfresh ->]. by apply insert_subseteq. }
  exists fblock0, uid, w1, fb0, ftop, p0, rptr, rl, tail, de.
  split_and!; try done.
  - rewrite Hfinal, lookup_insert_eq, Hind2, Hiptrs2, Hcont2.
    destruct (IsInd fb0); reflexivity.
  - by destruct (IsInd fb0); destruct Hcase.
  - eapply lookup_weaken_None; [exact Hrl|done].
  - rewrite Hfinal, lookup_insert_ne by done.
    eapply lookup_weaken; [|exact Hsub4].
    rewrite Hb3, lookup_insert_ne by done. by rewrite lookup_insert_eq.
  - intros l b Hl Hlne.
    rewrite Hfinal, lookup_insert_ne by done.
    eapply lookup_weaken; [|exact Hsub4].
    rewrite Hb3, lookup_insert_ne by done.
    assert (blocks w2 !! l = Some b) as Hl2
      by (eapply lookup_weaken; [exact Hl|done]).
    rewrite lookup_insert_ne by congruence. done.
  - apply (run_ext _ _ _ _ (keeps_writeGetFileLocked _ _ _)) in Hget
      as [_ Hsame1].
    assert (sameData cfg w1 w2) as Hsame2.
    { destruct (IsInd fb0).
      - destruct Hcase as [_ Heq]. by apply ext_blocks_eq.
      - destruct Hcase as [_ Heq].
        apply (sameData_insert _ _ _ _ Heq). left. by rewrite Hcont2. }
    assert (sameData cfg w2 w3) as Hsame3.
    { intros l fb. rewrite Hb3.
      destruct (decide (l = ftop)) as [->|Hl1].
      - rewrite lookup_insert_eq. intros [= <-].
        by apply (known_lookup _ ftop top2).
      - rewrite lookup_insert_ne by done.
        destruct (decide (l = rl)) as [->|Hl2].
        + rewrite lookup_insert_eq. intros [= <-]. by left.
        + rewrite lookup_insert_ne by done. apply known_lookup. }
    assert (sameData cfg w4 w9) as Hsame9.
    { apply (sameData_insert _ _ _ _ Hfinal).
      by apply (known_lookup _ _ _ Htop4). }
    etrans; [exact Hsame1|]. etrans; [exact Hsame2|].
    etrans; [exact Hsame3|]. etrans; [exact Hsame4|]. exact Hsame9.
  - rewrite Hde9, Hde8, Hde7. by rewrite lookup_insert_eq.
  - rewrite Hdirty0. destruct (IsInd fb0); simpl; reflexivity.
Qed.


Lemma writeGetFileLocked_tail ctx md file w fblock uid w1 :
  writeGetFileLocked cfg ctx md file w = (Ok (fblock, uid), w1) →
  is_Some (TailPointer file).
Proof.
  unfold writeGetFileLocked, getFileLocked. intros Hrun.
  apply bind_inv in Hrun as ([name uid'] & w0 & _ & Hrun).
  destruct (negb (IsWriter md uid')); [done|].
  apply bind_inv in Hrun as (l & w2 & Hrun & _).
  by destruct (TailPointer file).
Qed.

Variable writeDataLocked :
  Context → RootMetadata → Path → list byte → Z
  → M (WriteRange * list BlockPointer * Z).

(** X1.  A truncate that grows the file takes one of two paths.  With
    [currLen] the end of the block found at [size]: when
    [currLen + 128 KiB < size], [truncateLocked] is [truncateExtendLocked]
    at [size], with no newly dirtied bytes; when
    [size <= currLen + 128 KiB], it is [writeDataLocked] with
    [size - currLen] zero bytes at the offset [currLen]. *)
Theorem truncateLocked_grows_by_cutoff depth ctx md file size w fblock uid
    w1 r w2 block :
  0 ≤ size < 2 ^ 63 →
  writeGetFileLocked cfg ctx md file w = (Ok (fblock, uid), w1) →
  getFileBlockAtOffsetLocked cfg depth ctx md file fblock size blockWrite w1
  = (Ok r, w2) →
  blocks w2 !! foundBlock r = Some (BlockFile block) →
  0 ≤ startOff r →
  let currLen := startOff r + Z.of_nat (length (Contents block)) in
  currLen < size →
  currLen + truncateExtendCutoffPoint < 2 ^ 63 →
  (currLen + truncateExtendCutoffPoint < size →
   truncateLocked cfg writeDataLocked depth ctx md file size w =
   bind (truncateExtendLocked cfg ctx md file size)
     (fun '(latestWrite, dirtyPtrs) => ret (Some latestWrite, dirtyPtrs, 0))
     w2) ∧
  (size ≤ currLen + truncateExtendCutoffPoint →
   truncateLocked cfg writeDataLocked depth ctx md file size w =
   bind (writeDataLocked ctx md file
           (replicate (Z.to_nat (size - currLen)) Byte.x00) currLen)
     (fun '(latestWrite, dirtyPtrs, newlyDirtiedChildBytes) =>
        ret (Some latestWrite, dirtyPtrs, newlyDirtiedChildBytes)) w2).
Proof.
  intros Hsize Hget Hfind Hblock Hstart currLen Hgrow Hcut.
  assert (0 < 2 ^ 63) by (by apply Z.pow_pos_nonneg).
  assert (0 < truncateExtendCutoffPoint) by done.
  destruct (writeGetFileLocked_tail _ _ _ _ _ _ _ Hget) as [tail Htail].
  assert (truncateLocked cfg writeDataLocked depth ctx md file size w =
    (if currLen + truncateExtendCutoffPoint <? size then
       bind (truncateExtendLocked cfg ctx md file size)
         (fun '(latestWrite, dirtyPtrs) =>
            ret (Some latestWrite, dirtyPtrs, 0))
     else
       bind (writeDataLocked ctx md file
               (replicate (Z.to_nat (size - currLen)) Byte.x00) currLen)
         (fun '(latestWrite, dirtyPtrs, newlyDirtiedChildBytes) =>
            ret (Some latestWrite, dirtyPtrs, newlyDirtiedChildBytes))) w2)
    as Hrun.
  { unfold truncateLocked.
    rewrite (bind_ok _ _ _ _ _ Hget). rewrite Htail. msteps.
    unfold toInt64. rewrite (FbmFacts.wrapS64_small size) by lia.
    rewrite (bind_ok _ _ _ _ _ (try_ok _ _ _ _ Hfind)). msteps.
    rewrite (bind_ok _ _ _ _ _ (readFileBlock_ok _ _ _ Hblock)).
    cbn zeta. fold currLen.
    rewrite (FbmFacts.wrapS64_small currLen) by lia.
    rewrite (FbmFacts.wrapS64_small (currLen + _)) by lia.
    destruct (Z.ltb_spec (currLen + truncateExtendCutoffPoint) size).
    - unfold toUint64. rewrite Z.mod_small; [done|].
      change (2 ^ 64) with (2 * 2 ^ 63). lia.
    - rewrite (proj2 (Z.ltb_lt currLen size)) by done.
      rewrite (FbmFacts.wrapS64_small (size - currLen)) by lia.
      by rewrite (proj2 (Z.ltb_ge (size - currLen) 0)) by lia. }
  split; intros Hcase; rewrite Hrun.
  - by rewrite (proj2 (Z.ltb_lt _ _) Hcase).
  - by rewrite (proj2 (Z.ltb_ge _ _) Hcase).
Qed.

(** X2.  When [truncateExtendLocked] returns without error, the top block
    of the file is indirect (the block that [writeGetFileLocked] gave if
    that was indirect, a new object holding one pointer at offset 0
    otherwise), every pointer of it has [Holes] set, its last pointer is a
    new one at the offset [size], there is a new block object without
    contents, every other block object is as it was, no file block holds
    bytes that were not there before, and the dirty entry of the file has
    the size [size]. *)
Theorem truncateExtendLocked_extends_with_hole ctx md file size w wr
    dirtyPtrs w' :
  0 ≤ size < 2 ^ 63 →
  truncateExtendLocked cfg ctx md file size w = (Ok (wr, dirtyPtrs), w') →
  ∃ fblock0 uid w1 fb0 ftop top p0 rptr rl tail de,
    writeGetFileLocked cfg ctx md file w = (Ok (fblock0, uid), w1) ∧
    blocks w1 !! fblock0 = Some (BlockFile fb0) ∧
    TailPointer file = Some tail ∧
    blocks w' !! ftop = Some (BlockFile top) ∧
    (if IsInd fb0 then ftop = fblock0 else blocks w1 !! ftop = None) ∧
    IsInd top = true ∧
    IPtrs top =
      setHoles <$>
        (if IsInd fb0 then IPtrs fb0
         else [mkIndirectFilePtr (mkBlockInfo p0 0) 0 false]) ++
        [mkIndirectFilePtr (mkBlockInfo rptr 0) size false] ∧
    Forall (fun p => Holes p = true) (IPtrs top) ∧
    last (IPtrs top)
    = Some (mkIndirectFilePtr (mkBlockInfo rptr 0) size true) ∧
    Contents top = (if IsInd fb0 then Contents fb0 else []) ∧
    blocks w1 !! rl = None ∧
    blocks w' !! rl = Some (BlockFile (mkFileBlock false [] [])) ∧
    (∀ l b, blocks w1 !! l = Some b → l ≠ ftop →
            blocks w' !! l = Some b) ∧
    sameData cfg w w' ∧
    deCache w' !! ref tail = Some (setEntry de size) ∧
    Size (setEntry de size) = size ∧
    wr = mkWriteRange size 0 ∧
    dirtyPtrs = (if IsInd fb0 then [] else [p0]) ++ [rptr; tail].
Proof.
  intros Hsize Hrun.
  assert (0 < 2 ^ 63) by (by apply Z.pow_pos_nonneg).
  destruct (truncateExtendLocked_spec _ _ _ _ _ _ _ _ Hrun)
    as (fblock0 & uid & w1 & fb0 & ftop & p0 & rptr & rl & tail & de
        & Hget & Hfb0 & Htail & Htop & Hcase & Hrl & _ & Hrl' & Hothers
        & Hsame & Hde & -> & ->).
  unfold toInt64 in Htop. rewrite (FbmFacts.wrapS64_small size) in Htop by lia.
  exists fblock0, uid, w1, fb0, ftop.
  eexists. exists p0, rptr, rl, tail, de.
  split_and!; try done.
  - apply Forall_fmap, Forall_true. done.
  - cbn [IPtrs]. rewrite fmap_app. exact (last_snoc _ _).
Qed.

End Truncating.

(** The file of one byte: a truncate to 131073 bytes (128 KiB more than
    its length) writes 131072 zero bytes at offset 1 through
    [writeDataLocked]; a truncate to 131074 bytes extends it with a
    hole. *)
Lemma truncateLocked_grows_by_cutoff_witness :
  let w1 := (writeGetFileLocked testConfig noDeadline testMD filePath
               oneByteFile).2 in
  let w' := (truncateExtendLocked testConfig noDeadline testMD filePath
               131074 w1).2 in
  (truncateLocked testConfig echoWrite 3 noDeadline testMD filePath 131073
     oneByteFile).1
  = Ok (Some (mkWriteRange 1 131072), [], 0) ∧
  truncateLocked testConfig echoWrite 3 noDeadline testMD filePath 131074
    oneByteFile
  = (Ok (Some (mkWriteRange 131074 0), [leaf0; leaf1; filePtr], 0), w').
Proof.
  intros w1 w'.
  pose (r := mkBlockAtOffset filePtr None 0 2%nat (-1) 0).
  split.
  - destruct (truncateLocked_grows_by_cutoff testConfig echoWrite 3%nat
                noDeadline testMD filePath 131073 oneByteFile
                2%nat 1%N w1 r w1 (mkFileBlock false [] [Byte.x41]))
      as [_ Hwrite];
      [lia|vm_compute; reflexivity|vm_compute; reflexivity
      |vm_compute; reflexivity|by vm_compute|by vm_compute
      |by vm_compute|].
    rewrite Hwrite by (by vm_compute).
    vm_compute. reflexivity.
  - destruct (truncateLocked_grows_by_cutoff testConfig echoWrite 3%nat
                noDeadline testMD filePath 131074 oneByteFile
                2%nat 1%N w1 r w1 (mkFileBlock false [] [Byte.x41]))
      as [Hextend _];
      [lia|vm_compute; reflexivity|vm_compute; reflexivity
      |vm_compute; reflexivity|by vm_compute|by vm_compute
      |by vm_compute|].
    rewrite Hextend by (by vm_compute).
    vm_compute. reflexivity.
Defined.

(** The file of one byte extended to 131074 bytes: the top block is
    indirect, all its pointers have [Holes] set, the last one is at offset
    131074, and no bytes were made up. *)
Lemma truncateExtendLocked_extends_with_hole_witness :
  let w1 := (writeGetFileLocked testConfig noDeadline testMD filePath
               oneByteFile).2 in
  let w' := (truncateExtendLocked testConfig noDeadline testMD filePath
               131074 w1).2 in
  ∃ ftop top,
    blocks w' !! ftop = Some (BlockFile top) ∧
    IsInd top = true ∧
    Forall (fun p => Holes p = true) (IPtrs top) ∧
    Off <$> last (IPtrs top) = Some 131074 ∧
    sameData testConfig w1 w'.
Proof.
  intros w1 w'.
  destruct (truncateExtendLocked_extends_with_hole testConfig noDeadline
              testMD filePath 131074 w1
              (mkWriteRange 131074 0) [leaf0; leaf1; filePtr] w')
    as (fblock0 & uid & w1' & fb0 & ftop & top & p0 & rptr & rl & tail
        & de & _ & _ & _ & Htop & _ & Hind & _ & Hholes & Hlast & _ & _
        & _ & _ & Hsame & _);
    [lia|vm_compute; reflexivity|].
  exists ftop, top.
  split; [exact Htop|]. split; [exact Hind|]. split; [exact Hholes|].
  split; [|exact Hsame].
  rewrite Hlast. reflexivity.
Defined.

(** ** Read, continued *)

Section ReadBounds.
Variable cfg : Config.

Lemma slice_length (s : list byte) from to src :
  slice s from to = Some src → 0 ≤ from ≤ to ∧ length src = Z.to_nat (to - from).
Proof.
  unfold slice.
  destruct (Z.ltb_spec from 0); [done|].
  destruct (Z.ltb_spec to from); [done|].
  destruct (Z.ltb_spec (Z.of_nat (length s)) to); [done|].
  cbn [orb]. intros [= <-]. split; [lia|].
  rewrite length_take, length_drop. lia.
Qed.

Ltac read_done :=
  split_and!; try lia; try done; try (intros _; split; [lia|done]).

Lemma readLoop_within fuel :
  ∀ depth ctx md file fblock off n nRead dest w cnt err dest' w',
    readLoop cfg fuel depth ctx md file fblock off n nRead dest w
    = (Ok (cnt, err, dest'), w') →
    0 ≤ nRead ≤ n → n = Z.of_nat (length dest) →
    length dest' = length dest ∧ 0 ≤ cnt ≤ n ∧
    (err = None →
     nRead ≤ cnt ∧
     ∀ i : nat, (Z.to_nat cnt ≤ i)%nat → dest' !! i = dest !! i).
Proof.
  induction fuel as [|fuel IH];
    intros depth ctx md file fblock off n nRead dest w cnt err dest' w'.
  - cbn [readLoop]. destruct (Z.ltb_spec nRead n); [done|].
    cbn [negb]. intros [= <- <- <- <-] HnRead Hn.
    read_done.
  - destruct (Z.ltb_spec nRead n) as [Hlt|Hge].
    2: { cbn [readLoop]. rewrite (proj2 (Z.ltb_ge nRead n) Hge).
         cbn [negb]. intros [= <- <- <- <-] HnRead Hn.
         read_done. }
    rewrite readLoop_unfold by done. intros Hrun HnRead Hn.
    apply bind_inv in Hrun as ([e|r] & w1 & _ & Hrun).
    + destruct (_ && _) eqn:Hshort; injection Hrun as <- <- <- <-.
      * read_done.
      * read_done.
    + apply bind_inv in Hrun as (block & w2 & _ & Hrun).
      cbn zeta in Hrun.
      destruct (_ <=? _) eqn:Hcase.
      * destruct (0 <? nextBlockStartOff r); [|].
        2: { injection Hrun as <- <- <- <-.
             read_done. }
        rewrite min_ltb in Hrun.
        set (fill := Z.min _ _) in Hrun.
        destruct (Z.leb_spec fill 0) as [Hfill|Hfill].
        { injection Hrun as <- <- <- <-. read_done. }
        assert (fill ≤ n - nRead) by (subst fill; lia).
        apply IH in Hrun as (Hlen & Hcnt & Hrest); [|lia|].
        2: { rewrite sliceSet_length; [done|]. rewrite length_replicate. lia. }
        rewrite sliceSet_length in Hlen by (rewrite length_replicate; lia).
        split_and!; [done|lia|lia|].
        intros Herr. destruct (Hrest Herr) as [Hle Hsame]. split; [lia|].
        intros i Hi. rewrite (Hsame i Hi).
        rewrite sliceSet_lookup by (rewrite length_replicate; lia).
        rewrite length_replicate.
        rewrite bool_decide_eq_false_2; [done|lia].
      * set (toRead := if _ <? n - nRead then _ else _) in Hrun.
        apply bind_inv in Hrun as (src & w3 & Hsrc & Hrun).
        destruct (slice _ _ _) as [src'|] eqn:Hslice; [|done].
        injection Hsrc as -> ->.
        apply slice_length in Hslice as [Hfrom Hlen'].
        assert (0 ≤ toRead ≤ n - nRead) as HtoRead.
        { split; [lia|]. subst toRead. destruct (_ <? _) eqn:E; [|lia].
          apply Z.ltb_lt in E. lia. }
        assert (length src = Z.to_nat toRead) as Hsrc by (rewrite Hlen'; f_equal; lia).
        apply IH in Hrun as (Hlen & Hcnt & Hrest); [|lia|].
        2: { rewrite sliceSet_length; [done|]. lia. }
        rewrite sliceSet_length in Hlen by lia.
        split_and!; [done|lia|lia|].
        intros Herr. destruct (Hrest Herr) as [Hle Hsame]. split; [lia|].
        intros i Hi. rewrite (Hsame i Hi).
        rewrite sliceSet_lookup by lia.
        rewrite bool_decide_eq_false_2; [done|lia].
Qed.

(** X3.  [Read] stays within its buffer: the count it returns is between
    0 and [len(dest)], the buffer keeps its length, and when no error is
    returned the bytes of [dest] from the count on are untouched. *)
Theorem Read_within_dest depth ctx md file dest off w cnt err dest' w' :
  Read cfg depth ctx md file dest off w = (Ok (cnt, err, dest'), w') →
  length dest' = length dest ∧
  0 ≤ cnt ≤ Z.of_nat (length dest) ∧
  (err = None →
   ∀ i : nat, (Z.to_nat cnt ≤ i)%nat → dest' !! i = dest !! i).
Proof.
  unfold Read. intros Hrun.
  apply bind_inv in Hrun as ([e|fblock] & w0 & _ & Hrun).
  - injection Hrun as <- <- <- <-. read_done.
  - apply readLoop_within in Hrun as (Hlen & Hcnt & Hrest); [|lia|done].
    split_and!; [done|lia|lia|]. intros Herr. by destruct (Hrest Herr).
Qed.

Lemma getFileBlockAtOffset_direct depth ctx md file fblock off rtype w fb
    tail :
  TailPointer file = Some tail →
  blocks w !! fblock = Some (BlockFile fb) → IsInd fb = false →
  getFileBlockAtOffsetLocked cfg depth ctx md file fblock off rtype w
  = (Ok (mkBlockAtOffset tail None 0 fblock (-1) 0), w).
Proof.
  intros Htail Hfb Hind. unfold getFileBlockAtOffsetLocked.
  rewrite Htail. msteps.
  destruct depth; cbn [getFileBlockAtOffsetLoop foundBlock];
    rewrite (bind_ok _ _ _ _ _ (readFileBlock_ok _ _ _ Hfb)), Hind; done.
Qed.

Lemma getFileLocked_tail ctx md file rtype w fblock w0 :
  getFileLocked cfg ctx md file rtype w = (Ok fblock, w0) →
  is_Some (TailPointer file).
Proof. unfold getFileLocked. by destruct (TailPointer file). Qed.

Lemma sliceSet_0 (dest src : list byte) :
  sliceSet dest 0 src = src ++ drop (length src) dest.
Proof. reflexivity. Qed.

(** X4.  Reading a file of one direct block: [Read] returns the bytes of
    the block from [off] on, as many as fit in [dest] (none when [off] is
    at or past the end), with no error, and leaves the rest of [dest]
    alone. *)
Theorem Read_direct_file depth ctx md file dest off w fblock w0 fb :
  getFileLocked cfg ctx md file blockRead w = (Ok fblock, w0) →
  blocks w0 !! fblock = Some (BlockFile fb) →
  IsInd fb = false →
  0 ≤ off →
  off + Z.of_nat (length dest) < 2 ^ 63 →
  Z.of_nat (length (Contents fb)) < 2 ^ 63 →
  let k := Z.to_nat (Z.min (Z.of_nat (length dest))
                       (Z.of_nat (length (Contents fb)) - off)) in
  Read cfg depth ctx md file dest off w
  = (Ok (Z.of_nat k, None,
         take k (drop (Z.to_nat off) (Contents fb)) ++ drop k dest), w0).
Proof.
  intros Hget Hfb Hind Hoff Hend Hlen k.
  assert (0 < 2 ^ 63) by (by apply Z.pow_pos_nonneg).
  destruct (getFileLocked_tail _ _ _ _ _ _ _ Hget) as [tail Htail].
  unfold Read. rewrite (bind_ok _ _ _ _ _ (try_ok _ _ _ _ Hget)).
  set (n := Z.of_nat (length dest)) in *.
  set (len := Z.of_nat (length (Contents fb))) in *.
  destruct (length dest) as [|fuel] eqn:Hdest.
  { cbn [readLoop]. subst n. cbn. subst k.
    replace (Z.to_nat _) with 0%nat by lia. by rewrite drop_0. }
  rewrite readLoop_unfold by lia.
  rewrite Z.add_0_l, (FbmFacts.wrapS64_small off) by lia.
  rewrite (bind_ok _ _ _ _ _
             (try_ok _ _ _ _
                (getFileBlockAtOffset_direct _ _ _ _ _ _ _ _ _ _
                   Htail Hfb Hind))).
  cbn [foundBlock startOff nextBlockStartOff].
  rewrite (bind_ok _ _ _ _ _ (readFileBlock_ok _ _ _ Hfb)).
  cbn zeta. fold len.
  rewrite Z.add_0_l, ?Z.sub_0_r, (FbmFacts.wrapS64_small len) by lia.
  rewrite ?(FbmFacts.wrapS64_small off) by lia.
  destruct (Z.leb_spec len off) as [Hpast|Hin].
  { change (0 <? -1) with false. cbn iota. subst k.
    replace (Z.to_nat _) with 0%nat by lia. by rewrite drop_0. }
  rewrite (FbmFacts.wrapS64_small (len - off)) by lia.
  rewrite min_ltb.
  replace (Z.min n (len - off)) with (Z.of_nat k) by (subst k; lia).
  assert (0 < k ≤ S fuel)%nat as Hk by (subst k; lia).
  assert (slice (Contents fb) off (Z.of_nat k + off)
          = Some (take k (drop (Z.to_nat off) (Contents fb)))) as ->.
  { unfold slice.
    destruct (Z.ltb_spec off 0); [lia|].
    destruct (Z.ltb_spec (Z.of_nat k + off) off); [lia|].
    destruct (Z.ltb_spec (Z.of_nat (length (Contents fb)))
                (Z.of_nat k + off)); [subst k len; lia|].
    cbn [orb]. do 2 f_equal. lia. }
  msteps. rewrite sliceSet_0.
  assert (length (take k (drop (Z.to_nat off) (Contents fb))) = k) as Hlk.
  { rewrite length_take, length_drop. subst k len. lia. }
  rewrite Hlk.
  set (dest1 := take k _ ++ drop k dest).
  destruct (decide (Z.of_nat k = n)) as [Hall|Hless].
  - destruct fuel; cbn [readLoop];
      rewrite Z.add_0_l, (proj2 (Z.ltb_ge (Z.of_nat k) n)) by lia;
      cbn [negb]; by rewrite Hall.
  - destruct fuel as [|fuel]; [subst n; lia|].
    rewrite Z.add_0_l. rewrite readLoop_unfold by (subst n; lia).
    replace (Z.of_nat k + off) with len by (subst k; lia).
    rewrite (FbmFacts.wrapS64_small len) by lia.
    rewrite (bind_ok _ _ _ _ _
               (try_ok _ _ _ _
                  (getFileBlockAtOffset_direct _ _ _ _ _ _ _ _ _ _
                     Htail Hfb Hind))).
    cbn [foundBlock startOff nextBlockStartOff].
    rewrite (bind_ok _ _ _ _ _ (readFileBlock_ok _ _ _ Hfb)).
    cbn zeta. fold len.
    rewrite Z.add_0_l, (FbmFacts.wrapS64_small len) by lia.
    rewrite Z.leb_refl. done.
Qed.

End ReadBounds.

(** Two leaves, the second one late: the short read of one byte stays
    within the buffer of four. *)
Lemma Read_within_dest_witness :
  0 ≤ 1 ≤ Z.of_nat (length (replicate 4 Byte.xff)) ∧
  ∀ i : nat, (Z.to_nat 1 ≤ i)%nat →
    [Byte.x41; Byte.xff; Byte.xff; Byte.xff] !! i
    = replicate 4 Byte.xff !! i.
Proof.
  destruct (Read_within_dest slowServer 3 in6s testMD filePath
              (replicate 4 Byte.xff) 0 twoLeafFile 1 None
              [Byte.x41; Byte.xff; Byte.xff; Byte.xff]
              (Read slowServer 3 in6s testMD filePath
                 (replicate 4 Byte.xff) 0 twoLeafFile).2)
    as (_ & Hcnt & Hrest); [vm_compute; reflexivity|].
  split; [exact Hcnt|exact (Hrest eq_refl)].
Defined.

(** The file [hello]: three bytes at offset 1 are [ell]; four bytes at
    offset 3 are [lo], a count of 2, the rest of the buffer as it was. *)
Lemma Read_direct_file_witness :
  Read testConfig 3 noDeadline testMD filePath (replicate 3 Byte.xff) 1
    fiveByteFile
  = (Ok (3, None, [Byte.x65; Byte.x6c; Byte.x6c]), fiveByteFile) ∧
  Read testConfig 3 noDeadline testMD filePath (replicate 4 Byte.xff) 3
    fiveByteFile
  = (Ok (2, None, [Byte.x6c; Byte.x6f; Byte.xff; Byte.xff]), fiveByteFile).
Proof.
  split.
  - apply (Read_direct_file testConfig 3 noDeadline testMD filePath
             (replicate 3 Byte.xff) 1 fiveByteFile 1%nat fiveByteFile
             (mkFileBlock false [] hello));
      [vm_compute; reflexivity|vm_compute; reflexivity|reflexivity
      |lia|by vm_compute|by vm_compute].
  - apply (Read_direct_file testConfig 3 noDeadline testMD filePath
             (replicate 4 Byte.xff) 3 fiveByteFile 1%nat fiveByteFile
             (mkFileBlock false [] hello));
      [vm_compute; reflexivity|vm_compute; reflexivity|reflexivity
      |lia|by vm_compute|by vm_compute].
Defined.


(** ** Fetching blocks *)

#[local] Instance reads_preorder : PreOrder reads.
Proof.
  split.
  - intros w. by split.
  - intros w1 w2 w3 [] []. split; try congruence; by etrans.
Qed.

Ltac keeps_step :=
  first
    [ solve [auto 1]
    | lazymatch goal with
      | |- keeps _ (bind (fail _) _) => apply keeps_bind_fail
      | |- keeps _ (bind (ret _) _) => apply keeps_bind_ret
      | |- keeps _ (bind (liftSum (inl _)) _) => apply keeps_bind_inl
      | |- keeps _ (bind (liftSum (inr _)) _) => apply keeps_bind_inr
      | |- keeps _ (bind _ _) => apply keeps_bind; [apply _| |intros ?]
      | |- keeps _ (ret _) => apply keeps_ret
      | |- keeps _ (fail _) => apply keeps_fail
      | |- keeps _ panic => apply keeps_panic
      | |- keeps _ outOfFuel => apply keeps_outOfFuel
      | |- keeps _ (gets _) => apply keeps_gets
      | |- keeps _ (liftOpt _) => apply keeps_liftOpt
      | |- keeps _ (liftSum _) => apply keeps_liftSum
      | |- keeps _ (try _) => apply keeps_try
      | |- keeps _ (modify _) =>
          apply keeps_modify; intros;
          first [by split | apply ext_blocks_eq; reflexivity]
      | |- keeps _ (if ?c then _ else _) => destruct c
      | |- keeps _ (match ?x with _ => _ end) => destruct x
      end;
      try apply _ ].

Ltac keeps_auto := repeat keeps_step.

Section Fetching.
Variable cfg : Config.

Lemma reads_readBlock l : keeps reads (readBlock l).
Proof. intros w. unfold readBlock. by destruct (blocks w !! l). Qed.

Lemma reads_readFileBlock l : keeps reads (readFileBlock l).
Proof. unfold readFileBlock. pose proof reads_readBlock. keeps_auto. Qed.

Lemma reads_readDirBlock l : keeps reads (readDirBlock l).
Proof. unfold readDirBlock. pose proof reads_readBlock. keeps_auto. Qed.

Lemma reads_newBlockObj b : keeps reads (newBlockObj b).
Proof.
  intros w. unfold newBlockObj. cbn [snd]. split; try done. mcbn.
  apply insert_subseteq, not_elem_of_dom, is_fresh.
Qed.

Lemma reads_DeepCopy l : keeps reads (DeepCopy l).
Proof.
  unfold DeepCopy. pose proof reads_readBlock. pose proof reads_newBlockObj.
  keeps_auto.
Qed.

Lemma reads_getBlockHelperLocked ctx md ptr branch doCache :
  keeps reads (getBlockHelperLocked cfg ctx md ptr branch doCache).
Proof.
  intros w. unfold getBlockHelperLocked.
  destruct (negb (ptrIsValid ptr)); [done|].
  unfold getBlockFromDirtyOrCleanCache, bind, try, dirtyGet, bcacheGet.
  destruct (dirtyBcache w !! (ptr, branch)); [done|].
  destruct (bcache w !! ptr) as [[l ?]|] eqn:Hmiss; [done|].
  destruct (bopsGet cfg ctx ptr) as [e|b]; [done|].
  cbn [liftSum ret fst snd].
  pose proof (reads_newBlockObj b w) as Hnew.
  destruct (newBlockObj b w) as [[l|e| |] w1] eqn:Hl; try done.
  cbn [snd] in Hnew.
  destruct doCache; [|done].
  unfold bcachePut, modify. cbn [snd].
  etrans; [exact Hnew|].
  split; try done. mcbn.
  apply insert_subseteq.
  unfold newBlockObj in Hl. injection Hl as <- <-. done.
Qed.

Lemma reads_getFileBlockLocked ctx md ptr file rtype :
  keeps reads (getFileBlockLocked cfg ctx md ptr file rtype).
Proof.
  unfold getFileBlockLocked, getFileBlockHelperLocked.
  pose proof reads_getBlockHelperLocked. pose proof reads_readBlock.
  pose proof reads_DeepCopy. keeps_auto.
Qed.

Lemma reads_getFileLocked ctx md file rtype :
  keeps reads (getFileLocked cfg ctx md file rtype).
Proof.
  unfold getFileLocked. pose proof reads_getFileBlockLocked. keeps_auto.
Qed.

Lemma reads_getDirLocked ctx md dir rtype :
  keeps reads (getDirLocked cfg ctx md dir rtype).
Proof.
  unfold getDirLocked, getDirBlockHelperLocked.
  pose proof reads_getBlockHelperLocked. pose proof reads_readBlock.
  pose proof reads_DeepCopy. keeps_auto.
Qed.

Lemma reads_updateWithDirtyEntriesLocked block :
  keeps reads (updateWithDirtyEntriesLocked block).
Proof.
  unfold updateWithDirtyEntriesLocked.
  pose proof reads_readDirBlock. pose proof reads_newBlockObj.
  keeps_auto.
Qed.

Lemma reads_getDirtyEntryLocked ctx md file :
  keeps reads (getDirtyEntryLocked cfg ctx md file).
Proof.
  unfold getDirtyEntryLocked, getDirtyParentAndEntryLocked, getDirtyDirLocked.
  pose proof reads_readDirBlock. pose proof reads_getDirLocked.
  pose proof reads_updateWithDirtyEntriesLocked. keeps_auto.
Qed.

Lemma reads_getFileBlockAtOffsetLoop fuel :
  ∀ ctx md file off rtype r,
    keeps reads (getFileBlockAtOffsetLoop cfg fuel ctx md file off rtype r).
Proof.
  pose proof reads_readFileBlock. pose proof reads_getFileBlockLocked.
  induction fuel as [|fuel IH]; intros ctx md file off rtype r;
    cbn [getFileBlockAtOffsetLoop]; keeps_auto.
Qed.

Lemma reads_getFileBlockAtOffsetLocked fuel ctx md file topBlock off rtype :
  keeps reads
    (getFileBlockAtOffsetLocked cfg fuel ctx md file topBlock off rtype).
Proof.
  unfold getFileBlockAtOffsetLocked.
  pose proof reads_getFileBlockAtOffsetLoop. keeps_auto.
Qed.

Lemma reads_readLoop fuel :
  ∀ depth ctx md file fblock off n nRead dest,
    keeps reads
      (readLoop cfg fuel depth ctx md file fblock off n nRead dest).
Proof.
  pose proof reads_readFileBlock.
  pose proof reads_getFileBlockAtOffsetLocked.
  induction fuel as [|fuel IH];
    intros depth ctx md file fblock off n nRead dest;
    cbn [readLoop]; cbn zeta; keeps_auto.
Qed.

(** X6.  [Read] only fetches: whatever it returns, the dirty block cache,
    the trackers, the dirty entries, the sync infos, the deferred writes
    and the byte counters are as they were, no block object that existed
    was changed, and no entry of the clean block cache was replaced. *)
Theorem Read_only_fetches depth ctx md file dest off w :
  reads w (Read cfg depth ctx md file dest off w).2.
Proof.
  revert w. change (keeps reads (Read cfg depth ctx md file dest off)).
  unfold Read. pose proof reads_getFileLocked. pose proof reads_readLoop.
  keeps_auto.
Qed.

Lemma run_reads {A} (m : M A) w r w1 :
  keeps reads m → m w = (r, w1) → reads w w1.
Proof. intros Hm Hrun. specialize (Hm w). by rewrite Hrun in Hm. Qed.

Lemma readBlock_inv l w b w' :
  readBlock l w = (Ok b, w') → w' = w ∧ blocks w !! l = Some b.
Proof.
  unfold readBlock. destruct (blocks w !! l); [|done]. by intros [= -> ->].
Qed.

Lemma getFileBlockHelperLocked_inv ctx md ptr branch w l w' :
  getFileBlockHelperLocked cfg ctx md ptr branch w = (Ok l, w') →
  getBlockHelperLocked cfg ctx md ptr branch true w = (Ok l, w') ∧
  ∃ fb, blocks w' !! l = Some (BlockFile fb).
Proof.
  unfold getFileBlockHelperLocked. intros Hrun.
  apply bind_inv in Hrun as (l0 & w1 & Hget & Hrun).
  apply bind_inv in Hrun as (b & w2 & Hb & Hrun).
  apply readBlock_inv in Hb as [-> Hb].
  destruct b as [fb| |]; try done. injection Hrun as <- <-.
  split; [done|by exists fb].
Qed.

Lemma getBlockHelperLocked_dirty ctx md ptr branch doCache w l w' :
  getBlockHelperLocked cfg ctx md ptr branch doCache w = (Ok l, w') →
  IsDirty ptr branch w = true →
  dirtyBcache w !! (ptr, branch) = Some l ∧ w' = w.
Proof.
  unfold getBlockHelperLocked, IsDirty. intros Hrun Hdirty.
  apply bool_decide_eq_true in Hdirty as [l0 Hl0].
  destruct (negb (ptrIsValid ptr)); [done|].
  revert Hrun.
  unfold getBlockFromDirtyOrCleanCache, bind, try, dirtyGet.
  rewrite Hl0. by intros [= <- <-].
Qed.

(** X7.  A file block asked for writing is a copy unless it is already
    dirty and not being synced: when the pointer is not dirty, or the
    tracker says the block needs a copy, [getFileBlockLocked] returns a
    new object holding the block that a read returns, and the state is
    that of the read plus this object; otherwise it returns the object of
    the dirty block cache and changes nothing. *)
Theorem getFileBlockLocked_copies_for_write ctx md ptr file w l w' :
  getFileBlockLocked cfg ctx md ptr file blockWrite w = (Ok l, w') →
  ∃ tail,
    TailPointer file = Some tail ∧
    if negb (IsDirty ptr (Branch file) w)
       || from_option (blockNeedsCopy ptr) false (dirtyFiles w !! tail)
    then
      ∃ l0 w1 fb,
        getFileBlockLocked cfg ctx md ptr file blockRead w = (Ok l0, w1) ∧
        blocks w1 !! l0 = Some (BlockFile fb) ∧
        blocks w1 !! l = None ∧
        w' = setBlocks <[l := BlockFile fb]> w1
    else
      dirtyBcache w !! (ptr, Branch file) = Some l ∧ w' = w.
Proof.
  unfold getFileBlockLocked.
  destruct (negb (pathIsValid file)); [done|]. intros Hrun.
  apply bind_inv in Hrun as (l0 & w1 & Hget & Hrun).
  rewrite (bind_ok _ _ _ _ _ Hget).
  destruct (TailPointer file) as [tail|]; [|done]. exists tail.
  split; [done|].
  revert Hrun. msteps.
  pose proof (run_reads _ _ _ _ (reads_getBlockHelperLocked _ _ _ _ _)
                (proj1 (getFileBlockHelperLocked_inv _ _ _ _ _ _ _ Hget)))
    as Hreads.
  unfold IsDirty. rewrite (reads_dirtyBcache _ _ Hreads).
  rewrite (reads_dirtyFiles _ _ Hreads). fold (IsDirty ptr (Branch file) w).
  destruct (negb (IsDirty ptr (Branch file) w)
            || from_option (blockNeedsCopy ptr) false (dirtyFiles w !! tail))
    eqn:Hcopy.
  - unfold DeepCopy. intros Hrun.
    apply bind_inv in Hrun as (b & w2 & Hb & Hrun).
    apply readBlock_inv in Hb as [-> Hb].
    destruct (getFileBlockHelperLocked_inv _ _ _ _ _ _ _ Hget)
      as [_ [fb Hfb]].
    assert (b = BlockFile fb) as -> by congruence.
    unfold newBlockObj in Hrun. injection Hrun as <- <-.
    exists l0, w1, fb. split_and!; try done.
    apply not_elem_of_dom, is_fresh.
  - intros [= <- <-].
    apply orb_false_elim in Hcopy as [Hdirty _].
    apply negb_false_iff in Hdirty.
    apply getFileBlockHelperLocked_inv in Hget as [Hget _].
    by apply (getBlockHelperLocked_dirty _ _ _ _ _ _ _ _ Hget).
Qed.

(** X8.  A block fetched for a file or a directory is cached: asking for
    the same pointer again, with whatever server, returns the same object
    and leaves the state as it is. *)
Theorem getBlockHelperLocked_cached ctx md ptr branch w l w' :
  getBlockHelperLocked cfg ctx md ptr branch true w = (Ok l, w') →
  ∀ cfg2 ctx2 md2 doCache2,
    getBlockHelperLocked cfg2 ctx2 md2 ptr branch doCache2 w' = (Ok l, w').
Proof.
  unfold getBlockHelperLocked.
  destruct (negb (ptrIsValid ptr)); [done|].
  unfold getBlockFromDirtyOrCleanCache, bind, try, dirtyGet, bcacheGet.
  destruct (dirtyBcache w !! (ptr, branch)) as [ld|] eqn:Hd.
  { intros [= <- <-] cfg2 ctx2 md2 doCache2. by rewrite Hd. }
  destruct (bcache w !! ptr) as [[lc perm]|] eqn:Hc.
  { intros [= <- <-] cfg2 ctx2 md2 doCache2. by rewrite Hd, Hc. }
  destruct (bopsGet cfg ctx ptr) as [e|b]; [done|].
  cbn [liftSum ret]. unfold newBlockObj, bcachePut, modify.
  intros [= <- <-] cfg2 ctx2 md2 doCache2. mcbn.
  rewrite Hd. cbv beta iota. mcbn. by rewrite lookup_insert_eq.
Qed.

Lemma readDirBlock_ok l db w :
  blocks w !! l = Some (BlockDir db) → readDirBlock l w = (Ok db, w).
Proof. intros H. unfold readDirBlock, readBlock, bind. by rewrite H. Qed.

(** X9.  The entry of a file is read through the dirty entries: with [v]
    the entry under the file's name in the parent directory block,
    [getDirtyEntryLocked] returns the entry that [deCache] holds for the
    ref of [v] when there is one, and [v] otherwise; the directory block
    object itself is not changed. *)
Theorem getDirtyEntryLocked_prefers_dirty ctx md file w parent name dblock
    w1 db v :
  HasValidParent file = true →
  ParentPath file = Some parent →
  TailName file = Some name →
  getDirLocked cfg ctx md parent blockRead w = (Ok dblock, w1) →
  blocks w1 !! dblock = Some (BlockDir db) →
  Children db !! name = Some v →
  ∃ w2,
    getDirtyEntryLocked cfg ctx md file w
    = (Ok (default v (deCache w !! deRef v)), w2) ∧
    blocks w2 !! dblock = Some (BlockDir db) ∧
    reads w w2.
Proof.
  intros Hvalid Hparent Hname Hdir Hdb Hv.
  pose proof (run_reads _ _ _ _ (reads_getDirLocked _ _ _ _) Hdir) as Hr1.
  unfold getDirtyEntryLocked, getDirtyParentAndEntryLocked, getDirtyDirLocked.
  rewrite Hvalid, Hparent, Hname. cbn [negb]. msteps.
  rewrite (bind_ok _ _ _ _ _ Hdir).
  unfold updateWithDirtyEntriesLocked. msteps.
  rewrite (reads_deCache _ _ Hr1).
  case_bool_decide as Hempty.
  { msteps. rewrite (bind_ok _ _ _ _ _ (readDirBlock_ok _ _ _ Hdb)).
    rewrite Hv. exists w1. rewrite Hempty, lookup_empty. done. }
  msteps. rewrite (bind_ok _ _ _ _ _ (readDirBlock_ok _ _ _ Hdb)).
  case_bool_decide as Hnone.
  { msteps. rewrite (bind_ok _ _ _ _ _ (readDirBlock_ok _ _ _ Hdb)).
    rewrite Hv. exists w1. rewrite (Hnone _ _ Hv). done. }
  unfold newBlockObj at 1. unfold bind at 1. msteps.
  set (l := fresh (dom (blocks w1))).
  assert (blocks w1 !! l = None) as Hfresh
    by (apply not_elem_of_dom, is_fresh).
  erewrite bind_ok;
    [|apply readDirBlock_ok; mcbn; apply lookup_insert_eq].
  cbn [Children]. rewrite lookup_fmap, Hv. cbn [fmap option_fmap option_map].
  eexists. split; [reflexivity|]. split.
  - mcbn. rewrite lookup_insert_ne; [done|congruence].
  - etrans; [exact Hr1|]. split; try done. mcbn.
    by apply insert_subseteq.
Qed.

End Fetching.

(** The file of one byte is clean: for writing one gets a new object with
    its block.  The file with a hole is dirty: for writing one gets the
    object of the dirty block cache. *)
Lemma getFileBlockLocked_copies_for_write_witness :
  (∃ l0 w1 fb,
     getFileBlockLocked testConfig noDeadline testMD filePtr filePath
       blockRead oneByteFile = (Ok l0, w1) ∧
     blocks w1 !! l0 = Some (BlockFile fb) ∧
     blocks w1 !! 2%nat = None ∧
     (getFileBlockLocked testConfig noDeadline testMD filePtr filePath
        blockWrite oneByteFile).2 = setBlocks <[2%nat := BlockFile fb]> w1) ∧
  dirtyBcache holeFile !! (filePtr, Branch filePath) = Some 4%nat.
Proof.
  split.
  - destruct (getFileBlockLocked_copies_for_write testConfig noDeadline
                testMD filePtr filePath oneByteFile 2%nat
                (getFileBlockLocked testConfig noDeadline testMD filePtr
                   filePath blockWrite oneByteFile).2)
      as (tail & _ & Hcopy); [vm_compute; reflexivity|].
    assert (IsDirty filePtr (Branch filePath) oneByteFile = false) as Hclean
      by (vm_compute; reflexivity).
    rewrite Hclean in Hcopy. exact Hcopy.
  - destruct (getFileBlockLocked_copies_for_write testConfig noDeadline
                testMD filePtr filePath holeFile 4%nat holeFile)
      as (tail & Htail & Hsame); [vm_compute; reflexivity|].
    assert (tail = filePtr) as ->
      by (vm_compute in Htail; injection Htail as <-; reflexivity).
    assert (negb (IsDirty filePtr (Branch filePath) holeFile)
            || from_option (blockNeedsCopy filePtr) false
                 (dirtyFiles holeFile !! filePtr) = false) as Hdirty
      by (vm_compute; reflexivity).
    rewrite Hdirty in Hsame. exact (proj1 Hsame).
Defined.

(** The second leaf of the file of two leaves comes from the slow
    server; asked again with a server that has no block at all, it is
    there. *)
Lemma getBlockHelperLocked_cached_witness :
  let w' := (getBlockHelperLocked slowServer noDeadline testMD (ptrN 8)
               "master" true twoLeafFile).2 in
  getBlockHelperLocked testConfig in6s testMD (ptrN 8) "master" false w'
  = (Ok 3%nat, w').
Proof.
  intros w'.
  apply (getBlockHelperLocked_cached slowServer noDeadline testMD (ptrN 8)
           "master"%string twoLeafFile 3%nat w').
  vm_compute. reflexivity.
Defined.

(** The file with a hole: the directory block says one byte, the dirty
    entry a million. *)
Lemma getDirtyEntryLocked_prefers_dirty_witness :
  ∃ w2,
    getDirtyEntryLocked testConfig noDeadline testMD filePath holeFile
    = (Ok (mkDirEntry (mkBlockInfo filePtr 0) File 1000000 0 0), w2).
Proof.
  destruct (getDirtyEntryLocked_prefers_dirty testConfig noDeadline testMD
              filePath holeFile
              (mkPath 9 "master" [mkPathNode rootPtr "root"]) "f"%string
              0%nat holeFile
              (mkDirBlock
                 (<["f"%string :=
                      mkDirEntry (mkBlockInfo filePtr 10) File 1 0 0]> ∅))
              (mkDirEntry (mkBlockInfo filePtr 10) File 1 0 0))
    as (w2 & Hrun & _);
    [vm_compute; reflexivity|vm_compute; reflexivity|vm_compute; reflexivity
    |vm_compute; reflexivity|vm_compute; reflexivity|vm_compute; reflexivity|].
  exists w2. rewrite Hrun. vm_compute. reflexivity.
Defined.

(** ** Truncating to the same or to a smaller size *)

Section Shrinking.
Variable cfg : Config.
Variable writeDataLocked :
  Context → RootMetadata → Path → list byte → Z
  → M (WriteRange * list BlockPointer * Z).

Lemma reads_writeGetFileLocked ctx md file :
  keeps reads (writeGetFileLocked cfg ctx md file).
Proof.
  unfold writeGetFileLocked, getCurrentUserInfo.
  pose proof (reads_getFileLocked cfg ctx md file blockWrite).
  keeps_auto.
Qed.

(** X16.  Truncating a file to the size it has changes nothing: when the
    block found at [size] is the last one and ends at [size],
    [truncateLocked] returns a nil write range, no dirty pointers and no
    newly dirtied bytes, and the state differs from the one before only
    by blocks that were fetched ([size] below 2^63 - 128 KiB). *)
Theorem truncateLocked_same_size depth ctx md file size w fblock uid w1 r w2
    block :
  0 ≤ size →
  size + truncateExtendCutoffPoint < 2 ^ 63 →
  writeGetFileLocked cfg ctx md file w = (Ok (fblock, uid), w1) →
  getFileBlockAtOffsetLocked cfg depth ctx md file fblock size blockWrite w1
  = (Ok r, w2) →
  blocks w2 !! foundBlock r = Some (BlockFile block) →
  startOff r + Z.of_nat (length (Contents block)) = size →
  nextBlockStartOff r < 0 →
  truncateLocked cfg writeDataLocked depth ctx md file size w
  = (Ok (None, [], 0), w2) ∧
  reads w w2.
Proof.
  intros Hsize Hcut Hget Hfind Hblock Hlen Hlast.
  assert (0 < truncateExtendCutoffPoint) by done.
  change (2 ^ 63) with 9223372036854775808 in Hcut.
  destruct (writeGetFileLocked_tail _ _ _ _ _ _ _ _ Hget) as [tail Htail].
  split.
  - unfold truncateLocked.
    rewrite (bind_ok _ _ _ _ _ Hget). rewrite Htail. msteps.
    unfold toInt64.
    rewrite (FbmFacts.wrapS64_small size)
      by (change (2 ^ 63) with 9223372036854775808; lia).
    rewrite (bind_ok _ _ _ _ _ (try_ok _ _ _ _ Hfind)). msteps.
    rewrite (bind_ok _ _ _ _ _ (readFileBlock_ok _ _ _ Hblock)).
    cbn zeta. rewrite Hlen.
    rewrite (FbmFacts.wrapS64_small size)
      by (change (2 ^ 63) with 9223372036854775808; lia).
    rewrite (FbmFacts.wrapS64_small (size + _))
      by (change (2 ^ 63) with 9223372036854775808; lia).
    rewrite (proj2 (Z.ltb_ge _ _)) by lia.
    rewrite Z.ltb_irrefl, Z.eqb_refl.
    by rewrite (proj2 (Z.ltb_lt _ _) Hlast).
  - etrans.
    + exact (run_reads _ _ _ _ (reads_writeGetFileLocked _ _ _) Hget).
    + exact (run_reads _ _ _ _
               (reads_getFileBlockAtOffsetLocked _ _ _ _ _ _ _ _) Hfind).
Qed.


(** X17.  Truncating a file of one direct block to a smaller size: the
    block object that [writeGetFileLocked] gave (a copy when the file was
    clean) holds the first [size] bytes, no other block object and no
    entry of the clean cache changes, the dirty entry of the file gets
    the size [size] (and encoded size 0), the truncate is recorded as the
    write range [(size, 0)], the newly dirtied bytes are [size], less the
    old length when the block was dirty already, and they are added to
    the unsynced bytes; when the tracker does not know the tail pointer
    yet, the truncated block is put into the dirty block cache. *)
Theorem truncateLocked_shrinks_direct depth ctx md file size w fblock uid w1
    fb de w2 :
  writeGetFileLocked cfg ctx md file w = (Ok (fblock, uid), w1) →
  blocks w1 !! fblock = Some (BlockFile fb) →
  IsInd fb = false →
  0 ≤ size < Z.of_nat (length (Contents fb)) →
  Z.of_nat (length (Contents fb)) + truncateExtendCutoffPoint < 2 ^ 63 →
  getDirtyEntryLocked cfg ctx md file w1 = (Ok de, w2) →
  ∃ tail w',
    TailPointer file = Some tail ∧
    truncateLocked cfg writeDataLocked depth ctx md file size w
    = (Ok (Some (mkWriteRange size 0), [],
           size - (if IsDirty tail (Branch file) w
                   then Z.of_nat (length (Contents fb)) else 0)), w') ∧
    blocks w'
    = <[fblock := BlockFile (mkFileBlock false (IPtrs fb)
                               (take (Z.to_nat size) (Contents fb)))]>
        (blocks w2) ∧
    bcache w' = bcache w2 ∧
    deCache w' = <[ref tail := setEntry de size]> (deCache w2) ∧
    unsyncedBytes w'
    = unsyncedBytes w
      + (size - (if IsDirty tail (Branch file) w
                 then Z.of_nat (length (Contents fb)) else 0)) ∧
    ((∀ df, dirtyFiles w !! tail = Some df →
        fileBlockStates df !! tail = None) →
     dirtyBcache w' = <[(tail, Branch file) := fblock]> (dirtyBcache w)).
Proof.
  intros Hget Hfb Hdir Hsize Hcut Hde.
  assert (0 < truncateExtendCutoffPoint) by done.
  change (2 ^ 63) with 9223372036854775808 in Hcut.
  destruct (writeGetFileLocked_tail _ _ _ _ _ _ _ _ Hget) as [tail Htail].
  pose proof (run_reads _ _ _ _ (reads_writeGetFileLocked _ _ _) Hget) as Hr1.
  pose proof (run_reads _ _ _ _ (reads_getDirtyEntryLocked _ _ _ _) Hde)
    as Hr2.
  assert (blocks w2 !! fblock = Some (BlockFile fb)) as Hfb2
    by (eapply lookup_weaken; [exact Hfb|apply Hr2]).
  destruct (truncateLocked cfg writeDataLocked depth ctx md file size w)
    as [res w'] eqn:Hrun.
  exists tail, w'. split; [done|].
  revert Hrun. unfold truncateLocked.
  rewrite (bind_ok _ _ _ _ _ Hget). rewrite Htail. msteps.
  unfold toInt64.
  rewrite (FbmFacts.wrapS64_small size)
    by (change (2 ^ 63) with 9223372036854775808; lia).
  rewrite (bind_ok _ _ _ _ _ (try_ok _ _ _ _
             (getFileBlockAtOffset_direct cfg depth ctx md file fblock size
                blockWrite w1 fb tail Htail Hfb Hdir))).
  msteps. cbn [foundBlock startOff nextBlockStartOff foundPtr parentBlock
               indexInParent].
  rewrite (bind_ok _ _ _ _ _ (readFileBlock_ok _ _ _ Hfb)).
  cbn zeta. rewrite Z.add_0_l, Z.sub_0_r.
  rewrite (FbmFacts.wrapS64_small (Z.of_nat _))
    by (change (2 ^ 63) with 9223372036854775808; lia).
  rewrite (FbmFacts.wrapS64_small (_ + _))
    by (change (2 ^ 63) with 9223372036854775808; lia).
  rewrite (FbmFacts.wrapS64_small size)
    by (change (2 ^ 63) with 9223372036854775808; lia).
  rewrite (proj2 (Z.ltb_ge _ size)) by lia.
  rewrite (proj2 (Z.ltb_ge _ size)) by lia.
  replace (Z.of_nat (length (Contents fb)) =? size) with false
    by (symmetry; apply Z.eqb_neq; lia).
  cbn [andb].
  rewrite (bind_ok _ _ _ _ _ Hde). msteps.
  unfold slice. cbn [orb Z.ltb Z.compare].
  rewrite (proj2 (Z.ltb_ge _ 0)) by lia.
  rewrite (proj2 (Z.ltb_ge _ size)) by lia.
  cbn [orb]. msteps. rewrite Z.sub_0_r, drop_0.
  unfold writeFileBlock. msteps.
  unfold getOrCreateDirtyFileLocked at 1. rewrite Htail. msteps.
  set (n := Z.of_nat (length (take (Z.to_nat size) (Contents fb))) -
            (if IsDirty tail (Branch file) w2
             then Z.of_nat (length (Contents fb)) else 0)).
  unfold updateNotYetSyncingBytes, UpdateUnsyncedBytes.
  unfold getOrCreateSyncInfoLocked, addTruncate, addRange,
    cacheBlockIfNotYetDirtyLocked, getOrCreateDirtyFileLocked, dirtyPut.
  rewrite Htail. rewrite Hdir.
  destruct (dirtyFiles w2 !! tail) as [df|] eqn:Hdf; msteps;
    (destruct (unrefCache w2 !! deRef de) as [si|] eqn:Hsi; msteps;
     [|]).
  all: (erewrite bind_ok;
          [|apply readFileBlock_ok; mcbn; apply lookup_insert_eq]).
  all: cbn [IsInd]; msteps.
  all: rewrite ?lookup_alter_eq, ?lookup_insert_eq, ?Hdf; cbn [fmap option_fmap option_map]; msteps.
  all: unfold setBlockDirty; cbv beta iota zeta; msteps.
  all: rewrite lookup_alter_eq, ?lookup_insert_eq, ?Hdf;
    cbn [fmap option_fmap option_map]; msteps.
  all: cbn [fileBlockStates newDirtyFile]; rewrite ?lookup_empty.
  all: match goal with
       | |- context [bool_decide (?P = None)] =>
           destruct (bool_decide_reflect (P = None)) as [Hnew|Hold]
       end; msteps.
  all: match goal with
       | |- context [anySyncing ?d] => destruct (anySyncing d)
       end; msteps.
  all: intros [= <- <-]; mcbn.
  all: assert (IsDirty tail (Branch file) w2 = IsDirty tail (Branch file) w)
         as HeqD
         by (unfold IsDirty;
             by rewrite (reads_dirtyBcache _ _ Hr2),
                        (reads_dirtyBcache _ _ Hr1)).
  all: assert (n = size - (if IsDirty tail (Branch file) w
                           then Z.of_nat (length (Contents fb)) else 0))
         as Hn
         by (unfold n; rewrite HeqD, length_take; destruct (IsDirty _ _ w); lia).
  all: rewrite <- Hn.
  all: split_and!; try reflexivity.
  all: try (rewrite (reads_unsyncedBytes _ _ Hr2),
                    (reads_unsyncedBytes _ _ Hr1); reflexivity).
  all: intros Hnone;
    rewrite (reads_dirtyBcache _ _ Hr2), (reads_dirtyBcache _ _ Hr1);
    try reflexivity.
  all: exfalso; apply Hold; try done.
  all: apply Hnone.
  all: by rewrite <- (reads_dirtyFiles _ _ Hr1), <- (reads_dirtyFiles _ _ Hr2).
Qed.


End Shrinking.

Lemma truncateLocked_same_size_witness :
  let w1 := (writeGetFileLocked testConfig noDeadline testMD filePath
               fiveByteFile).2 in
  truncateLocked testConfig noWriteData 3 noDeadline testMD filePath 5
    fiveByteFile
  = (Ok (None, [], 0), w1) ∧
  reads fiveByteFile w1.
Proof.
  intros w1.
  apply (truncateLocked_same_size testConfig noWriteData 3 noDeadline testMD
           filePath 5 fiveByteFile 2%nat 1%N w1
           (mkBlockAtOffset filePtr None 0 2%nat (-1) 0) w1
           (mkFileBlock false [] hello)).
  - lia.
  - by vm_compute.
  - vm_compute. reflexivity.
  - vm_compute. reflexivity.
  - vm_compute. reflexivity.
  - vm_compute. reflexivity.
  - by vm_compute.
Defined.

Lemma truncateLocked_shrinks_direct_witness :
  ∃ tail w',
    TailPointer filePath = Some tail ∧
    truncateLocked testConfig noWriteData 3 noDeadline testMD filePath 2
      fiveByteFile
    = (Ok (Some (mkWriteRange 2 0), [],
           2 - (if IsDirty tail (Branch filePath) fiveByteFile
                then Z.of_nat (length (Contents (mkFileBlock false [] hello)))
                else 0)), w') ∧
    blocks w' !! 2%nat
    = Some (BlockFile (mkFileBlock false [] (take 2 hello))).
Proof.
  destruct (truncateLocked_shrinks_direct testConfig noWriteData 3
              noDeadline testMD filePath 2 fiveByteFile 2%nat 1%N
              (writeGetFileLocked testConfig noDeadline testMD filePath
                 fiveByteFile).2
              (mkFileBlock false [] hello)
              (mkDirEntry (mkBlockInfo filePtr 10) File 5 0 0)
              (getDirtyEntryLocked testConfig noDeadline testMD filePath
                 (writeGetFileLocked testConfig noDeadline testMD filePath
                    fiveByteFile).2).2)
    as (tail & w' & Htail & Hrun & Hblocks & _).
  - vm_compute. reflexivity.
  - vm_compute. reflexivity.
  - reflexivity.
  - simpl. lia.
  - by vm_compute.
  - vm_compute. reflexivity.
  - exists tail, w'. split; [exact Htail|]. split; [exact Hrun|].
    rewrite Hblocks. apply lookup_insert_eq.
Defined.

(** ** Deferring a write *)

Section Deferring.
Variable writeDataLocked :
  Context → RootMetadata → Path → list byte → Z
  → M (WriteRange * list BlockPointer * Z).
Variable RequestPermissionToDirty : Context → Z → M nat.
Variable maybeWaitOnDeferredWrites : Context → nat → nat → M unit.
Variable PathFromNode : nat → Path.


End Deferring.


(** ** Writing data *)

Lemma bindW_assoc {A B C} (m : MW A) (k1 : A → MW B) (k2 : B → MW C) z w :
  bindW (bindW m k1) k2 z w = bindW m (fun a => bindW (k1 a) k2) z w.
Proof. unfold bindW. by destruct (m z w) as [[] []]. Qed.

Lemma bindW_retW {A B} (a : A) (k : A → MW B) z w :
  bindW (retW a) k z w = k a z w.
Proof. reflexivity. Qed.

Lemma bindW_ok {A B} (m : M A) (k : A → MW B) z w a w1 :
  m w = (Ok a, w1) → bindW (liftW m) k z w = k a z w1.
Proof. unfold bindW, liftW. by intros ->. Qed.

Lemma bindW_bind {A B C} (m : M A) (k1 : A → M B) (k2 : B → MW C) z w :
  bindW (liftW (bind m k1)) k2 z w
  = bindW (liftW m) (fun a => bindW (liftW (k1 a)) k2) z w.
Proof. unfold bindW, liftW, bind. by destruct (m w) as [[] ?]. Qed.

Lemma bindW_ret {A B} (a : A) (k : A → MW B) z w :
  bindW (liftW (ret a)) k z w = k a z w.
Proof. reflexivity. Qed.

Lemma bindW_gets {A B} (f : World → A) (k : A → MW B) z w :
  bindW (liftW (gets f)) k z w = k (f w) z w.
Proof. reflexivity. Qed.

Lemma bindW_modify {B} (f : World → World) (k : unit → MW B) z w :
  bindW (liftW (modify f)) k z w = k tt z (f w).
Proof. reflexivity. Qed.

Lemma bindW_addNewlyDirtied {B} d (k : unit → MW B) z w :
  bindW (addNewlyDirtied d) k z w = k tt (wrapS64 (z + d)) w.
Proof. reflexivity. Qed.

Ltac mstepsW :=
  repeat (mcbn;
          first [ rewrite bindW_assoc | rewrite bindW_retW
                | rewrite bindW_ret | rewrite bindW_gets
                | rewrite bindW_modify | rewrite bindW_addNewlyDirtied
                | rewrite bindW_bind ]);
  mcbn.

Section WriteDataFacts.
Variable cfg : Config.
Variable CopyUntilSplit : FileBlock → bool → list byte → Z → FileBlock * Z.

Lemma writeDataLoop_done fuel depth ctx md file uid si data off v :
  (wvCopied v <? Z.of_nat (length data)) = false →
  writeDataLoop cfg CopyUntilSplit fuel depth ctx md file uid si data off v
  = retW v.
Proof. intros H. destruct fuel; cbn [writeDataLoop]; by rewrite H. Qed.

Lemma writeDataLoop_unfold fuel depth ctx md file uid si data off v :
  (wvCopied v <? Z.of_nat (length data)) = true →
  writeDataLoop cfg CopyUntilSplit (S fuel) depth ctx md file uid si data off
    v
  = bindW (writeDataStep cfg CopyUntilSplit depth ctx md file uid si data off
             v)
      (writeDataLoop cfg CopyUntilSplit fuel depth ctx md file uid si data
         off).
Proof. intros H. cbn [writeDataLoop]. by rewrite H. Qed.

Lemma writeDataLocked_direct_run fuel depth ctx md file data off w fblock uid
    w1 fb fb' de w2 :
  0 ≤ off →
  0 < Z.of_nat (length data) →
  off + Z.of_nat (length data) < 2 ^ 63 →
  off + Z.of_nat (length data) ≤ MaxFileBytes cfg →
  Z.of_nat (length (Contents fb)) < 2 ^ 63 →
  Z.of_nat (length (Contents fb')) < 2 ^ 63 →
  writeGetFileLocked cfg ctx md file w = (Ok (fblock, uid), w1) →
  blocks w1 !! fblock = Some (BlockFile fb) →
  IsInd fb = false →
  getDirtyEntryLocked cfg ctx md file (getOrCreateDirtyFileLocked file w1).2
  = (Ok de, w2) →
  CopyUntilSplit fb true data off = (fb', Z.of_nat (length data)) →
  IsInd fb' = false →
  let n := Z.of_nat (length data) in
  let oldLen := Z.of_nat (length (Contents fb)) in
  let newLen := Z.of_nat (length (Contents fb')) in
  ∃ tail w',
    TailPointer file = Some tail ∧
    writeDataLocked cfg CopyUntilSplit (S fuel) depth ctx md file data off w
    = (Ok (mkWriteRange off n, [tail],
           newLen - (if IsDirty tail (Branch file) w then oldLen else 0)),
       w') ∧
    blocks w' = <[fblock := BlockFile fb']> (blocks w2) ∧
    bcache w' = bcache w2 ∧
    deCache w'
    = (if oldLen =? newLen then deCache w2
       else <[ref tail :=
                mkDirEntry (mkBlockInfo (infoPtr (entryInfo de)) 0)
                  (entryType de)
                  (toUint64 (Size de + toUint64 (newLen - oldLen)))
                  (Mtime de) (Ctime de)]> (deCache w2)) ∧
    unsyncedBytes w'
    = unsyncedBytes w
      + (newLen - (if IsDirty tail (Branch file) w then oldLen else 0)) ∧
    ((∀ df, dirtyFiles w !! tail = Some df →
        fileBlockStates df !! tail = None) →
     dirtyBcache w' = <[(tail, Branch file) := fblock]> (dirtyBcache w)) ∧
    (dirtyBcache w' = dirtyBcache w ∨
     dirtyBcache w' = <[(tail, Branch file) := fblock]> (dirtyBcache w)).
Proof.
  intros Hoff Hn Hend Hmax Hlen Hlen' Hget Hfb Hdir Hde Hsplit Hdir'
    n oldLen newLen.
  change (2 ^ 63) with 9223372036854775808 in *.
  destruct (writeGetFileLocked_tail _ _ _ _ _ _ _ _ Hget) as [tail Htail].
  pose proof (run_reads _ _ _ _ (reads_writeGetFileLocked cfg _ _ _) Hget)
    as Hr1.
  destruct (writeDataLocked cfg CopyUntilSplit (S fuel) depth ctx md file data
              off w) as [res w'] eqn:Hrun.
  exists tail, w'. split; [done|].
  revert Hrun. unfold writeDataLocked.
  rewrite (FbmFacts.wrapS64_small (off + _))
    by (change (2 ^ 63) with 9223372036854775808; lia).
  unfold toUint64 at 1. rewrite Z.mod_small
    by (change (2 ^ 64) with 18446744073709551616; lia).
  rewrite (proj2 (Z.ltb_ge _ _)) by lia.
  rewrite (bind_ok _ _ _ _ _ Hget).
  revert Hde. unfold getOrCreateDirtyFileLocked at 1 2. rewrite Htail. msteps.
  destruct (dirtyFiles w1 !! tail) as [df|] eqn:Hdf; msteps;
    unfold ret at 1; cbn [snd]; intros Hde.
  all: pose proof (run_reads _ _ _ _ (reads_getDirtyEntryLocked _ _ _ _) Hde)
         as Hr2.
  all: unfold bind at 1; unfold withDeferW.
  all: match goal with
       | |- context [writeDataBody ?a ?b ?c ?d ?e ?f ?g ?h ?i ?j ?k ?l ?m] =>
           destruct (writeDataBody a b c d e f g h i j k l m)
             as [rb [zb wb]] eqn:Hbody
       end.
  all: revert Hbody; unfold writeDataBody; rewrite Htail; mstepsW.
  all: rewrite (bindW_ok _ _ _ _ _ _ Hde).
  all: unfold getOrCreateSyncInfoLocked; mstepsW.
  all: destruct (unrefCache w2 !! deRef de) as [si|] eqn:Hsi; mstepsW.
  all: rewrite writeDataLoop_unfold
         by (cbn [wvCopied]; apply Z.ltb_lt; lia).
  all: unfold writeDataStep; cbn [wvFblock wvCopied wvDe wvDirtyPtrs];
    rewrite Htail; mstepsW; rewrite Z.add_0_r;
    rewrite (FbmFacts.wrapS64_small off)
      by (change (2 ^ 63) with 9223372036854775808; lia).
  all: assert (blocks w2 !! fblock = Some (BlockFile fb)) as Hfb2
         by (eapply lookup_weaken; [exact Hfb|]; apply Hr2).
  all: (erewrite bindW_ok;
        [|apply (getFileBlockAtOffset_direct cfg depth ctx md file fblock
                   off blockWrite _ fb tail);
          [exact Htail|mcbn; exact Hfb2|exact Hdir]]).
  all: cbn [foundBlock startOff nextBlockStartOff foundPtr parentBlock
            indexInParent].
  all: rewrite bindW_assoc.
  all: (erewrite bindW_ok; [|apply readFileBlock_ok; mcbn; exact Hfb2]).
  all: mstepsW.
  all: change (0 <? -1) with false; cbn [andb];
    change (-1 <? 0) with true; rewrite Z.sub_0_r;
    rewrite (FbmFacts.wrapS64_small off)
      by (change (2 ^ 63) with 9223372036854775808; lia).
  all: assert (slice data 0 (Z.of_nat (length data)) = Some data) as ->
         by (unfold slice; cbn [Z.ltb Z.compare orb];
             rewrite (proj2 (Z.ltb_ge _ 0)) by lia; rewrite Z.ltb_irrefl;
             cbn [orb]; rewrite Z.sub_0_r, drop_0, Nat2Z.id;
             by rewrite take_ge).
  all: mstepsW; rewrite Hsplit; unfold writeFileBlock; mstepsW.
  all: rewrite Z.add_0_l;
    rewrite (FbmFacts.wrapS64_small (Z.of_nat (length data)))
      by (change (2 ^ 63) with 9223372036854775808; lia);
    rewrite Z.ltb_irrefl; cbn [andb]; mstepsW.
  all: (erewrite bindW_ok;
        [|apply readFileBlock_ok; mcbn; apply lookup_insert_eq]).
  all: fold oldLen newLen; cbn [andb]; rewrite andb_true_r.
  all: destruct (Z.eqb_spec oldLen newLen) as [Hsame|Hdiff]; cbn [negb];
    mstepsW.
  all: unfold IsDirty; mcbn; fold (IsDirty tail (Branch file) w2).
  all: destruct (IsDirty tail (Branch file) w2) eqn:Hdirty; mstepsW.
  all: unfold cacheBlockIfNotYetDirtyLocked, getOrCreateDirtyFileLocked,
         dirtyPut; rewrite Htail; mstepsW.
  all: rewrite ?(reads_dirtyFiles _ _ Hr2); mcbn;
    rewrite ?lookup_insert_eq, ?Hdf; mstepsW.
  all: rewrite ?(reads_dirtyFiles _ _ Hr2); mcbn;
    rewrite ?lookup_insert_eq, ?Hdf; mstepsW.
  all: unfold setBlockDirty; cbv beta iota zeta; mstepsW.
  all: cbn [fileBlockStates newDirtyFile]; rewrite ?lookup_empty.
  all: rewrite ?(bool_decide_eq_true_2 (None = None)) by done.
  all: try (destruct (bool_decide_reflect (fileBlockStates df !! tail = None))
              as [Hnew|Hold];
            destruct (anySyncing df)).
  all: try destruct (anySyncing newDirtyFile).
  all: mstepsW.
  all: rewrite writeDataLoop_done
         by (cbn [wvCopied]; apply Z.ltb_irrefl).
  all: mstepsW; cbn [wvFblock wvCopied wvDe wvDirtyPtrs].
  all: (erewrite bindW_ok;
        [|apply readFileBlock_ok; mcbn; apply lookup_insert_eq]).
  all: rewrite Hdir'; mstepsW.
  all: unfold addWrite, addRange; mstepsW.
  all: intros [= <- <- <-].
  all: unfold updateNotYetSyncingBytes, UpdateUnsyncedBytes, maybeForceSync;
    msteps.
  all: match goal with
       | |- context [ShouldForceSync ?c ?x] => destruct (ShouldForceSync c x)
       end; msteps.
  all: intros [= <- <-]; mcbn.
  all: assert (dirtyBcache w2 = dirtyBcache w) as Hdb
         by (rewrite (reads_dirtyBcache _ _ Hr2); mcbn;
             by rewrite (reads_dirtyBcache _ _ Hr1)).
  all: assert (unsyncedBytes w2 = unsyncedBytes w) as Hub
         by (rewrite (reads_unsyncedBytes _ _ Hr2); mcbn;
             by rewrite (reads_unsyncedBytes _ _ Hr1)).
  all: revert Hdirty; unfold IsDirty; rewrite Hdb; intros ->.
  all: rewrite Hub, ?Z.add_0_l, ?Z.sub_0_r.
  all: unfold toUint64;
    rewrite !Z.mod_small
      by (change (2 ^ 64) with 18446744073709551616; lia).
  all: rewrite ?(FbmFacts.wrapS64_small newLen)
         by (change (2 ^ 63) with 9223372036854775808; lia).
  all: rewrite ?(FbmFacts.wrapS64_small (newLen + - oldLen))
         by (change (2 ^ 63) with 9223372036854775808; lia).
  all: rewrite ?Z.add_opp_r, ?Z.sub_0_r.
  all: split_and!; try reflexivity.
  all: try (intros Hfresh; destruct Hold; apply Hfresh;
            rewrite <- (reads_dirtyFiles _ _ Hr1); exact Hdf).
  all: try (by left); by right.
Qed.

(** X19.  A write that fits into the single direct block of a file.  When
    the splitter copies all of [data] into the block at [off], turning
    [fb] into [fb'], [writeDataLocked] returns the range [off, len(data)],
    the file's own pointer as the only dirtied one, and as newly dirtied
    bytes the length of the new block, less the old length when the block
    was dirty before.  The block object holds [fb'], the unsynced bytes
    grew by the newly dirtied ones, and when the length of the block
    changed the dirty entry of the file has its size grown by the
    difference and its encoded size reset. *)
Theorem writeDataLocked_direct fuel depth ctx md file data off w fblock uid
    w1 fb fb' de w2 :
  0 ≤ off →
  0 < Z.of_nat (length data) →
  off + Z.of_nat (length data) < 2 ^ 63 →
  off + Z.of_nat (length data) ≤ MaxFileBytes cfg →
  Z.of_nat (length (Contents fb)) < 2 ^ 63 →
  Z.of_nat (length (Contents fb')) < 2 ^ 63 →
  writeGetFileLocked cfg ctx md file w = (Ok (fblock, uid), w1) →
  blocks w1 !! fblock = Some (BlockFile fb) →
  IsInd fb = false →
  getDirtyEntryLocked cfg ctx md file (getOrCreateDirtyFileLocked file w1).2
  = (Ok de, w2) →
  CopyUntilSplit fb true data off = (fb', Z.of_nat (length data)) →
  IsInd fb' = false →
  let n := Z.of_nat (length data) in
  let oldLen := Z.of_nat (length (Contents fb)) in
  let newLen := Z.of_nat (length (Contents fb')) in
  ∃ tail w',
    TailPointer file = Some tail ∧
    writeDataLocked cfg CopyUntilSplit (S fuel) depth ctx md file data off w
    = (Ok (mkWriteRange off n, [tail],
           newLen - (if IsDirty tail (Branch file) w then oldLen else 0)),
       w') ∧
    blocks w' !! fblock = Some (BlockFile fb') ∧
    deCache w'
    = (if oldLen =? newLen then deCache w2
       else <[ref tail :=
                mkDirEntry (mkBlockInfo (infoPtr (entryInfo de)) 0)
                  (entryType de)
                  (toUint64 (Size de + toUint64 (newLen - oldLen)))
                  (Mtime de) (Ctime de)]> (deCache w2)) ∧
    unsyncedBytes w'
    = unsyncedBytes w
      + (newLen - (if IsDirty tail (Branch file) w then oldLen else 0)).
Proof.
  intros Hoff Hn Hend Hmax Hlen Hlen' Hget Hfb Hdir Hde Hsplit Hdir'
    n oldLen newLen.
  destruct (writeDataLocked_direct_run fuel depth ctx md file data off w
              fblock uid w1 fb fb' de w2)
    as (tail & w' & Htail & Hrun & Hblocks & _ & Hdec & Hub & _);
    try assumption.
  exists tail, w'. split_and!; try assumption.
  rewrite Hblocks. apply lookup_insert_eq.
Qed.

Lemma writeGetFileLocked_valid ctx md file w fblock uid w1 tail :
  writeGetFileLocked cfg ctx md file w = (Ok (fblock, uid), w1) →
  TailPointer file = Some tail →
  pathIsValid file = true ∧ ptrIsValid tail = true.
Proof.
  unfold writeGetFileLocked, getFileLocked. intros Hrun Htail.
  apply bind_inv in Hrun as ([name uid'] & w0 & _ & Hrun).
  destruct (negb (IsWriter md uid')); [done|].
  apply bind_inv in Hrun as (l & w3 & Hrun & _).
  rewrite Htail in Hrun. revert Hrun. mcbn. rewrite bind_ret.
  unfold getFileBlockLocked.
  destruct (pathIsValid file); [|done]. cbn [negb].
  intros Hrun. apply bind_inv in Hrun as (l1 & w4 & Hrun & _).
  unfold getFileBlockHelperLocked in Hrun.
  apply bind_inv in Hrun as (l2 & w5 & Hrun & _).
  unfold getBlockHelperLocked in Hrun.
  by destruct (ptrIsValid tail).
Qed.

Lemma getFileLocked_dirty ctx md file w tail l fb :
  pathIsValid file = true → ptrIsValid tail = true →
  TailPointer file = Some tail →
  dirtyBcache w !! (tail, Branch file) = Some l →
  blocks w !! l = Some (BlockFile fb) →
  getFileLocked cfg ctx md file blockRead w = (Ok l, w).
Proof.
  intros Hpath Hptr Htail Hdirty Hl.
  unfold getFileLocked, getFileBlockLocked, getFileBlockHelperLocked,
    getBlockHelperLocked, getBlockFromDirtyOrCleanCache.
  rewrite Htail, Hpath. msteps. cbn [negb]. rewrite Hptr. cbn [negb].
  unfold bind, try, dirtyGet, readBlock, ret. by rewrite Hdirty, Hl.
Qed.

Lemma readLoop_direct depth ctx md file dest off w fblock fb tail :
  TailPointer file = Some tail →
  blocks w !! fblock = Some (BlockFile fb) →
  IsInd fb = false →
  0 ≤ off →
  off + Z.of_nat (length dest) < 2 ^ 63 →
  Z.of_nat (length (Contents fb)) < 2 ^ 63 →
  let k := Z.to_nat (Z.min (Z.of_nat (length dest))
                       (Z.of_nat (length (Contents fb)) - off)) in
  readLoop cfg (length dest) depth ctx md file fblock off
    (Z.of_nat (length dest)) 0 dest w
  = (Ok (Z.of_nat k, None,
         take k (drop (Z.to_nat off) (Contents fb)) ++ drop k dest), w).
Proof.
  intros Htail Hfb Hind Hoff Hend Hlen k.
  assert (0 < 2 ^ 63) by (by apply Z.pow_pos_nonneg).
  set (n := Z.of_nat (length dest)) in *.
  set (len := Z.of_nat (length (Contents fb))) in *.
  destruct (length dest) as [|fuel] eqn:Hdest.
  { cbn [readLoop]. subst n. cbn. subst k.
    replace (Z.to_nat _) with 0%nat by lia. by rewrite drop_0. }
  rewrite readLoop_unfold by lia.
  rewrite Z.add_0_l, (FbmFacts.wrapS64_small off) by lia.
  rewrite (bind_ok _ _ _ _ _
             (try_ok _ _ _ _
                (getFileBlockAtOffset_direct _ _ _ _ _ _ _ _ _ _ _
                   Htail Hfb Hind))).
  cbn [foundBlock startOff nextBlockStartOff].
  rewrite (bind_ok _ _ _ _ _ (readFileBlock_ok _ _ _ Hfb)).
  cbn zeta. fold len.
  rewrite Z.add_0_l, ?Z.sub_0_r, (FbmFacts.wrapS64_small len) by lia.
  rewrite ?(FbmFacts.wrapS64_small off) by lia.
  destruct (Z.leb_spec len off) as [Hpast|Hin].
  { change (0 <? -1) with false. cbn iota. subst k.
    replace (Z.to_nat _) with 0%nat by lia. by rewrite drop_0. }
  rewrite (FbmFacts.wrapS64_small (len - off)) by lia.
  rewrite min_ltb.
  replace (Z.min n (len - off)) with (Z.of_nat k) by (subst k; lia).
  assert (0 < k ≤ S fuel)%nat as Hk by (subst k; lia).
  assert (slice (Contents fb) off (Z.of_nat k + off)
          = Some (take k (drop (Z.to_nat off) (Contents fb)))) as ->.
  { unfold slice.
    destruct (Z.ltb_spec off 0); [lia|].
    destruct (Z.ltb_spec (Z.of_nat k + off) off); [lia|].
    destruct (Z.ltb_spec (Z.of_nat (length (Contents fb)))
                (Z.of_nat k + off)); [subst k len; lia|].
    cbn [orb]. do 2 f_equal. lia. }
  msteps. rewrite sliceSet_0.
  assert (length (take k (drop (Z.to_nat off) (Contents fb))) = k) as Hlk.
  { rewrite length_take, length_drop. subst k len. lia. }
  rewrite Hlk.
  set (dest1 := take k _ ++ drop k dest).
  destruct (decide (Z.of_nat k = n)) as [Hall|Hless].
  - destruct fuel; cbn [readLoop];
      rewrite Z.add_0_l, (proj2 (Z.ltb_ge (Z.of_nat k) n)) by lia;
      cbn [negb]; by rewrite Hall.
  - destruct fuel as [|fuel]; [subst n; lia|].
    rewrite Z.add_0_l. rewrite readLoop_unfold by (subst n; lia).
    replace (Z.of_nat k + off) with len by (subst k; lia).
    rewrite (FbmFacts.wrapS64_small len) by lia.
    rewrite (bind_ok _ _ _ _ _
               (try_ok _ _ _ _
                  (getFileBlockAtOffset_direct _ _ _ _ _ _ _ _ _ _ _
                     Htail Hfb Hind))).
    cbn [foundBlock startOff nextBlockStartOff].
    rewrite (bind_ok _ _ _ _ _ (readFileBlock_ok _ _ _ Hfb)).
    cbn zeta. fold len.
    rewrite Z.add_0_l, (FbmFacts.wrapS64_small len) by lia.
    rewrite Z.leb_refl. done.
Qed.

(** X20.  What was written is what is read.  After the write of X19 into
    a block that the file's tracker did not know yet, or that was the
    dirty block of the file already, a [Read] of the file at [off2]
    returns the bytes of the block the splitter left, as many as fit in
    [dest], with no error and without changing the state. *)
Theorem writeDataLocked_then_Read fuel depth ctx md file data off w fblock
    uid w1 fb fb' de w2 tail depth2 ctx2 md2 dest off2 :
  0 ≤ off →
  0 < Z.of_nat (length data) →
  off + Z.of_nat (length data) < 2 ^ 63 →
  off + Z.of_nat (length data) ≤ MaxFileBytes cfg →
  Z.of_nat (length (Contents fb)) < 2 ^ 63 →
  Z.of_nat (length (Contents fb')) < 2 ^ 63 →
  writeGetFileLocked cfg ctx md file w = (Ok (fblock, uid), w1) →
  blocks w1 !! fblock = Some (BlockFile fb) →
  IsInd fb = false →
  getDirtyEntryLocked cfg ctx md file (getOrCreateDirtyFileLocked file w1).2
  = (Ok de, w2) →
  CopyUntilSplit fb true data off = (fb', Z.of_nat (length data)) →
  IsInd fb' = false →
  TailPointer file = Some tail →
  (∀ df, dirtyFiles w !! tail = Some df → fileBlockStates df !! tail = None)
  ∨ dirtyBcache w !! (tail, Branch file) = Some fblock →
  0 ≤ off2 →
  off2 + Z.of_nat (length dest) < 2 ^ 63 →
  let k := Z.to_nat (Z.min (Z.of_nat (length dest))
                       (Z.of_nat (length (Contents fb')) - off2)) in
  ∃ r w',
    writeDataLocked cfg CopyUntilSplit (S fuel) depth ctx md file data off w
    = (Ok r, w') ∧
    Read cfg depth2 ctx2 md2 file dest off2 w'
    = (Ok (Z.of_nat k, None,
           take k (drop (Z.to_nat off2) (Contents fb')) ++ drop k dest),
       w').
Proof.
  intros Hoff Hn Hend Hmax Hlen Hlen' Hget Hfb Hdir Hde Hsplit Hdir' Htail
    Hfresh Hoff2 Hend2 k.
  destruct (writeDataLocked_direct_run fuel depth ctx md file data off w
              fblock uid w1 fb fb' de w2)
    as (tail' & w' & Htail' & Hrun & Hblocks & _ & _ & _ & Hnew & Hcases);
    try assumption.
  assert (tail' = tail) as -> by congruence.
  eexists _, w'. split; [exact Hrun|].
  assert (blocks w' !! fblock = Some (BlockFile fb')) as Hfb'
    by (rewrite Hblocks; apply lookup_insert_eq).
  assert (dirtyBcache w' !! (tail, Branch file) = Some fblock) as Hdirty.
  { destruct Hfresh as [Hfresh|Hwas].
    - rewrite (Hnew Hfresh). apply lookup_insert_eq.
    - destruct Hcases as [-> | ->]; [exact Hwas|apply lookup_insert_eq]. }
  destruct (writeGetFileLocked_valid _ _ _ _ _ _ _ _ Hget Htail)
    as [Hpath Hptr].
  unfold Read.
  rewrite (bind_ok _ _ _ _ _
             (try_ok _ _ _ _
                (getFileLocked_dirty ctx2 md2 file w' tail fblock fb'
                   Hpath Hptr Htail Hdirty Hfb'))).
  by apply (readLoop_direct depth2 _ md2 file dest off2 w' fblock fb' tail).
Qed.

(** X21.  A write that would end past the largest file size, or before
    offset 0, is refused before anything else is done: [writeDataLocked]
    returns [FileTooBigError] and the state is as it was.  The end is
    compared as an unsigned number, so an end that overflowed [int64]
    does not pass the check. *)
Theorem writeDataLocked_too_big fuel depth ctx md file data off w :
  - 2 ^ 63 ≤ off < 2 ^ 63 →
  Z.of_nat (length data) < 2 ^ 63 →
  (off + Z.of_nat (length data) < 0 ∧ MaxFileBytes cfg < 2 ^ 63) ∨
  (0 ≤ off + Z.of_nat (length data) ∧
   MaxFileBytes cfg < off + Z.of_nat (length data)) →
  writeDataLocked cfg CopyUntilSplit fuel depth ctx md file data off w
  = (Err FileTooBigError, w).
Proof.
  intros Hoff Hn Hbig. unfold writeDataLocked.
  set (e := off + Z.of_nat (length data)) in *.
  assert (toUint64 (wrapS64 e) = e mod 2 ^ 64) as ->.
  { unfold toUint64, wrapS64.
    rewrite Zminus_mod_idemp_l. f_equal. lia. }
  change (2 ^ 63) with 9223372036854775808 in *.
  change (2 ^ 64) with 18446744073709551616 in *.
  assert (MaxFileBytes cfg < e mod 18446744073709551616) as Hlt.
  { destruct Hbig as [[Hneg Hmaxb]|[Hpos Hmaxb]].
    - replace e with (e + 18446744073709551616
                      + (-1) * 18446744073709551616) by lia.
      rewrite Z.mod_add, Z.mod_small by lia. lia.
    - rewrite Z.mod_small by lia. lia. }
  by rewrite (proj2 (Z.ltb_lt _ _) Hlt).
Qed.

End WriteDataFacts.

Lemma writeDataLocked_direct_witness :
  ∃ tail w',
    TailPointer filePath = Some tail ∧
    writeDataLocked testConfig (copyUpTo 8) 1 3 noDeadline testMD filePath
      [Byte.x41; Byte.x42] 1 fiveByteFile
    = (Ok (mkWriteRange 1 2, [tail], 5), w') ∧
    blocks w' !! 2%nat
    = Some (BlockFile (mkFileBlock false []
              [Byte.x68; Byte.x41; Byte.x42; Byte.x6c; Byte.x6f])) ∧
    unsyncedBytes w' = 5.
Proof.
  destruct (writeDataLocked_direct testConfig (copyUpTo 8) 0 3 noDeadline
              testMD filePath [Byte.x41; Byte.x42] 1 fiveByteFile 2%nat 1%N
              (writeGetFileLocked testConfig noDeadline testMD filePath
                 fiveByteFile).2
              (mkFileBlock false [] hello)
              (mkFileBlock false []
                 [Byte.x68; Byte.x41; Byte.x42; Byte.x6c; Byte.x6f])
              (mkDirEntry (mkBlockInfo filePtr 10) File 5 0 0)
              (getDirtyEntryLocked testConfig noDeadline testMD filePath
                 (getOrCreateDirtyFileLocked filePath
                    (writeGetFileLocked testConfig noDeadline testMD
                       filePath fiveByteFile).2).2).2)
    as (tail & w' & Htail & Hrun & Hblocks & _ & Hub).
  - lia.
  - simpl. lia.
  - simpl. lia.
  - by vm_compute.
  - simpl. lia.
  - simpl. lia.
  - vm_compute. reflexivity.
  - vm_compute. reflexivity.
  - reflexivity.
  - vm_compute. reflexivity.
  - vm_compute. reflexivity.
  - reflexivity.
  - exists tail, w'. split; [exact Htail|]. split; [exact Hrun|].
    split; [exact Hblocks|exact Hub].
Defined.

Lemma writeDataLocked_then_Read_witness :
  ∃ r w',
    writeDataLocked testConfig (copyUpTo 8) 1 3 noDeadline testMD filePath
      [Byte.x41; Byte.x42] 1 fiveByteFile
    = (Ok r, w') ∧
    Read testConfig 3 noDeadline testMD filePath (replicate 4 Byte.x00) 1 w'
    = (Ok (4, None, [Byte.x41; Byte.x42; Byte.x6c; Byte.x6f]), w').
Proof.
  apply (writeDataLocked_then_Read testConfig (copyUpTo 8) 0 3 noDeadline
           testMD filePath [Byte.x41; Byte.x42] 1 fiveByteFile 2%nat 1%N
           (writeGetFileLocked testConfig noDeadline testMD filePath
              fiveByteFile).2
           (mkFileBlock false [] hello)
           (mkFileBlock false []
              [Byte.x68; Byte.x41; Byte.x42; Byte.x6c; Byte.x6f])
           (mkDirEntry (mkBlockInfo filePtr 10) File 5 0 0)
           (getDirtyEntryLocked testConfig noDeadline testMD filePath
              (getOrCreateDirtyFileLocked filePath
                 (writeGetFileLocked testConfig noDeadline testMD
                    filePath fiveByteFile).2).2).2
           filePtr 3 noDeadline testMD (replicate 4 Byte.x00) 1).
  - lia.
  - simpl. lia.
  - simpl. lia.
  - by vm_compute.
  - simpl. lia.
  - simpl. lia.
  - vm_compute. reflexivity.
  - vm_compute. reflexivity.
  - reflexivity.
  - vm_compute. reflexivity.
  - vm_compute. reflexivity.
  - reflexivity.
  - reflexivity.
  - left. vm_compute. intros df H. discriminate H.
  - lia.
  - simpl. lia.
Defined.

Lemma writeDataLocked_too_big_witness :
  writeDataLocked testConfig (copyUpTo 8) 1 3 noDeadline testMD filePath
    [Byte.x41] (2 ^ 63 - 1) fiveByteFile
  = (Err FileTooBigError, fiveByteFile).
Proof.
  apply writeDataLocked_too_big.
  - lia.
  - simpl. lia.
  - right. split; [simpl; lia|by vm_compute].
Defined.

End FboFacts.
